(** * DemonEditor: the satellite downloader ([app/tools/satellites.py])

    A shallow embedding of [SatellitesParser], of the two satellite lists
    and of the two transponder extractors, with the properties the design
    document states about them and further properties of the code.

    Conventions of the model.
    - A Python [str] is a [string] whose characters are the code points
      U+0000..U+00FF, one [ascii] per code point.  The character tables
      below ([isdigit], [isalpha], [isspace]) are those of Python on that
      range.
    - A Python exception is a constructor of [exn]; code that can raise
      returns a [result].
    - [HTMLParser.feed] is library code: a document is the list of callback
      events it dispatches ([handle_starttag], [handle_data],
      [handle_endtag]).
    - [requests.get] is the environment: a function from the URL to what
      the call does there. *)

From Stdlib Require Import List String Ascii Bool Arith ZArith Lia.
From Stdlib Require Import Sorted Permutation.
Import ListNotations.

Set Implicit Arguments.
Open Scope string_scope.
Open Scope list_scope.
Open Scope nat_scope.

(** ** Exceptions *)

Inductive exn : Type :=
| IndexError
| TypeError
| AttributeError
| ValueError
| ConnectionError
| RequestException.

Inductive result (A : Type) : Type :=
| Ok (a : A)
| Raise (e : exn).
Arguments Ok {A} a.
Arguments Raise {A} e.

Definition bind {A B : Type} (m : result A) (f : A -> result B) : result B :=
  match m with
  | Ok a => f a
  | Raise e => Raise e
  end.

Declare Scope result_scope.
Delimit Scope result_scope with result.
Notation "x <- m ;; k" := (bind m (fun x => k))
  (at level 61, m at next level, right associativity) : result_scope.
Open Scope result_scope.

Fixpoint mapM {A B : Type} (f : A -> result B) (l : list A) : result (list B) :=
  match l with
  | [] => Ok []
  | a :: l' => b <- f a ;; bs <- mapM f l' ;; Ok (b :: bs)
  end.

(** ** Python strings *)

Module Py.

Definition chars (s : string) : list ascii := list_ascii_of_string s.
Definition str (l : list ascii) : string := string_of_list_ascii l.

Definition code (c : ascii) : nat := nat_of_ascii c.

Definition between (lo hi : nat) (c : ascii) : bool :=
  (lo <=? code c) && (code c <=? hi).

(** [\d] of [re], and the digits [int] accepts: 0-9 on this range. *)
Definition isdecimal (c : ascii) : bool := between 48 57 c.

(** [str.isdigit]: the decimal digits and the superscripts 1, 2, 3. *)
Definition isdigit (c : ascii) : bool :=
  isdecimal c || (code c =? 178) || (code c =? 179) || (code c =? 185).

Definition isupper_ascii (c : ascii) : bool := between 65 90 c.
Definition islower_ascii (c : ascii) : bool := between 97 122 c.

(** [str.isalpha]: the letters of U+0000..U+00FF. *)
Definition isalpha (c : ascii) : bool :=
  isupper_ascii c || islower_ascii c
  || (code c =? 170) || (code c =? 181) || (code c =? 186)
  || between 192 214 c || between 216 246 c || between 248 255 c.

(** [str.isspace], which is also what [strip()] removes and [\s] matches. *)
Definition isspace (c : ascii) : bool :=
  between 9 13 c || between 28 32 c || (code c =? 133) || (code c =? 160).

Definition lower (c : ascii) : ascii :=
  if isupper_ascii c then ascii_of_nat (code c + 32) else c.
Definition upper (c : ascii) : ascii :=
  if islower_ascii c then ascii_of_nat (code c - 32) else c.

(** The white space [int] skips around a literal: that of [strip()] but
    for the four separators U+001C..U+001F. *)
Definition isspace_int (c : ascii) : bool :=
  between 9 13 c || (code c =? 32) || (code c =? 133) || (code c =? 160).

Fixpoint lstrip_of (space : ascii -> bool) (l : list ascii) : list ascii :=
  match l with
  | c :: l' => if space c then lstrip_of space l' else l
  | [] => []
  end.

Definition rstrip_of (space : ascii -> bool) (l : list ascii) : list ascii :=
  rev (lstrip_of space (rev l)).

Definition lstrip : list ascii -> list ascii := lstrip_of isspace.
Definition rstrip : list ascii -> list ascii := rstrip_of isspace.

(** [s.strip()] *)
Definition strip (s : string) : string := str (rstrip (lstrip (chars s))).

(** [s.split(sep)] for a one-character separator: empty pieces are kept. *)
Fixpoint split_chars (sep : ascii) (l : list ascii) (cur : list ascii)
  : list string :=
  match l with
  | [] => [str (rev cur)]
  | c :: l' =>
      if Ascii.eqb c sep then str (rev cur) :: split_chars sep l' []
      else split_chars sep l' (c :: cur)
  end.

Definition split (sep : ascii) (s : string) : list string :=
  split_chars sep (chars s) [].

(** [sep.join(l)] *)
Fixpoint join (sep : string) (l : list string) : string :=
  match l with
  | [] => ""
  | [s] => s
  | s :: l' => (s ++ sep ++ join sep l')%string
  end.

(** [s.capitalize()], on the ASCII letters: first character upper-cased,
    the others lower-cased. *)
Definition capitalize (s : string) : string :=
  match chars s with
  | [] => ""
  | c :: l => str (upper c :: map lower l)
  end.

Definition digit_value (c : ascii) : Z := Z.of_nat (code c - 48).

(** The digits of an integer literal: decimal digits, with single
    underscores allowed between two digits. *)
Fixpoint int_digits (l : list ascii) (acc : Z) (after_digit : bool)
  : option Z :=
  match l with
  | [] => if after_digit then Some acc else None
  | c :: l' =>
      if isdecimal c then int_digits l' (10 * acc + digit_value c) true
      else if Ascii.eqb c "_" then
             if after_digit then int_digits l' acc false else None
           else None
  end.

(** [int(s)]: surrounding whitespace is dropped, then an optional sign,
    then the digits; anything else is a [ValueError]. *)
Definition int (s : string) : result Z :=
  let body := rstrip_of isspace_int (lstrip_of isspace_int (chars s)) in
  let parsed :=
    match body with
    | "-"%char :: l => option_map Z.opp (int_digits l 0 false)
    | "+"%char :: l => int_digits l 0 false
    | l => int_digits l 0 false
    end in
  match parsed with
  | Some z => Ok z
  | None => Raise ValueError
  end.

(** [l[i]] for [i >= 0] *)
Definition index {A : Type} (l : list A) (i : nat) : result A :=
  match nth_error l i with
  | Some a => Ok a
  | None => Raise IndexError
  end.

(** [l[-i]] for [i >= 1] *)
Definition index_end {A : Type} (l : list A) (i : nat) : result A :=
  if List.length l <? i then Raise IndexError
  else index l (List.length l - i).

End Py.

(** ** Regular expressions

    The part of Python's [re] that the patterns of this program use: a
    backtracking matcher, greedy repetition, numbered groups, [^] and [$],
    and the [IGNORECASE] flag.  No repeated body of these patterns can
    match the empty string, so an iteration of [Star] that consumes nothing
    is cut. *)

Module Re.

Inductive regex : Type :=
| Eps
| Lit (s : string)
| Class (p : ascii -> bool)
| Seq (a b : regex)
| Alt (a b : regex)
| Star (a : regex)
| Group (i : nat) (a : regex)
| Bol
| Eol.

Definition Plus (a : regex) : regex := Seq a (Star a).
Definition Opt (a : regex) : regex := Alt a Eps.

(** [\d], [\s], [.] and a bracketed set of characters *)
Definition digit : regex := Class Py.isdecimal.
Definition space : regex := Class Py.isspace.
Definition dot : regex := Class (fun c => negb (Ascii.eqb c "010")).
Definition one_of (s : string) : regex :=
  Class (fun c => existsb (Ascii.eqb c) (Py.chars s)).

(** The groups set so far, the most recent first. *)
Definition caps : Type := list (nat * string).

Fixpoint group (c : caps) (i : nat) : option string :=
  match c with
  | [] => None
  | (j, s) :: c' => if j =? i then Some s else group c' i
  end.

Definition same_char (ic : bool) (a b : ascii) : bool :=
  Ascii.eqb a b || (ic && Ascii.eqb (Py.lower a) (Py.lower b)).

Fixpoint lit_match (ic : bool) (l s : list ascii) : option (list ascii) :=
  match l, s with
  | [], _ => Some s
  | a :: l', b :: s' => if same_char ic a b then lit_match ic l' s' else None
  | _ :: _, [] => None
  end.

Definition class_test (ic : bool) (p : ascii -> bool) (c : ascii) : bool :=
  p c || (ic && (p (Py.lower c) || p (Py.upper c))).

Section Matcher.
Variable ic : bool.          (* re.IGNORECASE *)
Variable n : nat.            (* length of the whole subject *)
Variable T : Type.

(** [exec r s c k]: match [r] at the head of the remaining subject [s],
    then continue with [k]; the first alternative that lets [k] succeed
    wins. *)
Fixpoint exec (r : regex) (s : list ascii) (c : caps)
  (k : list ascii -> caps -> option T) {struct r} : option T :=
  match r with
  | Eps => k s c
  | Lit l =>
      match lit_match ic (Py.chars l) s with
      | Some s' => k s' c
      | None => None
      end
  | Class p =>
      match s with
      | a :: s' => if class_test ic p a then k s' c else None
      | [] => None
      end
  | Seq a b => exec a s c (fun s' c' => exec b s' c' k)
  | Alt a b =>
      match exec a s c k with
      | Some t => Some t
      | None => exec b s c k
      end
  | Star a =>
      (fix star (fuel : nat) (s : list ascii) (c : caps) : option T :=
         match fuel with
         | O => k s c
         | S fuel' =>
             match exec a s c
                     (fun s' c' =>
                        if List.length s' <? List.length s
                        then star fuel' s' c' else None) with
             | Some t => Some t
             | None => k s c
             end
         end) (List.length s) s c
  | Group i a =>
      exec a s c
        (fun s' c' =>
           k s' ((i, Py.str (firstn (List.length s - List.length s') s))
                   :: c'))
  | Bol => if List.length s =? n then k s c else None
  | Eol =>
      match s with
      | [] => k s c
      | ["010"%char] => k s c
      | _ => None
      end
  end.
End Matcher.

(** One attempt at the position where [s] starts: the rest of the subject
    after the match, and the groups. *)
Definition attempt (ic : bool) (n : nat) (r : regex) (s : list ascii)
  : option (list ascii * caps) :=
  exec ic n r s [] (fun s' c => Some (s', c)).

(** [re.match(r, s)] *)
Definition re_match (ic : bool) (r : regex) (s : string) : option caps :=
  let l := Py.chars s in
  option_map snd (attempt ic (List.length l) r l).

(** What [re.findall] reports for one match of a pattern with [g >= 2]
    groups: the groups 1..[g], a group that took no part as [""]. *)
Definition groups_tuple (g : nat) (c : caps) : list string :=
  map (fun i => match group c i with Some s => s | None => "" end)
      (seq 1 g).

Fixpoint findall_from (fuel : nat) (g : nat) (n : nat) (r : regex)
  (s : list ascii) : list (list string) :=
  match fuel with
  | O => []
  | S fuel' =>
      match attempt false n r s with
      | Some (s', c) =>
          groups_tuple g c ::
            (if List.length s' <? List.length s
             then findall_from fuel' g n r s'
             else match s with
                  | [] => []
                  | _ :: s1 => findall_from fuel' g n r s1
                  end)
      | None =>
          match s with
          | [] => []
          | _ :: s1 => findall_from fuel' g n r s1
          end
      end
  end.

(** [re.findall(r, s)] for a pattern with [g >= 2] groups: the matches
    from left to right, none overlapping another. *)
Definition findall (g : nat) (r : regex) (s : string) : list (list string) :=
  let l := Py.chars s in
  findall_from (S (List.length l)) g (List.length l) r l.

End Re.


(** ** The entities of [app.eparser] *)

(** [s == t] on two [str] values *)
Infix "==" := String.eqb (at level 70, no associativity).

(** A Python value that is either a [str] or [None]. *)
Definition cell : Type := option string.

(** [x.method(...)] or [f(x)] on a value that must be a [str]: [None]
    raises [e]. *)
Definition as_str (e : exn) (c : cell) : result string :=
  match c with
  | Some s => Ok s
  | None => Raise e
  end.

(** Truth value of a cell: [None] and the empty string are false. *)
Definition truthy (c : cell) : bool :=
  match c with
  | Some s => negb (s == "")
  | None => false
  end.

(** The named tuple [Transponder], built positionally at lines 206 and 245;
    [frequency] and [is_id] are named by the source, the other fields by the
    data model. *)
Record Transponder : Type := mkTransponder {
  frequency : string;
  symbol_rate : string;
  polarization : string;
  fec_inner : string;
  system : string;
  modulation : string;
  pls_mode : cell;
  pls_code : cell;
  is_id : cell
}.

(** [tr._replace(is_id=v)] *)
Definition replace_is_id (tr : Transponder) (v : cell) : Transponder :=
  mkTransponder (frequency tr) (symbol_rate tr) (polarization tr)
    (fec_inner tr) (system tr) (modulation tr) (pls_mode tr) (pls_code tr) v.

(** The tables of [app.eparser.ecommons], whose values the program imports:
    [PLS_MODE] as the items of the dict, in order, and the accepted FEC
    fractions. *)
Class ECommons : Type := {
  PLS_MODE : list (string * string);
  FEC : list string
}.

(** Modelled from the spec: the four accepted polarization letters and the
    two accepted systems, tables of [app.eparser] as well. *)
Definition POLARIZATION : list string := ["H"; "V"; "L"; "R"].
Definition SYSTEM : list string := ["DVB-S"; "DVB-S2"].

Definition mem (s : string) (l : list string) : bool :=
  existsb (String.eqb s) l.

(** [int(s) > 0], false when [s] is not an integer literal. *)
Definition positive_int (s : string) : bool :=
  match Py.int s with
  | Ok z => (0 <? z)%Z
  | Raise _ => false
  end.

(** Modelled from the spec: [is_transponder_valid] of [app.eparser], which is
    not among the sources.  A transponder is valid when frequency and symbol
    rate parse as strictly positive integers, the polarization is one of the
    four letters, the FEC is one of the fixed fractions and the system is one
    of the two DVB-S variants.  The record holds the values padded with
    ["000"], which is what the function receives. *)
Definition is_transponder_valid `{ECommons} (tr : Transponder) : bool :=
  positive_int (frequency tr)
  && positive_int (symbol_rate tr)
  && mem (polarization tr) POLARIZATION
  && mem (fec_inner tr) FEC
  && mem (system tr) SYSTEM.

(** A dict given by its items in insertion order; a later item with the
    same key replaces an earlier one. *)
Definition dict_get (items : list (string * string)) (key : string) : cell :=
  fold_left (fun found kv => if fst kv == key then Some (snd kv) else found)
            items None.

(** [{v: k for k, v in PLS_MODE.items()}] *)
Definition pls_modes `{ECommons} : list (string * string) :=
  map (fun kv => (snd kv, fst kv)) PLS_MODE.

(** ** The parser *)

Inductive SatelliteSource : Type :=
| FLYSAT
| LYNGSAT.

Definition get_sources (src : SatelliteSource) : list string :=
  match src with
  | FLYSAT => ["https://www.flysat.com/satlist.php"]
  | LYNGSAT => ["https://www.lyngsat.com/asia.html";
                "https://www.lyngsat.com/europe.html";
                "https://www.lyngsat.com/atlantic.html";
                "https://www.lyngsat.com/america.html"]
  end.

Definition is_flysat (src : SatelliteSource) : bool :=
  match src with FLYSAT => true | LYNGSAT => false end.

Definition row : Type := list cell.

(** The fields [__init__] sets (lines 34-42). *)
Record SatellitesParser : Type := mkParser {
  _parse_html_entities : bool;
  _separator : string;
  _is_td : bool;
  _is_th : bool;
  _is_provider : bool;
  _current_row : row;
  _current_cell : list string;
  _rows : list row;
  _source : SatelliteSource
}.

Definition init (source : SatelliteSource) (entities : bool)
  (separator : string) : SatellitesParser :=
  mkParser entities separator false false false [] [] [] source.

Definition set_is_td (b : bool) (p : SatellitesParser) : SatellitesParser :=
  mkParser (_parse_html_entities p) (_separator p) b (_is_th p)
    (_is_provider p) (_current_row p) (_current_cell p) (_rows p) (_source p).

Definition set_is_th (b : bool) (p : SatellitesParser) : SatellitesParser :=
  mkParser (_parse_html_entities p) (_separator p) (_is_td p) b
    (_is_provider p) (_current_row p) (_current_cell p) (_rows p) (_source p).

Definition set_current_row (r : row) (p : SatellitesParser)
  : SatellitesParser :=
  mkParser (_parse_html_entities p) (_separator p) (_is_td p) (_is_th p)
    (_is_provider p) r (_current_cell p) (_rows p) (_source p).

Definition set_current_cell (c : list string) (p : SatellitesParser)
  : SatellitesParser :=
  mkParser (_parse_html_entities p) (_separator p) (_is_td p) (_is_th p)
    (_is_provider p) (_current_row p) c (_rows p) (_source p).

Definition set_rows (rs : list row) (p : SatellitesParser)
  : SatellitesParser :=
  mkParser (_parse_html_entities p) (_separator p) (_is_td p) (_is_th p)
    (_is_provider p) (_current_row p) (_current_cell p) rs (_source p).

Definition set_source (src : SatelliteSource) (p : SatellitesParser)
  : SatellitesParser :=
  mkParser (_parse_html_entities p) (_separator p) (_is_td p) (_is_th p)
    (_is_provider p) (_current_row p) (_current_cell p) (_rows p) src.

(** What [HTMLParser.feed] dispatches; tag names arrive in lower case, and
    an attribute written without a value has the value [None]. *)
Inductive event : Type :=
| StartTag (tag : string) (attrs : list (string * cell))
| Data (data : string)
| EndTag (tag : string).

(** Lines 44-50.  [attrs[0][1]] is the value of the first attribute. *)
Definition handle_starttag (tag : string) (attrs : list (string * cell))
  (p : SatellitesParser) : result SatellitesParser :=
  let p := if tag == "td" then set_is_td true p else p in
  let p := if tag == "tr" then set_is_th true p else p in
  if tag == "a" then
    a0 <- Py.index attrs 0 ;;
    Ok (set_current_row (_current_row p ++ [snd a0]) p)
  else Ok p.

(** Lines 52-55. *)
Definition handle_data (data : string) (p : SatellitesParser)
  : SatellitesParser :=
  if _is_td p || _is_th p
  then set_current_cell (_current_cell p ++ [Py.strip data]) p
  else p.

(** Lines 57-70. *)
Definition handle_endtag (tag : string) (p : SatellitesParser)
  : SatellitesParser :=
  let p := if tag == "td" then set_is_td false p
           else if tag == "tr" then set_is_th false p
           else p in
  if (tag == "td") || (tag == "th") then
    let final_cell := Py.strip (Py.join (_separator p) (_current_cell p)) in
    set_current_cell []
      (set_current_row (_current_row p ++ [Some final_cell]) p)
  else if tag == "tr" then
    set_current_row [] (set_rows (_rows p ++ [_current_row p]) p)
  else p.

Definition handle (ev : event) (p : SatellitesParser)
  : result SatellitesParser :=
  match ev with
  | StartTag tag attrs => handle_starttag tag attrs p
  | Data data => Ok (handle_data data p)
  | EndTag tag => Ok (handle_endtag tag p)
  end.

(** [self.feed(text)], the document given by its events: the callbacks run
    in order; when one raises, the parser keeps what the earlier ones did. *)
Fixpoint feed (doc : list event) (p : SatellitesParser)
  : result unit * SatellitesParser :=
  match doc with
  | [] => (Ok tt, p)
  | ev :: doc' =>
      match handle ev p with
      | Ok p' => feed doc' p'
      | Raise e => (Raise e, p)
      end
  end.

(** [HTMLParser.reset()]: it re-initialises the base class's own buffer of
    unprocessed text and its position; the subclass does not override it,
    so none of the fields above changes. *)
Definition reset (p : SatellitesParser) : SatellitesParser := p.

(** Lines 137-139: the generator keeps the characters that pass the test,
    and [join] concatenates them. *)
Fixpoint parse_position (pos_str : string) : string :=
  match pos_str with
  | EmptyString => ""
  | String c rest =>
      if Py.isdigit c || Py.isalpha c || Ascii.eqb c "."
      then String c (parse_position rest)
      else parse_position rest
  end.

(** Lines 141-143: [pos[-1]] raises on the empty string; [pos[:-1]] drops
    the last character. *)
Definition get_position (pos : string) : result string :=
  last_char <- Py.index_end (Py.chars pos) 1 ;;
  Ok ((if Ascii.eqb last_char "W" then "-" else "")
        ++ Py.str (removelast (Py.chars pos)))%string.

(** ** Sorting

    [sorted(l, key=f)] computes every key first, then sorts stably by it.
    The stable sort of a list is unique, so straight insertion stands for
    Python's algorithm. *)

Fixpoint insert_keyed {A : Type} (k : Z) (x : A) (l : list (Z * A))
  : list (Z * A) :=
  match l with
  | [] => [(k, x)]
  | (k', y) :: l' =>
      if (k <=? k')%Z then (k, x) :: l
      else (k', y) :: insert_keyed k x l'
  end.

Fixpoint sort_keyed {A : Type} (l : list (Z * A)) : list (Z * A) :=
  match l with
  | [] => []
  | (k, x) :: l' => insert_keyed k x (sort_keyed l')
  end.

Definition sorted {A : Type} (key : A -> result Z) (l : list A)
  : result (list A) :=
  keys <- mapM key l ;;
  Ok (map snd (sort_keyed (combine keys l))).

(** ** The transponder extractors *)

Import Re.

(** Line 164: the word Stream, a space, one or more digits; groups 1, 2. *)
Definition is_id_pattern : regex :=
  Seq (Group 1 (Lit "Stream")) (Seq (Lit " ") (Group 2 (Plus digit))).

Definition pls_name : regex :=
  Alt (Lit "Root") (Alt (Lit "Gold") (Lit "Combo")).

(** Line 163: [(PLS:)+], a space, [(Root|Gold|Combo)+], a space, optional
    digits; groups 1, 2, 3. *)
Definition pls_pattern : regex :=
  Seq (Plus (Group 1 (Lit "PLS:")))
    (Seq (Lit " ")
       (Seq (Plus (Group 2 pls_name))
          (Seq (Lit " ") (Opt (Group 3 (Plus digit)))))).

(** Four or five digits, five preferred. *)
Definition digits_4_5 : regex :=
  Seq digit (Seq digit (Seq digit (Seq digit (Opt digit)))).

(** Line 214: four or five digits, white space, one of R, L, H, V, then the
    rest of the line; groups 1, 2. *)
Definition frq_pol_pattern : regex :=
  Seq (Group 1 digits_4_5)
    (Seq (Plus space) (Seq (Group 2 (one_of "RLHV")) (Star dot))).

(** Line 215, anchored at both ends: four or five digits, a dash,
    digit/digit, optionally one or more characters ending in PSK, optionally
    the rest; groups 1 to 4. *)
Definition sr_fec_pattern : regex :=
  Seq Bol
    (Seq (Group 1 digits_4_5)
       (Seq (Lit "-")
          (Seq (Group 2 (Seq digit (Seq (Lit "/") digit)))
             (Seq (Opt (Group 3 (Seq (Plus dot) (Lit "PSK"))))
                (Seq (Opt (Group 4 (Star dot))) Eol))))).

(** Line 216, compiled with [re.IGNORECASE]: DVB-S with an optional 2, an
    optional space, any number of [PLS+ (Root|Gold|Combo)+ digits], an
    optional space, optionally [multistream stream digits]; groups 1 to 6. *)
Definition sys_pattern : regex :=
  Seq (Group 1 (Seq (Lit "DVB-S") (Opt (one_of "2"))))
    (Seq (Opt (Lit " "))
       (Seq (Star (Group 2
                     (Seq (Lit "PL")
                        (Seq (Plus (Lit "S"))
                           (Seq (Lit " ")
                              (Seq (Plus (Group 3 pls_name))
                                 (Seq (Lit " ") (Group 4 (Plus digit)))))))))
          (Seq (Opt (Lit " "))
             (Opt (Group 5 (Seq (Lit "multistream stream ")
                              (Group 6 (Plus digit)))))))).

Definition zeros : string := "000".

(** The three lists the loop of [get_transponders_for_fly_sat] updates. *)
Record fly_sat_state : Type := mkFly {
  trs : list Transponder;
  n_trs : list Transponder;
  is_ids : list (list string)
}.

(** [trs.pop()] *)
Definition pop {A : Type} (l : list A) : result (A * list A) :=
  match rev l with
  | [] => Raise IndexError
  | x :: before => Ok (x, rev before)
  end.

(** Lines 201-204: every buffered id gives one copy of [tr] carrying it
    ([is_id[1]] is the second group of the match); the valid copies are
    appended. *)
Definition stream_copies `{ECommons} (tr : Transponder)
  (ids : list (list string)) : list Transponder :=
  filter is_transponder_valid
         (map (fun is_id => replace_is_id tr (Some (nth 1 is_id ""))) ids).

(** The body of the loop, lines 172-209; [continue] leaves the three lists
    as they are. *)
Definition fly_sat_row `{ECommons} (st : fly_sat_state) (r : row)
  : result fly_sat_state :=
  if List.length r =? 1 then
    r0 <- Py.index r 0 ;;
    text <- as_str TypeError r0 ;;
    Ok (mkFly (trs st) (n_trs st) (is_ids st ++ findall 2 is_id_pattern text))
  else if List.length r <? 3 then Ok st
  else
    r2 <- Py.index r 2 ;;
    s2 <- as_str AttributeError r2 ;;
    match Py.split " " s2 with
    | [sr; fec] =>
        r1 <- Py.index r 1 ;;
        s1 <- as_str AttributeError r1 ;;
        match Py.split " " s1 with
        | freq :: pol :: sys :: _ =>
            match Py.split "/" sys with
            | [sys; modu] =>
                let modu := if sys == "DVB-S" then "QPSK" else modu in
                let pls := findall 3 pls_pattern s1 in
                let pls_code :=
                  match pls with
                  | m :: _ => Some (nth 2 m "")
                  | [] => None
                  end in
                let pls_mode :=
                  match pls with
                  | m :: _ => dict_get pls_modes (nth 1 m "")
                  | [] => None
                  end in
                match is_ids st with
                | _ :: _ =>
                    popped <- pop (trs st) ;;
                    Ok (mkFly (snd popped)
                          (n_trs st ++ stream_copies (fst popped) (is_ids st))
                          [])
                | [] =>
                    let tr := mkTransponder (freq ++ zeros) (sr ++ zeros) pol
                                fec sys modu pls_mode pls_code None in
                    Ok (mkFly (if is_transponder_valid tr
                               then trs st ++ [tr] else trs st)
                          (n_trs st) [])
                end
            | _ => Ok st
            end
        | _ => Ok st
        end
    | _ => Ok st
    end.

Fixpoint fly_sat_rows `{ECommons} (st : fly_sat_state) (rows : list row)
  : result fly_sat_state :=
  match rows with
  | [] => Ok st
  | r :: rows' => st' <- fly_sat_row st r ;; fly_sat_rows st' rows'
  end.

(** Lines 161-210: the list [trs] the caller passed, as the call leaves it. *)
Definition get_transponders_for_fly_sat `{ECommons} (rows : list row)
  (trs0 : list Transponder) : result (list Transponder) :=
  match rows with
  | [] => Ok trs0
  | _ :: _ =>
      st <- fly_sat_rows (mkFly trs0 [] []) rows ;;
      Ok (trs st ++ n_trs st)
  end.

(** Lines 222-225: the first of the three cells the pattern matches;
    [re.match] on [None] is a [TypeError]. *)
Fixpoint first_match (r : regex) (cells : list cell) : result (option caps) :=
  match cells with
  | [] => Ok None
  | c :: cells' =>
      s <- as_str TypeError c ;;
      match re_match false r s with
      | Some m => Ok (Some m)
      | None => first_match r cells'
      end
  end.

(** The body of the loop, lines 222-247, on a row of more than 8 cells. *)
Definition lyng_sat_row `{ECommons} (trs : list Transponder) (r : row)
  : result (list Transponder) :=
  r1 <- Py.index r 1 ;;
  r2 <- Py.index r 2 ;;
  r3 <- Py.index r 3 ;;
  freq <- first_match frq_pol_pattern [r1; r2; r3] ;;
  match freq with
  | None => Ok trs
  | Some freq =>
      c3 <- Py.index_end r 3 ;;
      s3 <- as_str TypeError c3 ;;
      match re_match false sr_fec_pattern s3 with
      | None => Ok trs
      | Some sr_fec =>
          let modu :=
            match group sr_fec 3 with
            | Some m => if m == "" then "Auto" else Py.strip m
            | None => "Auto"
            end in
          c4 <- Py.index_end r 4 ;;
          s4 <- as_str TypeError c4 ;;
          match re_match true sys_pattern s4 with
          | None => Ok trs
          | Some res =>
              let pls_mode :=
                match group res 3 with
                | Some m =>
                    if m == "" then Some m
                    else dict_get pls_modes (Py.capitalize m)
                | None => None
                end in
              frq <- as_str TypeError (group freq 1) ;;
              sr <- as_str TypeError (group sr_fec 1) ;;
              pol <- as_str TypeError (group freq 2) ;;
              fec <- as_str TypeError (group sr_fec 2) ;;
              sys <- as_str TypeError (group res 1) ;;
              let tr := mkTransponder (frq ++ zeros) (sr ++ zeros) pol fec
                          sys modu pls_mode (group res 4) (group res 6) in
              Ok (if is_transponder_valid tr then trs ++ [tr] else trs)
          end
      end
  end.

Fixpoint lyng_sat_rows `{ECommons} (trs : list Transponder) (rows : list row)
  : result (list Transponder) :=
  match rows with
  | [] => Ok trs
  | r :: rows' => trs' <- lyng_sat_row trs r ;; lyng_sat_rows trs' rows'
  end.

(** Lines 212-247. *)
Definition get_transponders_for_lyng_sat `{ECommons} (rows : list row)
  (trs0 : list Transponder) : result (list Transponder) :=
  lyng_sat_rows trs0 (filter (fun x => 8 <? List.length x) rows).

(** ** Fetching *)

(** What [requests.get(url, headers)] does: it raises, or it returns a
    response with its reason phrase and its text. *)
Inductive fetched : Type :=
| Fails (e : exn)
| Response (reason : string) (text : list event).

(** The parser object and what [log] has written so far. *)
Record world : Type := mkWorld {
  self : SatellitesParser;
  logged : list string
}.

Definition log (line : string) (w : world) : world :=
  mkWorld (self w) (logged w ++ [line]).

Definition with_self (p : SatellitesParser) (w : world) : world :=
  mkWorld p (logged w).

(** [repr(e)], up to the message the exception carries. *)
Definition repr (e : exn) : string :=
  match e with
  | IndexError => "IndexError"
  | TypeError => "TypeError"
  | AttributeError => "AttributeError"
  | ValueError => "ValueError"
  | ConnectionError => "ConnectionError"
  | RequestException => "RequestException"
  end.

(** [except requests.exceptions.ConnectionError] *)
Definition is_connection_error (e : exn) : bool :=
  match e with ConnectionError => true | _ => false end.

(** The tuple [get_satellites_list] builds for one satellite: name,
    position, category, address of the detail page, and [False]. *)
Definition satellite : Type := cell * string * cell * cell * bool.

(** Lines 96-97. *)
Definition get_sat (r : row) : result satellite :=
  name <- Py.index r 1 ;;
  r2 <- Py.index r 2 ;;
  pos <- as_str TypeError r2 ;;
  category <- Py.index r 3 ;;
  url <- Py.index r 0 ;;
  Ok (name, parse_position pos, category, url, false).

(** The filter of line 99: [all(x) and len(x) == 5]. *)
Definition five_full_cells (x : row) : bool :=
  forallb truthy x && (List.length x =? 5).

(** Lines 77-79: what [get_satellites_list] does to the parser before it
    fetches anything. *)
Definition enter_get_satellites_list (source : SatelliteSource)
  (p : SatellitesParser) : SatellitesParser :=
  set_source source (set_rows [] (reset p)).

(** Line 147: what [get_transponders] does to the parser before it fetches
    anything. *)
Definition enter_get_transponders (p : SatellitesParser) : SatellitesParser :=
  set_rows [] p.

Section Downloader.

Context `{ECommons}.

(** The network, as the program sees it during one call. *)
Variable requests_get : string -> fetched.

(** The adapter of the second provider, lines 101-128, from the
    accumulated rows to its satellites.  It walks a Python [set], whose
    order is not fixed by the program; the properties below hold whatever
    it returns. *)
Variable lyng_sat_satellites : list row -> result (list satellite).

(** The loop of lines 81-92.  [Ok (Some l)]: the loop executed
    [return l]; [Ok None]: it ran to its end. *)
Fixpoint fetch_sources (srcs : list string) (w : world)
  : result (option (list satellite)) * world :=
  match srcs with
  | [] => (Ok None, w)
  | src :: srcs' =>
      match requests_get src with
      | Fails e =>
          if is_connection_error e then (Ok (Some []), log (repr e) w)
          else (Raise e, w)
      | Response reason text =>
          if reason == "OK" then
            match feed text (self w) with
            | (Ok _, p) => fetch_sources srcs' (with_self p w)
            | (Raise e, p) => (Raise e, with_self p w)
            end
          else fetch_sources srcs' (log reason w)
      end
  end.

(** Lines 94-128, once the pages are read.  [None] is Python's [None],
    returned when the function falls off its end. *)
Definition satellites_of_rows (p : SatellitesParser)
  : result (option (list satellite)) :=
  match _rows p with
  | [] => Ok None
  | _ :: _ =>
      match _source p with
      | FLYSAT =>
          l <- mapM get_sat (filter five_full_cells (_rows p)) ;;
          Ok (Some l)
      | LYNGSAT =>
          l <- lyng_sat_satellites (_rows p) ;;
          Ok (Some l)
      end
  end.

(** Lines 75-128. *)
Definition get_satellites_list (source : SatelliteSource) (w : world)
  : result (option (list satellite)) * world :=
  let p := enter_get_satellites_list source (self w) in
  match fetch_sources (get_sources (_source p)) (with_self p w) with
  | (Ok (Some l), w') => (Ok (Some l), w')
  | (Ok None, w') => (satellites_of_rows (self w'), w')
  | (Raise e, w') => (Raise e, w')
  end.

Definition int_frequency (x : Transponder) : result Z :=
  Py.int (frequency x).

(** Lines 145-159. *)
Definition get_transponders (sat_url : string) (w : world)
  : result (list Transponder) * world :=
  let p := enter_get_transponders (self w) in
  let url := if is_flysat (_source p)
             then ("https://www.flysat.com/" ++ sat_url)%string
             else sat_url in
  match requests_get url with
  | Fails e => (Raise e, with_self p w)
  | Response reason text =>
      if reason == "OK" then
        match feed text p with
        | (Raise e, p') => (Raise e, with_self p' w)
        | (Ok _, p') =>
            let extracted :=
              match _source p' with
              | FLYSAT => get_transponders_for_fly_sat (_rows p') []
              | LYNGSAT => get_transponders_for_lyng_sat (_rows p') []
              end in
            (trs <- extracted ;; sorted int_frequency trs, with_self p' w)
        end
      else (sorted int_frequency [], with_self p w)
  end.

End Downloader.

(** ** Notions the properties are stated with *)

(** The characters [parse_position] keeps. *)
Definition position_char (c : ascii) : bool :=
  Py.isdigit c || Py.isalpha c || Ascii.eqb c ".".

(** The anchor's [href] attribute, as the design document names it: the
    value of the first attribute called href, [None] when there is none. *)
Fixpoint href_attribute (attrs : list (string * cell)) : cell :=
  match attrs with
  | [] => None
  | (name, v) :: attrs' => if name == "href" then v else href_attribute attrs'
  end.

(** The tokenizer as [__init__] leaves it: both flags down, the three
    buffers empty. *)
Definition tokenizer_reset (p : SatellitesParser) : Prop :=
  _is_td p = false /\ _is_th p = false
  /\ _current_cell p = [] /\ _current_row p = [] /\ _rows p = [].

(** The tuple the design document gives for a kept row [r]:
    name [r[1]], position [parse_position(r[2])], category [r[3]], detail
    address [r[0]], and the flag false. *)
Definition flysat_tuple (r : row) : satellite :=
  (nth 1 r None,
   parse_position (match nth 2 r None with Some s => s | None => "" end),
   nth 3 r None,
   nth 0 r None,
   false).

(** The order [sorted] puts the keyed elements in. *)
Definition key_le {A : Type} (a b : Z * A) : Prop := (fst a <= fst b)%Z.

(** A pair holds an element together with its own key. *)
Definition keyed {A : Type} (key : A -> result Z) (kx : Z * A) : Prop :=
  key (snd kx) = Ok (fst kx).

(** Every transponder of a list passed validation. *)
Definition all_valid `{ECommons} (l : list Transponder) : Prop :=
  Forall (fun t => is_transponder_valid t = true) l.

(** The stream ids a one-cell row buffers: the second group of every match
    of the pattern in its text. *)
Definition stream_ids (text : string) : list string :=
  map (fun m => nth 1 m "") (findall 2 is_id_pattern text).

(** A valid data row: met with nothing pending, it makes the loop append a
    transponder. *)
Definition valid_data_row `{ECommons} (d : row) : Prop :=
  exists t : Transponder,
    fly_sat_row (mkFly [] [] []) d = Ok (mkFly [t] [] []).

(** Exactly two transponders came out, equal but for the stream ids 1 and
    2. *)
Definition two_streams (out : result (list Transponder)) : Prop :=
  exists t : Transponder,
    out = Ok [replace_is_id t (Some "1"); replace_is_id t (Some "2")].

(** ** Sample inputs *)

(** A parser just constructed with the default separator, and nothing
    logged. *)
Definition fresh (source : SatelliteSource) : world :=
  mkWorld (init source false " ") [].

(** Sample values for the imported tables. *)
Definition sample_tables : ECommons :=
  {| PLS_MODE := [("0", "Root"); ("1", "Gold"); ("2", "Combo")];
     FEC := ["1/2"; "2/3"; "3/4"; "5/6"; "7/8"] |}.

(** A network on which every request gets the same answer. *)
Definition always (answer : fetched) : string -> fetched := fun _ => answer.

(** A network on which every request succeeds, with the page of the
    address as its text. *)
Definition serving (page : string -> list event) : string -> fetched :=
  fun url => Response "OK" (page url).

(** [<td>text</td>] *)
Definition td (text : string) : list event :=
  [StartTag "td" []; Data text; EndTag "td"].

(** [<tr>cells</tr>] *)
Definition tr (cells : list event) : list event :=
  StartTag "tr" [] :: cells ++ [EndTag "tr"].

(** [<table><tr><td><a>x</a></td></tr></table>]: an anchor without
    attributes. *)
Definition bare_anchor_page : list event :=
  [StartTag "table" []; StartTag "tr" []; StartTag "td" [];
   StartTag "a" []; Data "x"; EndTag "a";
   EndTag "td"; EndTag "tr"; EndTag "table"].

(** A document that ends inside a cell: [<tr><td>x<br>]. *)
Definition unfinished_page : list event :=
  [StartTag "tr" []; StartTag "td" []; Data "x"; StartTag "br" []].

(** [<tr><td><a href=url>name</a></td><td>pos</td><td>band</td><td>1</td></tr>]:
    one row of the first provider's satellite list. *)
Definition satellite_row (url name pos band : string) : list event :=
  tr ([StartTag "td" []; StartTag "a" [("href", Some url)]; Data name;
       EndTag "a"; EndTag "td"]
      ++ td pos ++ td band ++ td "1").

(** A satellite list: a header row, two satellites, and between them a
    row of five cells whose first is empty. *)
Definition sample_list_page : list event :=
  tr (td "Satellite" ++ td "Position")
  ++ satellite_row "hotbird.php" "Hot Bird" "13.0 E" "Ku"
  ++ tr ([StartTag "td" []; EndTag "td"]
         ++ td "a" ++ td "b" ++ td "c" ++ td "d")
  ++ satellite_row "thor.php" "Thor" "1.0 W" "Ku".

(** Rows of a detail page of the first provider, as the tokenizer leaves
    them, and the transponders they stand for. *)
Definition row_11727 : row :=
  [Some "1"; Some "11727 V DVB-S2/8PSK"; Some "27500 3/4"].

Definition row_12000 : row :=
  [Some "2"; Some "12000 H DVB-S/QPSK"; Some "27500 3/4"].

Definition stream_row : row := [Some "Stream 1 Stream 2"].

(** A detail page whose first row is the stream marker and whose second row
    is a data row. *)
Definition stream_first_page : list event :=
  tr (td "Stream 1 Stream 2")
  ++ tr (td "1" ++ td "11727 V DVB-S2/8PSK" ++ td "27500 3/4").

(** A detail page of the first provider: a good row, then a row whose
    symbol rate is 0. *)
Definition sample_fly_sat_page : list event :=
  tr (td "1" ++ td "11727 V DVB-S2/8PSK" ++ td "27500 3/4")
  ++ tr (td "2" ++ td "12000 H DVB-S/QPSK" ++ td "0 3/4").

(** A detail page of the second provider with two transponder rows, the
    higher frequency first. *)
Definition sample_lyng_sat_page : list event :=
  tr (td "a" ++ td "12000 H" ++ td "tp 2" ++ td "x" ++ td "y"
      ++ td "DVB-S" ++ td "27500-3/4" ++ td "z" ++ td "w")
  ++ tr (td "a" ++ td "11727 V" ++ td "tp 1" ++ td "x" ++ td "y"
         ++ td "DVB-S2 PLS Gold 130141 multistream stream 4"
         ++ td "27500-3/4 8PSK" ++ td "z" ++ td "w").

Definition tp_11727 : Transponder :=
  mkTransponder "11727000" "27500000" "V" "3/4" "DVB-S2" "8PSK"
    None None None.

Definition tp_11727_multistream : Transponder :=
  mkTransponder "11727000" "27500000" "V" "3/4" "DVB-S2" "8PSK"
    (Some "1") (Some "130141") (Some "4").

Definition tp_12000 : Transponder :=
  mkTransponder "12000000" "27500000" "H" "3/4" "DVB-S" "Auto"
    None None None.

(** ** The rest of the downloader

    The second provider's satellite list (lines 100-128) and
    [get_satellite] (lines 130-135), with the string methods they use. *)

Module PyStr.

(** [str.isalnum] on U+0000..U+00FF: letters, digits, and the three vulgar
    fractions; [\w] of [re] adds the underscore. *)
Definition isalnum (c : ascii) : bool :=
  Py.isalpha c || Py.isdigit c || Py.between 188 190 c.

Definition isword (c : ascii) : bool := isalnum c || Ascii.eqb c "_".

Definition in_chars (set : string) (c : ascii) : bool :=
  existsb (Ascii.eqb c) (Py.chars set).

(** [s.rstrip(set)]: every trailing character that occurs in [set] goes. *)
Definition rstrip (set : string) (s : string) : string :=
  Py.str (Py.rstrip_of (in_chars set) (Py.chars s)).

(** [s.replace(old, new)] for a one-character [old]. *)
Fixpoint replace (old : ascii) (new : string) (s : string) : string :=
  match s with
  | EmptyString => ""
  | String c rest =>
      if Ascii.eqb c old then (new ++ replace old new rest)%string
      else String c (replace old new rest)
  end.

(** ["{}".format(x)] for a value that is a [str] or [None]. *)
Definition format (c : cell) : string :=
  match c with
  | Some s => s
  | None => "None"
  end.

(** [s.rsplit(sep)[-1]]: the piece after the last separator. *)
Definition last_piece (sep : ascii) (s : string) : string :=
  last (Py.split sep s) "".

End PyStr.

Definition base_url : string := "https://www.lyngsat.com/".

(** Line 101, anchored at the start: the address of the site, one or more
    word characters or dashes, then .html.  Group 0 is the whole match. *)
Definition extra_pattern : regex :=
  Group 0
    (Seq Bol
       (Seq (Lit "https://www.lyngsat.com/")
          (Seq (Plus (Class (fun c => PyStr.isword c || Ascii.eqb c "-")))
             (Lit ".html")))).

(** Lines 109 and 124: the name read off an address. *)
Definition name_of_url (url : string) : string :=
  PyStr.replace "-" " " (PyStr.rstrip ".html" (PyStr.last_piece "/" url)).

(** Lines 116-121, one cell of a row of eight: the addresses added to the
    set so far, in the order of the calls to [add], and the band. *)
Definition scan_cell (acc : list string * string) (d : string)
  : list string * string :=
  let urls :=
    match re_match false extra_pattern d with
    | Some m =>
        match group m 0 with
        | Some u => fst acc ++ [u]
        | None => fst acc
        end
    | None => fst acc
    end in
  let sat_type :=
    if (d == "C") || (d == "Ku") || (d == "CKu") then d else snd acc in
  (urls, sat_type).

(** [list(filter(None, row))]: the cells that are non-empty strings. *)
Fixpoint truthy_cells (r : row) : list string :=
  match r with
  | [] => []
  | Some s :: r' => if s == "" then truthy_cells r' else s :: truthy_cells r'
  | None :: r' => truthy_cells r'
  end.

Section LyngSatList.

(** The order in which a [set] built by the given calls to [add] is
    iterated; Python fixes it for one run of the program only. *)
Variable set_order : list string -> list string.

(** The body of the loop of lines 105-127 on a row of 5, 7 or 8 cells: the
    list [sats] and [current_pos] before and after. *)
Definition lyng_sat_list_row (st : list satellite * string) (r : row)
  : result (list satellite * string) :=
  let r_len := List.length r in
  st7 <-
    (if r_len =? 7 then
       r2 <- Py.index r 2 ;;
       pos_str <- as_str TypeError r2 ;;
       let current_pos := parse_position pos_str in
       r1 <- Py.index r 1 ;;
       s1 <- as_str AttributeError r1 ;;
       let name := name_of_url s1 in
       r5 <- Py.index r 5 ;;
       r4 <- Py.index r 4 ;;
       r3 <- Py.index r 3 ;;
       s3 <- as_str TypeError r3 ;;
       Ok (fst st
             ++ [(Some name, current_pos, r5, Some (base_url ++ s1)%string,
                  false);
                 (r4, current_pos, r5, Some (base_url ++ s3)%string, false)],
           current_pos)
     else Ok st) ;;
  if r_len =? 8 then
    let data := truthy_cells r in
    let scanned := fold_left scan_cell data ([], "") in
    d1 <- Py.index data 1 ;;
    let current_pos := parse_position d1 in
    Ok (fst st7
          ++ map (fun url =>
                    (Some (name_of_url url), current_pos,
                     Some (snd scanned), Some (base_url ++ url)%string,
                     false))
                 (set_order (fst scanned)),
        current_pos)
  else if r_len =? 5 then
    r2 <- Py.index r 2 ;;
    r3 <- Py.index r 3 ;;
    r1 <- Py.index r 1 ;;
    s1 <- as_str TypeError r1 ;;
    Ok (fst st7 ++ [(r2, snd st7, r3, Some (base_url ++ s1)%string, false)],
        snd st7)
  else Ok st7.

Fixpoint lyng_sat_list_rows (st : list satellite * string) (rows : list row)
  : result (list satellite * string) :=
  match rows with
  | [] => Ok st
  | r :: rows' =>
      st' <- lyng_sat_list_row st r ;; lyng_sat_list_rows st' rows'
  end.

(** The filter of line 105: [len(x) in (5, 7, 8)]. *)
Definition width_5_7_8 (x : row) : bool :=
  (List.length x =? 5) || (List.length x =? 7) || (List.length x =? 8).

(** Lines 101-128: the satellites of the accumulated rows, for the second
    provider.  This is what [get_satellites_list] is given as its adapter. *)
Definition lyng_sat_list (rows : list row) : result (list satellite) :=
  st <- lyng_sat_list_rows ([], "0") (filter width_5_7_8 rows) ;;
  Ok (fst st).

End LyngSatList.

(** The named tuple [Satellite] of [app.eparser], with the fields line 132
    names. *)
Record Satellite : Type := mkSatellite {
  sat_name : string;
  sat_flags : string;
  sat_position : string;
  sat_transponders : list Transponder
}.

(** Lines 130-135.  The arguments of [Satellite] are evaluated in order:
    the position, which raises on a position without characters, before the
    transponders are fetched.  An address that is [None] cannot be appended
    to the first provider's prefix; for the second provider it reaches
    [requests.get], which takes [str(url)]. *)
Definition get_satellite `{ECommons} (requests_get : string -> fetched)
  (sat : satellite) (w : world) : result Satellite * world :=
  let '(sat0, pos, _, sat3, _) := sat in
  let name := (pos ++ " " ++ PyStr.format sat0)%string in
  match get_position (PyStr.replace "." "" pos) with
  | Raise e => (Raise e, w)
  | Ok position =>
      let fetched_trs :=
        match sat3 with
        | Some sat_url => get_transponders requests_get sat_url w
        | None =>
            if is_flysat (_source (self w))
            then (Raise TypeError,
                  with_self (enter_get_transponders (self w)) w)
            else get_transponders requests_get "None" w
        end in
      match fetched_trs with
      | (Ok transponders, w') =>
          (Ok (mkSatellite name "0" position transponders), w')
      | (Raise e, w') => (Raise e, w')
      end
  end.

(** ** What a match is

    The matcher above searches; this relation says what it finds:
    [matches ic n r s c s' c'] when [r] can consume the front of [s], leaving
    [s'], and turn the groups [c] into [c']. *)

Inductive matches (ic : bool) (n : nat)
  : regex -> list ascii -> caps -> list ascii -> caps -> Prop :=
| m_eps : forall s c, matches ic n Eps s c s c
| m_lit : forall l s s' c,
    lit_match ic (Py.chars l) s = Some s' -> matches ic n (Lit l) s c s' c
| m_class : forall p a s c,
    class_test ic p a = true -> matches ic n (Class p) (a :: s) c s c
| m_seq : forall a b s c s1 c1 s2 c2,
    matches ic n a s c s1 c1 -> matches ic n b s1 c1 s2 c2 ->
    matches ic n (Seq a b) s c s2 c2
| m_alt_l : forall a b s c s' c',
    matches ic n a s c s' c' -> matches ic n (Alt a b) s c s' c'
| m_alt_r : forall a b s c s' c',
    matches ic n b s c s' c' -> matches ic n (Alt a b) s c s' c'
| m_star_stop : forall a s c, matches ic n (Star a) s c s c
| m_star_step : forall a s c s1 c1 s2 c2,
    matches ic n a s c s1 c1 -> List.length s1 < List.length s ->
    matches ic n (Star a) s1 c1 s2 c2 ->
    matches ic n (Star a) s c s2 c2
| m_group : forall i a s c s' c',
    matches ic n a s c s' c' ->
    matches ic n (Group i a) s c s'
      ((i, Py.str (firstn (List.length s - List.length s') s)) :: c')
| m_bol : forall s c, List.length s = n -> matches ic n Bol s c s c
| m_eol : forall s c,
    s = [] \/ s = ["010"%char] -> matches ic n Eol s c s c.

(** A string of decimal digits, at least one. *)
Definition decimal (s : string) : Prop :=
  s <> "" /\ Forall (fun c => Py.isdecimal c = true) (Py.chars s).

(** The groups of a pattern, each with what it encloses. *)
Fixpoint subgroups (r : regex) : list (nat * regex) :=
  match r with
  | Seq a b | Alt a b => subgroups a ++ subgroups b
  | Star a => subgroups a
  | Group i a => (i, a) :: subgroups a
  | _ => []
  end.

(** The groups every match of a pattern sets. *)
Fixpoint sure_groups (r : regex) : list nat :=
  match r with
  | Seq a b => sure_groups a ++ sure_groups b
  | Group i a => i :: sure_groups a
  | _ => []
  end.

(** The pair [(i, v)] was captured by a group [i] of [r]: what the group
    encloses matches exactly the text [v], in front of some rest. *)
Definition captured (ic : bool) (n : nat) (r : regex) (kv : nat * string)
  : Prop :=
  exists (a : regex) (rest : list ascii) (c1 c2 : caps),
    In (fst kv, a) (subgroups r)
    /\ matches ic n a (Py.chars (snd kv) ++ rest) c1 rest c2.

(** A value that ends in the three zeros of line 169. *)
Definition padded (s : string) : Prop :=
  exists v : string, s = (v ++ zeros)%string.

(** What lines 184-189 and 206 make of every transponder of the first
    provider. *)
Definition fly_sat_fields (t : Transponder) : Prop :=
  padded (frequency t) /\ padded (symbol_rate t)
  /\ (system t = "DVB-S" -> modulation t = "QPSK").

Definition no_stream (t : Transponder) : Prop :=
  fly_sat_fields t /\ is_id t = None.

Definition has_stream (t : Transponder) : Prop :=
  fly_sat_fields t /\ exists d : string, decimal d /\ is_id t = Some d.

(** A match of the stream pattern, as [findall] reports it. *)
Definition id_tuple (m : list string) : Prop :=
  exists d : string, decimal d /\ m = ["Stream"; d].

(** A row whose cells are all text: no cell is [None]. *)
Definition text_row (r : row) : Prop := Forall (fun c => c <> None) r.

(** What a row adds to the pending stream ids: the matches in its text when
    it has one cell, nothing otherwise. *)
Definition row_ids (r : row) : list (list string) :=
  match r with
  | [Some text] => findall 2 is_id_pattern text
  | _ => []
  end.

(** A one-cell row of text, or a row of no or two cells. *)
Definition marker_or_short (r : row) : Prop :=
  (exists text : string, r = [Some text])
  \/ List.length r = 0 \/ List.length r = 2.

(** Four or five decimal digits. *)
Definition four_or_five_digits (v : string) : Prop :=
  Forall (fun c => Py.isdecimal c = true) (Py.chars v)
  /\ (List.length (Py.chars v) = 4 \/ List.length (Py.chars v) = 5).

(** A digit, a slash, a digit. *)
Definition digit_slash_digit (v : string) : Prop :=
  exists a b : ascii,
    Py.isdecimal a = true /\ Py.isdecimal b = true
    /\ v = String a (String "/" (String b "")).

(** The string with its ASCII capitals turned into small letters. *)
Definition lower_str (s : string) : string :=
  Py.str (map Py.lower (Py.chars s)).

(** [None], or a string of decimal digits. *)
Definition none_or_decimal (c : cell) : Prop :=
  c = None \/ exists d : string, decimal d /\ c = Some d.

(** What the three patterns of lines 214-216 make of every transponder of
    the second provider. *)
Definition lyng_sat_fields (t : Transponder) : Prop :=
  (exists v : string,
      four_or_five_digits v /\ frequency t = (v ++ zeros)%string)
  /\ (exists v : string,
         four_or_five_digits v /\ symbol_rate t = (v ++ zeros)%string)
  /\ In (polarization t) ["R"; "L"; "H"; "V"]
  /\ digit_slash_digit (fec_inner t)
  /\ In (lower_str (system t)) ["dvb-s"; "dvb-s2"]
  /\ none_or_decimal (pls_code t)
  /\ none_or_decimal (is_id t).

(** A cell of a table row as it is written: [<td>] or [<th>], with the
    text nodes between its tags. *)
Definition cell_events (header : bool) (texts : list string) : list event :=
  let tag := if header then "th" else "td" in
  StartTag tag [] :: map Data texts ++ [EndTag tag].

(** The text the tokenizer makes of the text nodes of one cell (lines 55
    and 64). *)
Definition cell_text (separator : string) (texts : list string) : cell :=
  Some (Py.strip (Py.join separator (map Py.strip texts))).

(** [<tr>], the cells, [</tr>]. *)
Definition row_events (cells : list (bool * list string)) : list event :=
  tr (List.concat (map (fun c => cell_events (fst c) (snd c)) cells)).

Definition is_end_tr (ev : event) : bool :=
  match ev with
  | EndTag tag => tag == "tr"
  | _ => false
  end.

(** An event that the tokenizer lets pass when it is outside a row: text,
    or a tag that is none of its own. *)
Definition passing (ev : event) : bool :=
  match ev with
  | StartTag tag _ =>
      negb ((tag == "td") || (tag == "tr") || (tag == "a"))
  | Data _ => true
  | EndTag tag =>
      negb ((tag == "td") || (tag == "th") || (tag == "tr"))
  end.

(** A satellite tuple of the first provider as the filter of line 99
    leaves it: a name, a category and an address that are non-empty text,
    a position made of digits, letters and points, and the flag [False]. *)
Definition well_formed_satellite (t : satellite) : Prop :=
  let '(name, pos, category, url, flag) := t in
  truthy name = true /\ truthy category = true /\ truthy url = true
  /\ flag = false
  /\ Forall (fun c => position_char c = true) (Py.chars pos).

(** The address [get_transponders] asks for (line 148). *)
Definition detail_address (source : SatelliteSource) (sat_url : string)
  : string :=
  if is_flysat source then ("https://www.flysat.com/" ++ sat_url)%string
  else sat_url.

(** A network that serves one page for one address and cannot be reached
    for any other. *)
Definition only_page (url : string) (page : list event) : string -> fetched :=
  fun u => if u == url then Response "OK" page else Fails ConnectionError.

(** The components of a satellite tuple. *)
Definition tuple_name (t : satellite) : cell := fst (fst (fst (fst t))).
Definition tuple_position (t : satellite) : string :=
  snd (fst (fst (fst t))).
Definition tuple_category (t : satellite) : cell := snd (fst (fst t)).
Definition tuple_url (t : satellite) : cell := snd (fst t).
Definition tuple_flag (t : satellite) : bool := snd t.

(** What line 127 makes of a row of five cells at the position [pos]. *)
Definition plain_tuple (pos : string) (r : row) : satellite :=
  (nth 2 r None, pos, nth 3 r None,
   Some (base_url ++ match nth 1 r None with Some s => s | None => "" end)
        %string,
   false).

(** A set iterates over its members only. *)
Definition members_only (set_order : list string -> list string) : Prop :=
  forall (added : list string) (x : string),
    In x (set_order added) -> In x added.

(** A group row and two plain rows of the second provider's list, as the
    tokenizer leaves them. *)
Definition group_row : row :=
  [Some "1"; Some "Thaicom-4.html"; Some "78.5 E"; Some "Thaicom-6.html";
   Some "Thaicom 6"; Some "CKu"; Some "x"].

Definition plain_row (url name band : string) : row :=
  [Some "1"; Some url; Some name; Some band; Some "x"].

(** A row of eight cells holding two addresses of the site, one of them
    twice. *)
Definition extra_row : row :=
  [Some "1"; Some "105.5 E"; Some "https://www.lyngsat.com/AsiaSat-7.html";
   Some "Ku"; Some "https://www.lyngsat.com/AsiaSat-7.html"; Some "";
   Some "https://www.lyngsat.com/AsiaSat-8.html"; Some "x"].

(** The order a list is iterated in, once duplicates are dropped. *)
Definition first_seen (added : list string) : list string :=
  nodup string_dec added.

(** An address behind the address of the site, and the flag [False]. *)
Definition on_site (t : satellite) : Prop :=
  tuple_flag t = false
  /\ exists u : string, tuple_url t = Some (base_url ++ u)%string.

(** What lines 112-125 make of a satellite read off a row of eight cells:
    its address is the address of the site followed by a whole address of
    the site, and its category is a band or empty. *)
Definition from_extra_row (t : satellite) : Prop :=
  (exists word : string,
      tuple_url t
      = Some (base_url ++ base_url ++ word ++ ".html")%string
      /\ tuple_name t
         = Some (name_of_url (base_url ++ word ++ ".html")%string))
  /\ In (tuple_category t) [Some ""; Some "C"; Some "Ku"; Some "CKu"]
  /\ tuple_flag t = false.

(** Whether the key of line 159 of an element is the number [k]. *)
Definition has_key {A : Type} (key : A -> result Z) (k : Z) (x : A) : bool :=
  match key x with
  | Ok k' => (k' =? k)%Z
  | Raise _ => false
  end.

(** An event other than an anchor whose first attribute is missing or has
    no value. *)
Definition valued_anchor (ev : event) : bool :=
  match ev with
  | StartTag tag attrs =>
      if tag == "a" then
        match attrs with
        | (_, Some _) :: _ => true
        | _ => false
        end
      else true
  | _ => true
  end.

(** The document a source page contributes to the rows: its text when it
    is answered with the reason OK, nothing otherwise. *)
Definition page_of (requests_get : string -> fetched) (src : string)
  : list event :=
  match requests_get src with
  | Response reason text => if reason == "OK" then text else []
  | Fails _ => []
  end.

(** The reasons other than OK the source pages are answered with, in the
    order of the pages. *)
Definition reasons_of (requests_get : string -> fetched)
  (srcs : list string) : list string :=
  flat_map (fun src =>
              match requests_get src with
              | Response reason _ => if reason == "OK" then [] else [reason]
              | Fails _ => []
              end) srcs.

(** Every page of the list is answered. *)
Definition answered (requests_get : string -> fetched)
  (srcs : list string) : Prop :=
  Forall (fun src => exists (reason : string) (text : list event),
              requests_get src = Response reason text) srcs.

(** A network that answers one address with a reason and a text, and every
    other address with OK and another text. *)
Definition answering (url reason : string) (text other : list event)
  : string -> fetched :=
  fun u => if u == url then Response reason text else Response "OK" other.

(** A row of eight cells with fewer than two non-empty cells: line 121
    finds no [data[1]] in it. *)
Definition short_extra_row (r : row) : bool :=
  (List.length r =? 8) && (List.length (truthy_cells r) <? 2).

(** A match of the PLS pattern, as [findall] reports it: the prefix, the
    name of the mode, and the code or the empty string. *)
Definition pls_tuple (m : list string) : Prop :=
  exists name code : string,
    m = ["PLS:"; name; code]
    /\ In name ["Root"; "Gold"; "Combo"]
    /\ (code = "" \/ decimal code).

(** What lines 191-197 make of the PLS fields of a transponder of the
    first provider: both [None], or the mode looked up under one of the
    three names and a code that is empty or decimal. *)
Definition fly_sat_pls `{ECommons} (t : Transponder) : Prop :=
  (pls_mode t = None /\ pls_code t = None)
  \/ (exists name code : string,
         In name ["Root"; "Gold"; "Combo"]
         /\ (code = "" \/ decimal code)
         /\ pls_mode t = dict_get pls_modes name
         /\ pls_code t = Some code).

(** A data row of the first provider that names a mode and a code. *)
Definition row_pls : row :=
  [Some "1"; Some "11727 V DVB-S2/8PSK PLS: Gold 8"; Some "27500 3/4"].

(** * Properties *)

(** ** The matcher *)

(** [findall] never runs short of fuel: any amount above the length of
    what is left to scan gives the same matches. *)
Lemma findall_from_fuel (g n : nat) (r : regex) (fuel1 fuel2 : nat)
  (s : list ascii) :
  List.length s < fuel1 -> List.length s < fuel2 ->
  findall_from fuel1 g n r s = findall_from fuel2 g n r s.
Proof.
  revert fuel2 s.
  induction fuel1 as [|fuel1 IH]; intros fuel2 s H1 H2; [lia|].
  destruct fuel2 as [|fuel2]; [lia|]. simpl.
  destruct (attempt false n r s) as [[s' c]|].
  - f_equal. destruct (List.length s' <? List.length s) eqn:Hlt.
    + apply Nat.ltb_lt in Hlt. apply IH; lia.
    + destruct s as [|a s1]; [reflexivity|]. simpl in *. apply IH; lia.
  - destruct s as [|a s1]; [reflexivity|]. simpl in *. apply IH; lia.
Qed.

(** ** Strings and lists *)

Lemma chars_str (l : list ascii) : Py.chars (Py.str l) = l.
Proof. apply list_ascii_of_string_of_list_ascii. Qed.

Lemma str_chars (s : string) : Py.str (Py.chars s) = s.
Proof. apply string_of_list_ascii_of_string. Qed.

Lemma chars_append (s t : string) :
  Py.chars (s ++ t) = Py.chars s ++ Py.chars t.
Proof.
  induction s as [|c s IH]; simpl; [reflexivity|].
  unfold Py.chars in *. simpl. now rewrite IH.
Qed.

Lemma index_end_last {A : Type} (l : list A) (x : A) :
  Py.index_end (l ++ [x]) 1 = Ok x.
Proof.
  unfold Py.index_end, Py.index.
  rewrite length_app. simpl.
  replace (List.length l + 1 <? 1) with false
    by (symmetry; apply Nat.ltb_ge; lia).
  replace (List.length l + 1 - 1) with (List.length l) by lia.
  rewrite nth_error_app2 by lia.
  now rewrite Nat.sub_diag.
Qed.

Lemma parse_position_filter (s : string) :
  Py.chars (parse_position s) = filter position_char (Py.chars s).
Proof.
  induction s as [|c s IH]; [reflexivity|].
  unfold Py.chars in *. simpl. unfold position_char at 1.
  destruct (Py.isdigit c || Py.isalpha c || Ascii.eqb c "."); simpl;
    now rewrite IH.
Qed.

Lemma get_position_snoc (body : string) (c : ascii) :
  get_position (body ++ String c "")
  = Ok ((if Ascii.eqb c "W" then "-" else "") ++ body)%string.
Proof.
  unfold get_position.
  rewrite chars_append. change (Py.chars (String c "")) with [c].
  rewrite index_end_last. simpl.
  rewrite removelast_last, str_chars. reflexivity.
Qed.

(** C8.  [parse_position] turns 13.0, the degree sign (U+00B0, character
    176), E into 13.0E;
    [get_position] turns 13.0E into 13.0 and 1.0W into -1.0.  In general
    [parse_position] keeps, in order, exactly the characters of its input
    that are digits, letters or the decimal point, and [get_position], on a
    string that ends in a character [c], drops [c] and puts a minus sign in
    front exactly when [c] is W. *)
Theorem parse_position_get_position_spec :
  parse_position ("13.0" ++ String "176" "E") = "13.0E"
  /\ get_position "13.0E" = Ok "13.0"
  /\ get_position "1.0W" = Ok "-1.0"
  /\ (forall s : string,
         Py.chars (parse_position s) = filter position_char (Py.chars s))
  /\ (forall (body : string) (c : ascii),
         get_position (body ++ String c "")
         = Ok ((if Ascii.eqb c "W" then "-" else "") ++ body)%string).
Proof.
  split; [reflexivity|].
  split; [reflexivity|].
  split; [reflexivity|].
  split; [exact parse_position_filter | exact get_position_snoc].
Qed.

(** ** The tokenizer *)

Lemma feed_app (d1 d2 : list event) (p : SatellitesParser) :
  feed (d1 ++ d2) p
  = match feed d1 p with
    | (Ok _, p1) => feed d2 p1
    | (Raise e, p1) => (Raise e, p1)
    end.
Proof.
  revert p. induction d1 as [|ev d1 IH]; intros p; simpl; [reflexivity|].
  destruct (handle ev p) as [p'|e]; [apply IH | reflexivity].
Qed.

(** C9, as the code has it.  An anchor start tag with at least one
    attribute appends one cell to the row being accumulated, at its current
    end: the value of the anchor's first attribute, whatever its name and
    whether or not a row is open.  The anchor's end tag changes nothing. *)
Theorem anchor_appends_first_attribute :
  forall (name : string) (v : cell) (rest : list (string * cell))
         (p : SatellitesParser),
    handle_starttag "a" ((name, v) :: rest) p
    = Ok (set_current_row (_current_row p ++ [v]) p)
    /\ handle_endtag "a" p = p.
Proof.
  intros name v rest p. split; reflexivity.
Qed.

(** C9 as stated fails: inside a row, an anchor whose first attribute is
    not href gives a cell that is not the href; outside any row, an anchor
    still adds a cell. *)
Lemma anchor_cell_is_not_always_href :
  handle_starttag "a" [("class", Some "x"); ("href", Some "y")]
    (set_is_th true (init FLYSAT false " "))
  <> Ok (set_current_row
           [href_attribute [("class", Some "x"); ("href", Some "y")]]
           (set_is_th true (init FLYSAT false " ")))
  /\ handle_starttag "a" [("href", Some "y")] (init FLYSAT false " ")
     <> Ok (init FLYSAT false " ").
Proof.
  split; vm_compute; discriminate.
Qed.

Lemma fetch_sources_serving (page : string -> list event)
  (srcs : list string) (w : world) :
  fetch_sources (serving page) srcs w
  = match feed (List.concat (map page srcs)) (self w) with
    | (Ok _, p) => (Ok None, with_self p w)
    | (Raise e, p) => (Raise e, with_self p w)
    end.
Proof.
  revert w. induction srcs as [|src srcs IH]; intros w; simpl.
  - destruct w; reflexivity.
  - unfold serving at 1. simpl. rewrite feed_app.
    destruct (feed (page src) (self w)) as [[u|e] p]; [|reflexivity].
    rewrite IH. simpl.
    destruct (feed (List.concat (map page srcs)) p) as [[u'|e'] p'];
      reflexivity.
Qed.

(** C6, as the code has it.  On entry, [get_satellites_list] and
    [get_transponders] empty the rows buffer and leave the two flags, the
    current cell and the current row as the previous call left them.
    Within one call nothing is reset between documents: reading the pages
    one after the other is feeding their concatenation. *)
Theorem entry_clears_rows_only :
  (forall (source : SatelliteSource) (p : SatellitesParser),
      _rows (enter_get_satellites_list source p) = []
      /\ _is_td (enter_get_satellites_list source p) = _is_td p
      /\ _is_th (enter_get_satellites_list source p) = _is_th p
      /\ _current_cell (enter_get_satellites_list source p) = _current_cell p
      /\ _current_row (enter_get_satellites_list source p) = _current_row p)
  /\ (forall p : SatellitesParser,
         _rows (enter_get_transponders p) = []
         /\ _is_td (enter_get_transponders p) = _is_td p
         /\ _is_th (enter_get_transponders p) = _is_th p
         /\ _current_cell (enter_get_transponders p) = _current_cell p
         /\ _current_row (enter_get_transponders p) = _current_row p)
  /\ (forall (page : string -> list event) (srcs : list string) (w : world),
         fetch_sources (serving page) srcs w
         = match feed (List.concat (map page srcs)) (self w) with
           | (Ok _, p) => (Ok None, with_self p w)
           | (Raise e, p) => (Raise e, with_self p w)
           end).
Proof.
  split; [|split].
  - intros source p. repeat split.
  - intros p. repeat split.
  - exact fetch_sources_serving.
Qed.

(** C6 as stated fails: after a call whose document ended inside a cell,
    the next call of either function starts with the flags up and the
    current cell filled. *)
Lemma tokenizer_not_reset_on_entry :
  ~ tokenizer_reset
      (enter_get_transponders
         (self (snd (get_transponders (H := sample_tables)
                       (always (Response "OK" unfinished_page))
                       "sat.php" (fresh FLYSAT)))))
  /\ ~ tokenizer_reset
         (enter_get_satellites_list FLYSAT
            (self (snd (get_transponders (H := sample_tables)
                          (always (Response "OK" unfinished_page))
                          "sat.php" (fresh FLYSAT))))).
Proof.
  split; intros [Htd _]; vm_compute in Htd; discriminate.
Qed.

(** ** Failures *)

(** C2.  The core does raise: an anchor without attributes makes
    [handle_starttag] fail with [IndexError], which [feed] and then
    [get_satellites_list] and [get_transponders] pass on to the caller; and
    a detail page that opens with a stream marker makes the first
    provider's extractor pop from an empty list; and [get_transponders]
    lets the connection error of [requests.get] through. *)
Theorem core_operations_raise :
  (forall p : SatellitesParser, handle_starttag "a" [] p = Raise IndexError)
  /\ (forall adapter : list row -> result (list satellite),
         fst (get_satellites_list (always (Response "OK" bare_anchor_page))
                adapter FLYSAT (fresh FLYSAT))
         = Raise IndexError)
  /\ fst (get_transponders (H := sample_tables)
            (always (Response "OK" bare_anchor_page)) "sat.php"
            (fresh FLYSAT))
     = Raise IndexError
  /\ fst (get_transponders (H := sample_tables)
            (always (Response "OK" stream_first_page)) "sat.php"
            (fresh FLYSAT))
     = Raise IndexError
  /\ fst (get_transponders (H := sample_tables)
            (always (Fails ConnectionError)) "sat.php" (fresh FLYSAT))
     = Raise ConnectionError.
Proof.
  split; [|split; [|split; [|split]]].
  - intros p. reflexivity.
  - intros adapter. reflexivity.
  - reflexivity.
  - vm_compute. reflexivity.
  - reflexivity.
Qed.

(** C3.  A connection failure on the detail page is not caught:
    [get_transponders] raises [ConnectionError] and logs nothing.  On a
    reason other than OK it returns the empty list, and logs nothing
    either. *)
Theorem get_transponders_connection_failure :
  forall (tables : ECommons) (sat_url : string) (w : world),
    get_transponders (always (Fails ConnectionError)) sat_url w
    = (Raise ConnectionError,
       mkWorld (enter_get_transponders (self w)) (logged w))
    /\ (forall text : list event,
           get_transponders (always (Response "Not Found" text)) sat_url w
           = (Ok [], mkWorld (enter_get_transponders (self w)) (logged w))).
Proof.
  intros tables sat_url w. split; [reflexivity | intros text; reflexivity].
Qed.

(** ** The satellite list *)

Lemma handle_source (ev : event) (p p' : SatellitesParser) :
  handle ev p = Ok p' -> _source p' = _source p.
Proof.
  destruct ev as [tag attrs|data|tag]; simpl.
  - unfold handle_starttag.
    destruct (tag == "td"), (tag == "tr"), (tag == "a");
      try (destruct attrs as [|[name v] rest]; simpl; [discriminate|]);
      intros Heq; injection Heq as <-; reflexivity.
  - intros Heq; injection Heq as <-. unfold handle_data.
    destruct (_is_td p || _is_th p); reflexivity.
  - intros Heq; injection Heq as <-. unfold handle_endtag.
    destruct (tag == "td"), (tag == "th"), (tag == "tr"); reflexivity.
Qed.

Lemma feed_source (doc : list event) (p : SatellitesParser) :
  _source (snd (feed doc p)) = _source p.
Proof.
  revert p. induction doc as [|ev doc IH]; intros p; simpl; [reflexivity|].
  destruct (handle ev p) as [p'|e] eqn:Hev; [|reflexivity].
  rewrite IH. eapply handle_source; eassumption.
Qed.

Lemma truthy_some (c : cell) :
  truthy c = true <-> exists s : string, c = Some s /\ s <> "".
Proof.
  destruct c as [s|]; simpl.
  - rewrite negb_true_iff. split.
    + intros Hne. exists s. split; [reflexivity|].
      intros ->. discriminate.
    + intros (s' & [= <-] & Hne). now apply String.eqb_neq.
  - split; [discriminate | intros (s & Habs & _); discriminate].
Qed.

Lemma five_full_cells_spec (r : row) :
  five_full_cells r = true
  <-> (List.length r = 5
       /\ forall c : cell, In c r -> exists s : string, c = Some s /\ s <> "").
Proof.
  unfold five_full_cells. rewrite andb_true_iff, forallb_forall, Nat.eqb_eq.
  split; intros [H1 H2].
  - split; [exact H2|]. intros c Hc. apply truthy_some. now apply H1.
  - split; [|exact H1]. intros c Hc. apply truthy_some. now apply H2.
Qed.

Lemma get_sat_kept (r : row) :
  five_full_cells r = true -> get_sat r = Ok (flysat_tuple r).
Proof.
  intros Hr. apply five_full_cells_spec in Hr as [Hlen Hcells].
  destruct r as [|c0 [|c1 [|c2 [|c3 [|c4 [|c5 r]]]]]]; try discriminate.
  destruct (Hcells c2) as (s2 & -> & _); [simpl; tauto|].
  reflexivity.
Qed.

Lemma mapM_get_sat_kept (rows : list row) :
  mapM get_sat (filter five_full_cells rows)
  = Ok (map flysat_tuple (filter five_full_cells rows)).
Proof.
  induction rows as [|r rows IH]; simpl; [reflexivity|].
  destruct (five_full_cells r) eqn:Hr; [|exact IH].
  simpl. rewrite (get_sat_kept r Hr), IH. reflexivity.
Qed.

(** C7.  For the first provider, once its page is read,
    [get_satellites_list] returns the accumulated rows that have exactly
    five cells, none of them empty, each turned into the tuple
    [(r[1], parse_position(r[2]), r[3], r[0], False)], in the order of the
    rows.  (With no row at all the function returns [None].) *)
Theorem flysat_satellites_list :
  forall (requests_get : string -> fetched)
         (adapter : list row -> result (list satellite))
         (w : world) (text : list event) (p' : SatellitesParser),
    requests_get "https://www.flysat.com/satlist.php" = Response "OK" text ->
    feed text (enter_get_satellites_list FLYSAT (self w)) = (Ok tt, p') ->
    fst (get_satellites_list requests_get adapter FLYSAT w)
    = Ok (match _rows p' with
          | [] => None
          | _ :: _ =>
              Some (map flysat_tuple (filter five_full_cells (_rows p')))
          end)
    /\ (forall r : row,
           five_full_cells r = true
           <-> (List.length r = 5
                /\ forall c : cell,
                    In c r -> exists s : string, c = Some s /\ s <> "")).
Proof.
  intros requests_get adapter w text p' Hget Hfeed.
  split; [|exact five_full_cells_spec].
  unfold get_satellites_list. cbn [get_sources _source
    enter_get_satellites_list set_source fetch_sources].
  rewrite Hget. cbn [String.eqb Ascii.eqb Bool.eqb self with_self].
  change (set_source FLYSAT (set_rows [] (reset (self w))))
    with (enter_get_satellites_list FLYSAT (self w)).
  rewrite Hfeed. cbn [fst self with_self].
  unfold satellites_of_rows.
  assert (Hsrc : _source p' = FLYSAT).
  { change p' with (snd (Ok tt, p')). rewrite <- Hfeed, feed_source.
    reflexivity. }
  rewrite Hsrc.
  destruct (_rows p') as [|r rows] eqn:Hrows; [reflexivity|].
  rewrite mapM_get_sat_kept. reflexivity.
Qed.

Lemma flysat_satellites_list_witness :
  fst (get_satellites_list (always (Response "OK" sample_list_page))
         (fun _ => Ok []) FLYSAT (fresh FLYSAT))
  = Ok (Some [(Some "Hot Bird", "13.0E", Some "Ku", Some "hotbird.php", false);
              (Some "Thor", "1.0W", Some "Ku", Some "thor.php", false)]).
Proof.
  pose (fed := feed sample_list_page
                 (enter_get_satellites_list FLYSAT (self (fresh FLYSAT)))).
  assert (Hfed : feed sample_list_page
                   (enter_get_satellites_list FLYSAT (self (fresh FLYSAT)))
                 = fed) by reflexivity.
  vm_compute in fed.
  rewrite (proj1 (flysat_satellites_list
                    (always (Response "OK" sample_list_page))
                    (fun _ => Ok []) (fresh FLYSAT) eq_refl Hfed)).
  vm_compute. reflexivity.
Defined.

(** C10.  When the loop over the source pages ends with no row
    accumulated, [get_satellites_list] returns [None], not a list. *)
Theorem no_rows_returns_none :
  forall (requests_get : string -> fetched)
         (adapter : list row -> result (list satellite))
         (source : SatelliteSource) (w w' : world),
    fetch_sources requests_get (get_sources source)
      (with_self (enter_get_satellites_list source (self w)) w)
    = (Ok None, w') ->
    _rows (self w') = [] ->
    get_satellites_list requests_get adapter source w = (Ok None, w').
Proof.
  intros requests_get adapter source w w' Hloop Hrows.
  unfold get_satellites_list.
  change (_source (enter_get_satellites_list source (self w))) with source.
  rewrite Hloop. unfold satellites_of_rows. rewrite Hrows. reflexivity.
Qed.

Lemma no_rows_returns_none_witness :
  get_satellites_list (always (Response "Not Found" [])) (fun _ => Ok [])
    LYNGSAT (fresh LYNGSAT)
  = (Ok None,
     mkWorld (init LYNGSAT false " ")
       ["Not Found"; "Not Found"; "Not Found"; "Not Found"]).
Proof.
  apply no_rows_returns_none; reflexivity.
Defined.

(** ** Sorting by key *)

Section SortKeyed.
Context {A : Type}.

Lemma insert_keyed_perm (k : Z) (x : A) (l : list (Z * A)) :
  Permutation (insert_keyed k x l) ((k, x) :: l).
Proof.
  induction l as [|[k' y] l IH]; simpl; [reflexivity|].
  destruct (k <=? k')%Z; [reflexivity|].
  rewrite IH. apply perm_swap.
Qed.

Lemma sort_keyed_perm (l : list (Z * A)) : Permutation (sort_keyed l) l.
Proof.
  induction l as [|[k x] l IH]; simpl; [reflexivity|].
  rewrite insert_keyed_perm. now constructor.
Qed.

Lemma insert_keyed_sorted (k : Z) (x : A) (l : list (Z * A)) :
  StronglySorted key_le l -> StronglySorted key_le (insert_keyed k x l).
Proof.
  induction l as [|[k' y] l IH]; intros Hs; simpl.
  - constructor; constructor.
  - inversion Hs as [|? ? Hs' Hall]; subst.
    destruct (k <=? k')%Z eqn:Hle.
    + apply Z.leb_le in Hle. constructor; [exact Hs|].
      constructor; [exact Hle|].
      eapply Forall_impl; [|exact Hall].
      intros [k2 z] Hk2. unfold key_le in *. simpl in *. lia.
    + apply Z.leb_gt in Hle. constructor; [now apply IH|].
      rewrite (insert_keyed_perm k x l).
      constructor; [unfold key_le; simpl; lia | exact Hall].
Qed.

Lemma sort_keyed_sorted (l : list (Z * A)) :
  StronglySorted key_le (sort_keyed l).
Proof.
  induction l as [|[k x] l IH]; simpl; [constructor|].
  now apply insert_keyed_sorted.
Qed.

Lemma sorted_keys (l : list (Z * A)) :
  StronglySorted key_le l -> StronglySorted Z.le (map fst l).
Proof.
  induction 1 as [|a l Hs IH Hall]; simpl; constructor; [exact IH|].
  rewrite Forall_map. exact Hall.
Qed.

Variable key : A -> result Z.

Lemma combine_keyed (l : list A) (keys : list Z) :
  mapM key l = Ok keys ->
  Forall (keyed key) (combine keys l) /\ map snd (combine keys l) = l.
Proof.
  revert keys. induction l as [|x l IH]; intros keys; simpl.
  - intros [= <-]. split; [constructor | reflexivity].
  - destruct (key x) as [k|e] eqn:Hk; simpl; [|discriminate].
    destruct (mapM key l) as [ks|e] eqn:Hks; simpl; [|discriminate].
    intros [= <-]. destruct (IH ks eq_refl) as [Hall Hsnd]. simpl. split.
    + constructor; [exact Hk | exact Hall].
    + now rewrite Hsnd.
Qed.

Lemma keyed_mapM (l : list (Z * A)) :
  Forall (keyed key) l -> mapM key (map snd l) = Ok (map fst l).
Proof.
  induction 1 as [|[k x] l Hk Hall IH]; simpl; [reflexivity|].
  unfold keyed in Hk. simpl in Hk. rewrite Hk, IH. reflexivity.
Qed.

(** What [sorted] returns: a permutation of its argument whose keys all
    evaluate and are in ascending order. *)
Lemma sorted_spec (l l' : list A) :
  sorted key l = Ok l' ->
  Permutation l' l
  /\ exists keys : list Z,
      mapM key l' = Ok keys /\ StronglySorted Z.le keys.
Proof.
  unfold sorted. destruct (mapM key l) as [keys|e] eqn:Hkeys; simpl;
    [|discriminate].
  intros [= <-]. destruct (combine_keyed l Hkeys) as [Hall Hsnd]. split.
  - rewrite <- Hsnd at 2. apply Permutation_map, sort_keyed_perm.
  - exists (map fst (sort_keyed (combine keys l))). split.
    + apply keyed_mapM.
      eapply Permutation_Forall; [|exact Hall].
      symmetry. apply sort_keyed_perm.
    + apply sorted_keys, sort_keyed_sorted.
Qed.

(** [sorted] raises only when a key does. *)
Lemma sorted_total (l : list A) :
  Forall (fun x => exists k : Z, key x = Ok k) l ->
  exists l' : list A, sorted key l = Ok l'.
Proof.
  intros Hall. unfold sorted.
  assert (Hkeys : exists keys, mapM key l = Ok keys).
  { induction Hall as [|x l [k Hk] Hall [ks IH]]; simpl.
    - now exists [].
    - rewrite Hk, IH. simpl. now exists (k :: ks). }
  destruct Hkeys as [keys ->]. simpl. eauto.
Qed.
End SortKeyed.

(** ** Validation *)

Lemma mem_In (s : string) (l : list string) : mem s l = true -> In s l.
Proof.
  unfold mem. rewrite existsb_exists. intros (x & Hin & Heq).
  apply String.eqb_eq in Heq. now subst.
Qed.

Lemma positive_int_spec (s : string) :
  positive_int s = true -> exists z : Z, Py.int s = Ok z /\ (0 < z)%Z.
Proof.
  unfold positive_int. destruct (Py.int s) as [z|e]; [|discriminate].
  intros Hz. exists z. split; [reflexivity | now apply Z.ltb_lt].
Qed.

(** What validation, as the design document gives it, guarantees. *)
Lemma is_transponder_valid_spec `{ECommons} (t : Transponder) :
  is_transponder_valid t = true ->
  (exists f : Z, Py.int (frequency t) = Ok f /\ (0 < f)%Z)
  /\ (exists s : Z, Py.int (symbol_rate t) = Ok s /\ (0 < s)%Z)
  /\ In (polarization t) ["H"; "V"; "L"; "R"]
  /\ In (fec_inner t) FEC
  /\ In (system t) ["DVB-S"; "DVB-S2"].
Proof.
  unfold is_transponder_valid. rewrite !andb_true_iff.
  intros [[[[Hf Hs] Hp] Hfec] Hsys].
  split; [now apply positive_int_spec|].
  split; [now apply positive_int_spec|].
  split; [exact (mem_In _ POLARIZATION Hp)|].
  split; [exact (mem_In _ FEC Hfec) | exact (mem_In _ SYSTEM Hsys)].
Qed.

Lemma pop_spec {A : Type} (l before : list A) (x : A) :
  pop l = Ok (x, before) -> l = before ++ [x].
Proof.
  unfold pop. destruct (rev l) as [|y l'] eqn:Hrev; [discriminate|].
  intros [= <- <-]. rewrite <- (rev_involutive l), Hrev. reflexivity.
Qed.

Lemma pop_snoc {A : Type} (before : list A) (x : A) :
  pop (before ++ [x]) = Ok (x, before).
Proof.
  unfold pop. rewrite rev_app_distr. simpl. now rewrite rev_involutive.
Qed.

Lemma stream_copies_valid `{ECommons} (t : Transponder)
  (ids : list (list string)) : all_valid (stream_copies t ids).
Proof.
  unfold all_valid, stream_copies. apply Forall_forall.
  intros x Hx. apply filter_In in Hx. tauto.
Qed.

(** Takes the next [match] of a hypothesis apart. *)
Ltac break_match H :=
  match type of H with
  | context [match ?x with _ => _ end] => destruct x eqn:?
  end.

Ltac break_result H :=
  repeat (first [discriminate H | break_match H]).

(** One row of the first provider keeps both lists valid. *)
Lemma fly_sat_row_valid `{ECommons} (st st' : fly_sat_state) (r : row) :
  all_valid (trs st) -> all_valid (n_trs st) ->
  fly_sat_row st r = Ok st' ->
  all_valid (trs st') /\ all_valid (n_trs st').
Proof.
  intros Htrs Hn Hrow. unfold fly_sat_row, bind in Hrow.
  break_result Hrow;
    injection Hrow as <-; simpl; split; try assumption;
    try (apply Forall_app; split;
         [assumption
         | first [apply stream_copies_valid
                 | constructor; [assumption | constructor]]]).
  match goal with
  | Hpop : pop (trs st) = Ok ?popped |- _ =>
      destruct popped as [x before]; apply pop_spec in Hpop; simpl;
      unfold all_valid in Htrs; rewrite Hpop in Htrs;
      apply Forall_app in Htrs; tauto
  end.
Qed.

Lemma fly_sat_rows_valid `{ECommons} (rows : list row)
  (st st' : fly_sat_state) :
  all_valid (trs st) -> all_valid (n_trs st) ->
  fly_sat_rows st rows = Ok st' ->
  all_valid (trs st') /\ all_valid (n_trs st').
Proof.
  revert st. induction rows as [|r rows IH]; intros st Htrs Hn; simpl.
  - intros [= <-]. now split.
  - destruct (fly_sat_row st r) as [st1|e] eqn:Hrow; simpl; [|discriminate].
    destruct (fly_sat_row_valid st r Htrs Hn Hrow) as [Htrs1 Hn1].
    now apply IH.
Qed.

Lemma get_transponders_for_fly_sat_valid `{ECommons} (rows : list row)
  (trs0 l : list Transponder) :
  all_valid trs0 ->
  get_transponders_for_fly_sat rows trs0 = Ok l -> all_valid l.
Proof.
  intros Hvalid. unfold get_transponders_for_fly_sat.
  destruct rows as [|r rows]; [now intros [= <-]|].
  destruct (fly_sat_rows (mkFly trs0 [] []) (r :: rows)) as [st|e] eqn:Hrows;
    simpl; [|discriminate].
  intros [= <-].
  destruct (fly_sat_rows_valid (r :: rows) (mkFly trs0 [] []) Hvalid
              (Forall_nil _) Hrows) as [Htrs Hn].
  apply Forall_app. now split.
Qed.

Lemma lyng_sat_row_valid `{ECommons} (l l' : list Transponder) (r : row) :
  all_valid l -> lyng_sat_row l r = Ok l' -> all_valid l'.
Proof.
  intros Hvalid Hrow. unfold lyng_sat_row, bind in Hrow.
  break_result Hrow; injection Hrow as <-; try assumption;
    (apply Forall_app; split;
     [assumption | constructor; [assumption | constructor]]).
Qed.

Lemma get_transponders_for_lyng_sat_valid `{ECommons} (rows : list row)
  (trs0 l : list Transponder) :
  all_valid trs0 ->
  get_transponders_for_lyng_sat rows trs0 = Ok l -> all_valid l.
Proof.
  unfold get_transponders_for_lyng_sat.
  generalize (filter (fun x => 8 <? List.length x) rows) as rs.
  intros rs. revert trs0. induction rs as [|r rs IH]; intros trs0 Hvalid; simpl.
  - now intros [= <-].
  - destruct (lyng_sat_row trs0 r) as [l1|e] eqn:Hrow; simpl; [|discriminate].
    apply IH. eapply lyng_sat_row_valid; eassumption.
Qed.

(** What [get_transponders] returns is some list of validated transponders,
    sorted. *)
Lemma get_transponders_inv `{ECommons} (requests_get : string -> fetched)
  (sat_url : string) (w : world) (l : list Transponder) :
  fst (get_transponders requests_get sat_url w) = Ok l ->
  exists extracted : list Transponder,
    all_valid extracted /\ sorted int_frequency extracted = Ok l.
Proof.
  unfold get_transponders.
  destruct (requests_get _) as [e|reason text]; [discriminate|].
  destruct (reason == "OK").
  - destruct (feed text _) as [[u|e] p']; [|discriminate].
    cbn [fst]. unfold bind.
    destruct (_source p');
      match goal with
      | |- context [match ?x with _ => _ end] => destruct x as [ex|e] eqn:Hex
      end; try discriminate; intros Hsorted; exists ex; split; try assumption.
    + eapply get_transponders_for_fly_sat_valid; [constructor | eassumption].
    + eapply get_transponders_for_lyng_sat_valid; [constructor | eassumption].
  - cbn [fst]. intros Hsorted. exists []. split; [constructor | assumption].
Qed.

(** C4.  Whatever the provider and the rows, every transponder that
    [get_transponders] returns passed validation: its frequency and its
    symbol rate are strictly positive integers (so a symbol rate of 0 never
    appears), its polarization is one of H, V, L, R, its FEC is one of the
    fixed fractions and its system is DVB-S or DVB-S2. *)
Theorem get_transponders_only_valid :
  forall (tables : ECommons) (requests_get : string -> fetched)
         (sat_url : string) (w : world) (l : list Transponder)
         (t : Transponder),
    fst (get_transponders requests_get sat_url w) = Ok l ->
    In t l ->
    is_transponder_valid t = true
    /\ (exists f : Z, Py.int (frequency t) = Ok f /\ (0 < f)%Z)
    /\ (exists s : Z, Py.int (symbol_rate t) = Ok s /\ (0 < s)%Z)
    /\ In (polarization t) ["H"; "V"; "L"; "R"]
    /\ In (fec_inner t) FEC
    /\ In (system t) ["DVB-S"; "DVB-S2"].
Proof.
  intros tables requests_get sat_url w l t Hret Hin.
  destruct (get_transponders_inv _ _ _ Hret) as (ex & Hvalid & Hsorted).
  apply sorted_spec in Hsorted as [Hperm _].
  assert (Ht : is_transponder_valid t = true).
  { unfold all_valid in Hvalid. rewrite Forall_forall in Hvalid.
    apply Hvalid. eapply Permutation_in; eassumption. }
  split; [exact Ht | now apply is_transponder_valid_spec].
Qed.

(** C5.  Whatever the provider and the order of the rows, the list
    [get_transponders] returns is in ascending order of [int(frequency)]. *)
Theorem get_transponders_sorted :
  forall (tables : ECommons) (requests_get : string -> fetched)
         (sat_url : string) (w : world) (l : list Transponder),
    fst (get_transponders requests_get sat_url w) = Ok l ->
    exists keys : list Z,
      mapM int_frequency l = Ok keys /\ StronglySorted Z.le keys.
Proof.
  intros tables requests_get sat_url w l Hret.
  destruct (get_transponders_inv _ _ _ Hret) as (ex & _ & Hsorted).
  now apply sorted_spec in Hsorted.
Qed.

Lemma get_transponders_only_valid_witness :
  is_transponder_valid (H := sample_tables) tp_11727 = true
  /\ (exists f : Z, Py.int (frequency tp_11727) = Ok f /\ (0 < f)%Z)
  /\ (exists s : Z, Py.int (symbol_rate tp_11727) = Ok s /\ (0 < s)%Z)
  /\ In (polarization tp_11727) ["H"; "V"; "L"; "R"]
  /\ In (fec_inner tp_11727) (FEC (ECommons := sample_tables))
  /\ In (system tp_11727) ["DVB-S"; "DVB-S2"].
Proof.
  apply (get_transponders_only_valid sample_tables
           (always (Response "OK" sample_fly_sat_page)) "sat.php"
           (fresh FLYSAT) (l := [tp_11727])).
  - vm_compute. reflexivity.
  - simpl. tauto.
Defined.

Lemma get_transponders_sorted_witness :
  exists keys : list Z,
    mapM int_frequency [tp_11727_multistream; tp_12000] = Ok keys
    /\ StronglySorted Z.le keys.
Proof.
  apply (get_transponders_sorted sample_tables
           (always (Response "OK" sample_lyng_sat_page)) "sat.php"
           (fresh LYNGSAT)).
  vm_compute. reflexivity.
Defined.

(** ** Stream markers *)

Lemma fly_sat_rows_app `{ECommons} (a b : list row) (st : fly_sat_state) :
  fly_sat_rows st (a ++ b)
  = (st' <- fly_sat_rows st a ;; fly_sat_rows st' b).
Proof.
  revert st. induction a as [|r a IH]; intros st; simpl; [reflexivity|].
  destruct (fly_sat_row st r) as [st1|e]; simpl; [apply IH | reflexivity].
Qed.

(** Validation does not look at the stream id. *)
Lemma replace_is_id_valid `{ECommons} (t : Transponder) (v : cell) :
  is_transponder_valid (replace_is_id t v) = is_transponder_valid t.
Proof. reflexivity. Qed.

Lemma stream_copies_two `{ECommons} (t : Transponder)
  (ids : list (list string)) :
  is_transponder_valid t = true ->
  map (fun m => nth 1 m "") ids = ["1"; "2"] ->
  stream_copies t ids
  = [replace_is_id t (Some "1"); replace_is_id t (Some "2")].
Proof.
  intros Hvalid Hids.
  destruct ids as [|m1 [|m2 [|m3 ids]]]; try discriminate.
  injection Hids as H1 H2. unfold stream_copies. simpl.
  rewrite H1, H2, !replace_is_id_valid, Hvalid. reflexivity.
Qed.

(** With stream ids pending, a valid data row builds nothing of its own:
    the last transponder is taken off [trs] and its copies go to [n_trs]. *)
Lemma fly_sat_row_pending `{ECommons} (d : row) (st : fly_sat_state)
  (m : list string) (ms : list (list string)) :
  valid_data_row d ->
  is_ids st = m :: ms ->
  fly_sat_row st d
  = (popped <- pop (trs st) ;;
     Ok (mkFly (snd popped)
           (n_trs st ++ stream_copies (fst popped) (is_ids st)) [])).
Proof.
  intros [t Hrow] Hids. unfold fly_sat_row, bind in *. simpl in Hrow.
  rewrite Hids.
  break_result Hrow; try reflexivity;
    injection Hrow; intros; discriminate.
Qed.

(** C1, as the code has it.  When the rows before the marker have left at
    least one transponder appended and no stream id pending, a one-cell row
    whose text holds the ids 1 and 2, followed by a valid data row, makes
    [get_transponders_for_fly_sat] emit exactly two transponders for the
    pair: the copies, with stream ids 1 and 2, of the transponder appended
    last, which is itself removed.  No transponder is built from the data
    row. *)
Theorem stream_rows_copy_last_transponder :
  forall (tables : ECommons) (pre : list row) (st : fly_sat_state)
         (text : string) (d : row) (t : Transponder)
         (before : list Transponder),
    fly_sat_rows (mkFly [] [] []) pre = Ok st ->
    is_ids st = [] ->
    trs st = before ++ [t] ->
    stream_ids text = ["1"; "2"] ->
    valid_data_row d ->
    get_transponders_for_fly_sat (pre ++ [[Some text]; d]) []
    = Ok (before ++ n_trs st
            ++ [replace_is_id t (Some "1"); replace_is_id t (Some "2")]).
Proof.
  intros tables pre st text d t before Hpre Hnone Htrs Hids Hd.
  assert (Ht : is_transponder_valid t = true).
  { destruct (@fly_sat_rows_valid _ pre (mkFly [] [] []) st (Forall_nil _)
                (Forall_nil _) Hpre) as [Hvalid _].
    unfold all_valid in Hvalid. rewrite Htrs in Hvalid.
    apply Forall_app in Hvalid as [_ Hlast]. now inversion Hlast. }
  assert (Hrows : fly_sat_rows (mkFly [] [] []) (pre ++ [[Some text]; d])
                  = Ok (mkFly before
                          (n_trs st ++ [replace_is_id t (Some "1");
                                        replace_is_id t (Some "2")]) [])).
  { rewrite fly_sat_rows_app, Hpre. cbn [bind fly_sat_rows].
    assert (Hmark : fly_sat_row st [Some text]
                    = Ok (mkFly (trs st) (n_trs st)
                            (findall 2 is_id_pattern text))).
    { unfold fly_sat_row. simpl. now rewrite Hnone. }
    rewrite Hmark. cbn [bind].
    unfold stream_ids in Hids.
    destruct (findall 2 is_id_pattern text) as [|m ms] eqn:Hfound;
      [discriminate|].
    rewrite (@fly_sat_row_pending _ d (mkFly (trs st) (n_trs st) (m :: ms))
               m ms Hd eq_refl).
    cbn [trs n_trs is_ids]. rewrite Htrs, pop_snoc. cbn [bind fst snd].
    rewrite (@stream_copies_two _ t (m :: ms) Ht Hids). reflexivity. }
  unfold get_transponders_for_fly_sat.
  destruct (pre ++ [[Some text]; d]) as [|r rows] eqn:Hpage.
  - destruct pre; discriminate.
  - rewrite Hrows. reflexivity.
Qed.

Lemma stream_rows_copy_last_transponder_witness :
  get_transponders_for_fly_sat (H := sample_tables)
    ([row_11727] ++ [stream_row; row_12000]) []
  = Ok ([] ++ []
          ++ [replace_is_id tp_11727 (Some "1");
              replace_is_id tp_11727 (Some "2")]).
Proof.
  apply (@stream_rows_copy_last_transponder sample_tables [row_11727]
           (mkFly [tp_11727] [] []) "Stream 1 Stream 2" row_12000
           tp_11727 []).
  - vm_compute. reflexivity.
  - reflexivity.
  - reflexivity.
  - vm_compute. reflexivity.
  - eexists. vm_compute. reflexivity.
Defined.

(** C1 as stated fails: on a page that is just the marker row and a valid
    data row, no transponder has been appended yet, and the function raises
    instead of emitting two transponders. *)
Lemma stream_rows_first_on_page :
  stream_ids "Stream 1 Stream 2" = ["1"; "2"]
  /\ valid_data_row (H := sample_tables) row_11727
  /\ get_transponders_for_fly_sat (H := sample_tables)
       [stream_row; row_11727] []
     = Raise IndexError
  /\ ~ two_streams (get_transponders_for_fly_sat (H := sample_tables)
                      [stream_row; row_11727] []).
Proof.
  assert (Hraise : get_transponders_for_fly_sat (H := sample_tables)
                     [stream_row; row_11727] [] = Raise IndexError)
    by (vm_compute; reflexivity).
  split; [vm_compute; reflexivity|].
  split; [eexists; vm_compute; reflexivity|].
  split; [exact Hraise|].
  rewrite Hraise. intros [t Habs]. discriminate.
Qed.

(** The sort of line 159 cannot raise on validated transponders: each
    frequency is an integer literal. *)
Lemma sorted_valid_total `{ECommons} (l : list Transponder) :
  all_valid l -> exists l' : list Transponder, sorted int_frequency l = Ok l'.
Proof.
  intros Hvalid. apply sorted_total.
  eapply Forall_impl; [|exact Hvalid].
  intros t Ht. apply is_transponder_valid_spec in Ht as [[f [Hf _]] _].
  now exists f.
Qed.

(** ** What the matcher finds *)

(** Whatever the matcher hands to its continuation is a match. *)
Lemma exec_sound (ic : bool) (n : nat) (T : Type) (r : regex) :
  forall (s : list ascii) (c : caps) (k : list ascii -> caps -> option T)
         (t : T),
    exec ic n r s c k = Some t ->
    exists (s' : list ascii) (c' : caps),
      matches ic n r s c s' c' /\ k s' c' = Some t.
Proof.
  induction r as [|l|p|a IHa b IHb|a IHa b IHb|a IHa|i a IHa| |];
    intros s c k t Hexec; cbn [exec] in Hexec.
  - exists s, c. split; [constructor | exact Hexec].
  - destruct (lit_match ic (Py.chars l) s) as [s'|] eqn:Hlit; [|discriminate].
    exists s', c. split; [now constructor | exact Hexec].
  - destruct s as [|x s]; [discriminate|].
    destruct (class_test ic p x) eqn:Hp; [|discriminate].
    exists s, c. split; [now constructor | exact Hexec].
  - apply IHa in Hexec as (s1 & c1 & Ha & Hexec).
    apply IHb in Hexec as (s2 & c2 & Hb & Hk).
    exists s2, c2. split; [econstructor; eassumption | exact Hk].
  - destruct (exec ic n a s c k) as [t0|] eqn:Hleft.
    + injection Hexec as ->. apply IHa in Hleft as (s' & c' & Ha & Hk).
      exists s', c'. split; [now apply m_alt_l | exact Hk].
    + apply IHb in Hexec as (s' & c' & Hb & Hk).
      exists s', c'. split; [now apply m_alt_r | exact Hk].
  - revert Hexec. generalize (List.length s) at 1 as fuel. intros fuel.
    revert s c. induction fuel as [|fuel IHfuel]; intros s c Hexec.
    + exists s, c. split; [constructor | exact Hexec].
    + match type of Hexec with
      | match ?e with _ => _ end = _ => destruct e as [t0|] eqn:Hbody
      end.
      * injection Hexec as ->.
        apply IHa in Hbody as (s1 & c1 & Ha & Hrest).
        destruct (List.length s1 <? List.length s) eqn:Hlt; [|discriminate].
        apply Nat.ltb_lt in Hlt.
        apply IHfuel in Hrest as (s2 & c2 & Hstar & Hk).
        exists s2, c2. split; [|exact Hk].
        eapply m_star_step; eassumption.
      * exists s, c. split; [constructor | exact Hexec].
  - apply IHa in Hexec as (s' & c' & Ha & Hk).
    eexists s', _. split; [constructor; eassumption | exact Hk].
  - destruct (List.length s =? n) eqn:Hn; [|discriminate].
    apply Nat.eqb_eq in Hn.
    exists s, c. split; [now constructor | exact Hexec].
  - destruct s as [|x [|y s]].
    + exists [], c. split; [constructor; now left | exact Hexec].
    + destruct x as [[] [] [] [] [] [] [] []]; try discriminate Hexec.
      eexists _, c. split; [constructor; now right | exact Hexec].
    + destruct x as [[] [] [] [] [] [] [] []]; discriminate Hexec.
Qed.

Lemma attempt_sound (ic : bool) (n : nat) (r : regex) (s s' : list ascii)
  (c : caps) :
  attempt ic n r s = Some (s', c) -> matches ic n r s [] s' c.
Proof.
  unfold attempt. intros Hexec.
  apply exec_sound in Hexec as (s1 & c1 & Hm & Hk).
  cbn beta in Hk. injection Hk as <- <-. exact Hm.
Qed.

Lemma re_match_sound (ic : bool) (r : regex) (s : string) (c : caps) :
  re_match ic r s = Some c ->
  exists s' : list ascii,
    matches ic (List.length (Py.chars s)) r (Py.chars s) [] s' c.
Proof.
  unfold re_match.
  destruct (attempt ic (List.length (Py.chars s)) r (Py.chars s))
    as [[s' c']|] eqn:Hatt; [|discriminate].
  intros [= <-]. exists s'. now apply attempt_sound.
Qed.

Lemma lit_match_suffix (ic : bool) (l s s' : list ascii) :
  lit_match ic l s = Some s' ->
  exists pre : list ascii, s = pre ++ s' /\ List.length pre = List.length l.
Proof.
  revert s. induction l as [|a l IH]; intros s; simpl.
  - intros [= <-]. now exists [].
  - destruct s as [|b s]; [discriminate|].
    destruct (same_char ic a b); [|discriminate].
    intros Hrest. apply IH in Hrest as (pre & -> & Hlen).
    exists (b :: pre). simpl. split; [reflexivity | now rewrite Hlen].
Qed.

(** Without [IGNORECASE] a literal matches itself only. *)
Lemma lit_match_exact (l s s' : list ascii) :
  lit_match false l s = Some s' -> s = l ++ s'.
Proof.
  revert s. induction l as [|a l IH]; intros s; simpl.
  - now intros [= <-].
  - destruct s as [|b s]; [discriminate|].
    unfold same_char. rewrite orb_false_r.
    destruct (Ascii.eqb a b) eqn:Hab; [|discriminate].
    apply Ascii.eqb_eq in Hab as ->.
    intros Hrest. apply IH in Hrest as ->. reflexivity.
Qed.

(** A match consumes a prefix of what it is given. *)
Lemma matches_suffix (ic : bool) (n : nat) (r : regex)
  (s s' : list ascii) (c c' : caps) :
  matches ic n r s c s' c' -> exists pre : list ascii, s = pre ++ s'.
Proof.
  induction 1 as [s c|l s s' c Hlit|p a s c Hp
                 |a b s c s1 c1 s2 c2 _ [p1 ->] _ [p2 ->]
                 |a b s c s' c' _ IH|a b s c s' c' _ IH|a s c
                 |a s c s1 c1 s2 c2 _ [p1 ->] _ _ [p2 ->]
                 |i a s c s' c' _ IH|s c Hn|s c Hs].
  - now exists [].
  - apply lit_match_suffix in Hlit as (pre & -> & _). now exists pre.
  - now exists [a].
  - exists (p1 ++ p2). now rewrite app_assoc.
  - exact IH.
  - exact IH.
  - now exists [].
  - exists (p1 ++ p2). now rewrite app_assoc.
  - exact IH.
  - now exists [].
  - now exists [].
Qed.

(** What a group holds is the text it consumed. *)
Lemma group_text (pre s' : list ascii) :
  firstn (List.length (pre ++ s') - List.length s') (pre ++ s') = pre.
Proof.
  rewrite length_app, Nat.add_sub. rewrite firstn_app, Nat.sub_diag.
  rewrite firstn_all. simpl. apply app_nil_r.
Qed.

(** The case flag changes nothing for a digit or for white space. *)
Lemma class_test_decimal (ic : bool) (a : ascii) :
  class_test ic Py.isdecimal a = Py.isdecimal a.
Proof.
  destruct ic; [|unfold class_test; now rewrite orb_false_r].
  destruct a as [[] [] [] [] [] [] [] []]; reflexivity.
Qed.

Lemma star_class (ic : bool) (n : nat) (p : ascii -> bool)
  (s s' : list ascii) (c c' : caps) :
  matches ic n (Star (Class p)) s c s' c' ->
  c' = c
  /\ exists pre : list ascii,
      s = pre ++ s' /\ Forall (fun a => class_test ic p a = true) pre.
Proof.
  intros Hm. remember (Star (Class p)) as r eqn:Hr.
  induction Hm as [| | | | | |a s c|a s c s1 c1 s2 c2 Ha _ Hlt Hstar IH
                  | | |]; try discriminate.
  - split; [reflexivity|]. exists []. split; [reflexivity | constructor].
  - injection Hr as ->.
    inversion Ha as [| |p0 x s0 c0 Hx| | | | | | | |]; subst.
    destruct (IH eq_refl) as (-> & pre & -> & Hall).
    split; [reflexivity|]. exists (x :: pre).
    split; [reflexivity | now constructor].
Qed.

(** One or more digits: the groups stay, and what is consumed is a
    non-empty run of decimal digits. *)
Lemma plus_digit (ic : bool) (n : nat) (s s' : list ascii) (c c' : caps) :
  matches ic n (Plus digit) s c s' c' ->
  c' = c
  /\ exists pre : list ascii,
      s = pre ++ s' /\ pre <> []
      /\ Forall (fun a => Py.isdecimal a = true) pre.
Proof.
  unfold Plus, digit. intros Hm.
  inversion Hm as [| | |a b s0 c0 s1 c1 s2 c2 Hone Hmore| | | | | | |]; subst.
  inversion Hone as [| |p0 x s0 c0 Hx| | | | | | | |]; subst.
  apply star_class in Hmore as (-> & pre & -> & Hall).
  split; [reflexivity|]. exists (x :: pre).
  split; [reflexivity|]. split; [discriminate|].
  constructor.
  - now rewrite <- (class_test_decimal ic).
  - eapply Forall_impl; [|exact Hall].
    intros y Hy. now rewrite <- (class_test_decimal ic).
Qed.

Lemma decimal_str (l : list ascii) :
  l <> [] -> Forall (fun a => Py.isdecimal a = true) l ->
  decimal (Py.str l).
Proof.
  intros Hne Hall. split.
  - intros Hempty. apply Hne.
    rewrite <- (chars_str l), Hempty. reflexivity.
  - now rewrite chars_str.
Qed.

(** A group around one or more digits holds a decimal string. *)
Lemma group_plus_digit (ic : bool) (n i : nat) (s s' : list ascii)
  (c c' : caps) :
  matches ic n (Group i (Plus digit)) s c s' c' ->
  exists d : string, decimal d /\ c' = (i, d) :: c.
Proof.
  intros Hm. inversion Hm; subst.
  match goal with H : matches _ _ (Plus digit) _ _ _ _ |- _ =>
    apply plus_digit in H as (-> & pre & -> & Hne & Hall) end.
  rewrite group_text. exists (Py.str pre). split; [|reflexivity].
  now apply decimal_str.
Qed.

(** Every match of the stream pattern holds the word and a decimal id. *)
Lemma is_id_pattern_groups (n : nat) (s s' : list ascii) (c : caps) :
  attempt false n is_id_pattern s = Some (s', c) ->
  exists d : string, decimal d /\ groups_tuple 2 c = ["Stream"; d].
Proof.
  intros Hatt. apply attempt_sound in Hatt. unfold is_id_pattern in Hatt.
  inversion Hatt as [| | |a b s0 c0 s1 c1 s2 c2 Hword Hrest| | | | | | |];
    subst.
  inversion Hrest as [| | |a b s0 c0 s3 c3 s4 c4 Hsp Hid| | | | | | |]; subst.
  inversion Hword as [| | | | | | | |i a s0 c0 s5 c5 Hlit| |]; subst.
  inversion Hlit as [|l s0 s6 c0 Hl| | | | | | | | |]; subst.
  inversion Hsp; subst.
  apply lit_match_exact in Hl. subst s.
  apply group_plus_digit in Hid as (d & Hd & ->).
  exists d. split; [exact Hd|].
  rewrite group_text. reflexivity.
Qed.

Lemma findall_is_id (fuel n : nat) (s : list ascii) :
  Forall (fun m => exists d : string, decimal d /\ m = ["Stream"; d])
         (findall_from fuel 2 n is_id_pattern s).
Proof.
  revert s. induction fuel as [|fuel IH]; intros s; simpl; [constructor|].
  destruct (attempt false n is_id_pattern s) as [[s' c]|] eqn:Hatt.
  - constructor.
    + apply is_id_pattern_groups in Hatt as (d & Hd & Heq). now exists d.
    + destruct (List.length s' <? List.length s); [apply IH|].
      destruct s; [constructor | apply IH].
  - destruct s; [constructor | apply IH].
Qed.

Lemma captured_incl (ic : bool) (n : nat) (r r' : regex) (kv : nat * string) :
  incl (subgroups r) (subgroups r') ->
  captured ic n r kv -> captured ic n r' kv.
Proof.
  intros Hincl (a & rest & c1 & c2 & Hin & Hm).
  exists a, rest, c1, c2. split; [now apply Hincl | exact Hm].
Qed.

(** A match only adds groups, in front, and each is what its group
    matched. *)
Lemma matches_captures (ic : bool) (n : nat) (r : regex)
  (s s' : list ascii) (c c' : caps) :
  matches ic n r s c s' c' ->
  exists extra : caps, c' = extra ++ c /\ Forall (captured ic n r) extra.
Proof.
  induction 1 as [s c|l s s' c Hlit|p a s c Hp
                 |a b s c s1 c1 s2 c2 _ (e1 & -> & H1) _ (e2 & -> & H2)
                 |a b s c s' c' _ (e & -> & He)
                 |a b s c s' c' _ (e & -> & He)
                 |a s c
                 |a s c s1 c1 s2 c2 _ (e1 & -> & H1) _ _ (e2 & -> & H2)
                 |i a s c s' c' Ha (e & -> & He)|s c Hn|s c Hs];
    try (exists []; split; [reflexivity | constructor]).
  - exists (e2 ++ e1). split; [now rewrite app_assoc|].
    apply Forall_app. split.
    + eapply Forall_impl; [|exact H2]. intros kv.
      apply captured_incl. simpl. apply incl_appr, incl_refl.
    + eapply Forall_impl; [|exact H1]. intros kv.
      apply captured_incl. simpl. apply incl_appl, incl_refl.
  - exists e. split; [reflexivity|].
    eapply Forall_impl; [|exact He]. intros kv.
    apply captured_incl. simpl. apply incl_appl, incl_refl.
  - exists e. split; [reflexivity|].
    eapply Forall_impl; [|exact He]. intros kv.
    apply captured_incl. simpl. apply incl_appr, incl_refl.
  - exists (e2 ++ e1). split; [now rewrite app_assoc|].
    apply Forall_app. split; [exact H2|].
    eapply Forall_impl; [|exact H1]. intros kv.
    apply captured_incl. simpl. apply incl_refl.
  - destruct (matches_suffix Ha) as [pre ->]. rewrite group_text.
    exists ((i, Py.str pre) :: e). split; [reflexivity|].
    constructor.
    + exists a, s', c, (e ++ c). simpl. split; [now left|].
      now rewrite chars_str.
    + eapply Forall_impl; [|exact He]. intros kv.
      apply captured_incl. simpl. apply incl_tl, incl_refl.
Qed.

Lemma group_In (c : caps) (i : nat) (v : string) :
  group c i = Some v -> In (i, v) c.
Proof.
  induction c as [|[j w] c IH]; simpl; [discriminate|].
  destruct (j =? i) eqn:Hj.
  - apply Nat.eqb_eq in Hj as ->. intros [= ->]. now left.
  - intros Hrest. right. now apply IH.
Qed.

(** A group that is set stays set. *)
Lemma group_kept (extra c : caps) (i : nat) (v : string) :
  group c i = Some v -> exists v' : string, group (extra ++ c) i = Some v'.
Proof.
  intros Hc. induction extra as [|[j w] extra IH]; simpl; [eauto|].
  destruct (j =? i); eauto.
Qed.

(** Every match sets the groups it cannot avoid. *)
Lemma matches_sure (ic : bool) (n : nat) (r : regex)
  (s s' : list ascii) (c c' : caps) :
  matches ic n r s c s' c' ->
  forall i : nat, In i (sure_groups r) ->
    exists v : string, group c' i = Some v.
Proof.
  induction 1 as [s c|l s s' c Hlit|p a s c Hp
                 |a b s c s1 c1 s2 c2 Ha IHa Hb IHb
                 |a b s c s' c' _ _|a b s c s' c' _ _|a s c
                 |a s c s1 c1 s2 c2 _ _ _ _ _
                 |i a s c s' c' Ha IHa|s c Hn|s c Hs];
    intros j Hj; simpl in Hj; try contradiction.
  - apply in_app_or in Hj as [Hj|Hj]; [|now apply IHb].
    destruct (IHa j Hj) as [v Hv].
    destruct (matches_captures Hb) as (e & -> & _).
    now apply group_kept with (v := v).
  - simpl. destruct (i =? j) eqn:Hij; [eauto|].
    destruct Hj as [->|Hj]; [now rewrite Nat.eqb_refl in Hij|].
    now apply IHa.
Qed.

(** What [re.match] returns: the groups the pattern cannot avoid are set,
    and whatever group is set holds a text its group matched. *)
Lemma re_match_groups (ic : bool) (r : regex) (s : string) (c : caps) :
  re_match ic r s = Some c ->
  (forall i : nat, In i (sure_groups r) ->
     exists v : string, group c i = Some v)
  /\ (forall (i : nat) (v : string), group c i = Some v ->
        captured ic (List.length (Py.chars s)) r (i, v)).
Proof.
  intros Hm. apply re_match_sound in Hm as [s' Hm]. split.
  - exact (matches_sure Hm).
  - intros i v Hv. apply group_In in Hv.
    destruct (matches_captures Hm) as (e & -> & Hall).
    rewrite app_nil_r in Hv. rewrite Forall_forall in Hall.
    now apply Hall.
Qed.

(** ** The first provider's transponders *)

Lemma findall_is_id_pattern (text : string) :
  Forall id_tuple (findall 2 is_id_pattern text).
Proof. unfold findall. apply findall_is_id. Qed.

Lemma stream_copies_shape `{ECommons} (t : Transponder)
  (ids : list (list string)) :
  fly_sat_fields t -> Forall id_tuple ids ->
  Forall has_stream (stream_copies t ids).
Proof.
  intros Ht Hids. unfold stream_copies. apply Forall_forall.
  intros x Hx. apply filter_In in Hx as [Hx _].
  apply in_map_iff in Hx as (m & <- & Hm).
  rewrite Forall_forall in Hids. destruct (Hids m Hm) as (d & Hd & ->).
  split; [exact Ht|]. exists d. now split.
Qed.

(** One row keeps the shape of the three lists of the loop. *)
Lemma fly_sat_row_shape `{ECommons} (st st' : fly_sat_state) (r : row) :
  Forall no_stream (trs st) -> Forall has_stream (n_trs st) ->
  Forall id_tuple (is_ids st) ->
  fly_sat_row st r = Ok st' ->
  Forall no_stream (trs st') /\ Forall has_stream (n_trs st')
  /\ Forall id_tuple (is_ids st').
Proof.
  intros Htrs Hn Hids Hrow. unfold fly_sat_row, bind in Hrow.
  break_result Hrow; injection Hrow as <-; cbn [trs n_trs is_ids];
    repeat split; try assumption; try constructor;
    try (apply Forall_app; split; [assumption|]).
  all: try apply findall_is_id_pattern.
  all: try (constructor; [|constructor]; split; [|reflexivity];
            split; [now eexists|]; split; [now eexists|];
            cbn [system modulation]; intros Hsys;
            first [reflexivity
                  | subst; rewrite String.eqb_refl in *; discriminate]).
  all: match goal with
       | Hpop : pop (trs _) = Ok ?popped |- _ =>
           destruct popped as [x before]; apply pop_spec in Hpop;
           cbn [fst snd]; rewrite Hpop in Htrs; apply Forall_app in Htrs;
           destruct Htrs as [Hbefore Hx]
       end.
  - exact Hbefore.
  - inversion Hx as [|? ? [Hfields _] _]; subst.
    apply stream_copies_shape; [exact Hfields | exact Hids].
Qed.

Lemma fly_sat_rows_shape `{ECommons} (rows : list row)
  (st st' : fly_sat_state) :
  Forall no_stream (trs st) -> Forall has_stream (n_trs st) ->
  Forall id_tuple (is_ids st) ->
  fly_sat_rows st rows = Ok st' ->
  Forall no_stream (trs st') /\ Forall has_stream (n_trs st').
Proof.
  revert st. induction rows as [|r rows IH]; intros st Htrs Hn Hids; simpl.
  - intros [= <-]. now split.
  - destruct (fly_sat_row st r) as [st1|e] eqn:Hrow; simpl; [|discriminate].
    destruct (fly_sat_row_shape st r Htrs Hn Hids Hrow) as (H1 & H2 & H3).
    now apply IH.
Qed.

(** X1.  Whatever the rows, the transponders the first provider's extractor
    returns are first those without a stream id, then the stream copies;
    every frequency and symbol rate ends in 000, a DVB-S transponder has
    modulation QPSK, and a stream id is a string of decimal digits. *)
Theorem fly_sat_transponders_shape :
  forall (tables : ECommons) (rows : list row) (l : list Transponder),
    get_transponders_for_fly_sat rows [] = Ok l ->
    exists plain copies : list Transponder,
      l = plain ++ copies
      /\ Forall no_stream plain /\ Forall has_stream copies.
Proof.
  intros tables rows l. unfold get_transponders_for_fly_sat.
  destruct rows as [|r rows].
  - intros [= <-]. exists [], []. repeat split; constructor.
  - destruct (fly_sat_rows (mkFly [] [] []) (r :: rows)) as [st|e] eqn:Hrows;
      simpl; [|discriminate].
    intros [= <-]. exists (trs st), (n_trs st). split; [reflexivity|].
    eapply fly_sat_rows_shape; [| | |exact Hrows]; constructor.
Qed.

Lemma fly_sat_transponders_shape_witness :
  exists plain copies : list Transponder,
    [mkTransponder "12000000" "27500000" "H" "3/4" "DVB-S" "QPSK"
       None None None;
     replace_is_id tp_11727 (Some "1"); replace_is_id tp_11727 (Some "2")]
    = plain ++ copies
    /\ Forall no_stream plain /\ Forall has_stream copies.
Proof.
  apply (@fly_sat_transponders_shape sample_tables
           [row_11727; stream_row; row_12000; row_12000]).
  vm_compute. reflexivity.
Defined.

(** Takes the next [match] of the goal apart. *)
Ltac break_goal :=
  match goal with
  | |- context [match ?x with _ => _ end] => destruct x eqn:?
  end.

(** With nothing pending, a row of text that is not a one-cell row adds at
    most one transponder, without a stream id, and cannot raise. *)
Lemma fly_sat_row_plain `{ECommons} (st : fly_sat_state) (r : row) :
  is_ids st = [] -> text_row r -> List.length r <> 1 ->
  exists new : list Transponder,
    fly_sat_row st r = Ok (mkFly (trs st ++ new) (n_trs st) [])
    /\ List.length new <= 1
    /\ Forall (fun t => is_id t = None) new.
Proof.
  intros Hids Htext Hlen. destruct st as [l n ids]. simpl in Hids. subst ids.
  unfold fly_sat_row. cbn [trs n_trs is_ids].
  destruct (List.length r =? 1) eqn:H1;
    [apply Nat.eqb_eq in H1; contradiction|].
  destruct (List.length r <? 3) eqn:H3.
  { exists []. rewrite app_nil_r. repeat split; [simpl; lia | constructor]. }
  destruct r as [|c0 [|c1 [|c2 r]]]; try discriminate.
  inversion Htext as [|? ? _ Htext1]; subst.
  inversion Htext1 as [|? ? Hc1 Htext2]; subst.
  inversion Htext2 as [|? ? Hc2 _]; subst.
  destruct c1 as [s1|]; [|contradiction].
  destruct c2 as [s2|]; [|contradiction].
  cbn [Py.index nth_error as_str bind].
  repeat break_goal;
    first [ exists []; rewrite app_nil_r;
            repeat split; [simpl; lia | constructor]
          | eexists [_]; repeat split;
            [simpl; lia | constructor; [reflexivity | constructor]] ].
Qed.

(** X2.  On rows of text none of which has exactly one cell, the first
    provider's extractor cannot raise: it keeps the transponders it was
    given, in front, and adds at most one per row, each without a stream
    id. *)
Theorem fly_sat_no_marker :
  forall (tables : ECommons) (rows : list row) (trs0 : list Transponder),
    Forall (fun r => text_row r /\ List.length r <> 1) rows ->
    exists new : list Transponder,
      get_transponders_for_fly_sat rows trs0 = Ok (trs0 ++ new)
      /\ List.length new <= List.length rows
      /\ Forall (fun t => is_id t = None) new.
Proof.
  intros tables rows trs0 Hrows.
  assert (Hloop : forall st : fly_sat_state,
             is_ids st = [] ->
             exists new : list Transponder,
               fly_sat_rows st rows = Ok (mkFly (trs st ++ new) (n_trs st) [])
               /\ List.length new <= List.length rows
               /\ Forall (fun t => is_id t = None) new).
  { induction Hrows as [|r rows [Htext Hlen] _ IH]; intros st Hids.
    - exists []. rewrite app_nil_r. destruct st as [l n ids].
      simpl in Hids. subst ids.
      repeat split; [simpl; lia | constructor].
    - destruct (@fly_sat_row_plain _ st r Hids Htext Hlen)
        as (new1 & Hrow & Hlen1 & Hnone1).
      destruct (IH (mkFly (trs st ++ new1) (n_trs st) []) eq_refl)
        as (new2 & Hrest & Hlen2 & Hnone2).
      exists (new1 ++ new2). cbn [fly_sat_rows]. rewrite Hrow. cbn [bind].
      rewrite Hrest. cbn [trs n_trs]. rewrite app_assoc.
      repeat split.
      + rewrite length_app. simpl. lia.
      + now apply Forall_app. }
  unfold get_transponders_for_fly_sat. destruct rows as [|r rows].
  - exists []. rewrite app_nil_r. repeat split; [simpl; lia | constructor].
  - destruct (Hloop (mkFly trs0 [] []) eq_refl) as (new & -> & Hlen & Hnone).
    exists new. cbn [bind trs n_trs]. rewrite app_nil_r. now repeat split.
Qed.

Lemma fly_sat_no_marker_witness :
  exists new : list Transponder,
    get_transponders_for_fly_sat (H := sample_tables)
      [row_12000; [Some "a"; Some "b"]; row_11727] [tp_11727]
    = Ok ([tp_11727] ++ new)
    /\ List.length new <= 3
    /\ Forall (fun t => is_id t = None) new.
Proof.
  apply (@fly_sat_no_marker sample_tables
           [row_12000; [Some "a"; Some "b"]; row_11727] [tp_11727]).
  repeat constructor; discriminate.
Defined.

Lemma fly_sat_rows_between `{ECommons} (between : list row)
  (st : fly_sat_state) :
  Forall marker_or_short between ->
  fly_sat_rows st between
  = Ok (mkFly (trs st) (n_trs st)
          (is_ids st ++ List.concat (map row_ids between))).
Proof.
  intros Hall. revert st.
  induction Hall as [|r between Hr _ IH]; intros st; simpl.
  - rewrite app_nil_r. now destruct st.
  - assert (Hrow : fly_sat_row st r
                   = Ok (mkFly (trs st) (n_trs st) (is_ids st ++ row_ids r))).
    { destruct Hr as [[text ->]|[Hlen|Hlen]].
      - reflexivity.
      - destruct r; [|discriminate]. simpl. rewrite app_nil_r.
        now destruct st.
      - destruct r as [|a [|b [|c r]]]; try discriminate.
        assert (Hnone : row_ids [a; b] = []) by now destruct a.
        rewrite Hnone, app_nil_r. now destruct st. }
    rewrite Hrow. cbn [bind]. rewrite IH. cbn [trs n_trs is_ids].
    now rewrite app_assoc.
Qed.

(** X3.  Stream ids add up over the one-cell rows that precede a data row,
    and rows of no or two cells among them do not clear them: when at least
    one id is pending and a transponder has been appended before, the valid
    data row that follows takes that transponder off the list and emits one
    copy of it for each pending id, in order, that passes validation. *)
Theorem fly_sat_pending_ids_add_up :
  forall (tables : ECommons) (pre between : list row) (st : fly_sat_state)
         (d : row) (t : Transponder) (before : list Transponder),
    fly_sat_rows (mkFly [] [] []) pre = Ok st ->
    is_ids st = [] ->
    trs st = before ++ [t] ->
    Forall marker_or_short between ->
    List.concat (map row_ids between) <> [] ->
    valid_data_row d ->
    get_transponders_for_fly_sat (pre ++ between ++ [d]) []
    = Ok (before ++ n_trs st
            ++ stream_copies t (List.concat (map row_ids between))).
Proof.
  intros tables pre between st d t before Hpre Hnone Htrs Hbetween Hids Hd.
  assert (Hrows : fly_sat_rows (mkFly [] [] []) (pre ++ between ++ [d])
                  = Ok (mkFly before
                          (n_trs st
                             ++ stream_copies t
                                  (List.concat (map row_ids between))) [])).
  { rewrite fly_sat_rows_app, Hpre. cbn [bind].
    rewrite fly_sat_rows_app, (fly_sat_rows_between st Hbetween).
    cbn [bind fly_sat_rows]. rewrite Hnone. cbn [app].
    destruct (List.concat (map row_ids between)) as [|m ms] eqn:Hpending;
      [contradiction|].
    rewrite (@fly_sat_row_pending _ d (mkFly (trs st) (n_trs st) (m :: ms))
               m ms Hd eq_refl).
    cbn [trs n_trs is_ids]. rewrite Htrs, pop_snoc. reflexivity. }
  unfold get_transponders_for_fly_sat.
  destruct (pre ++ between ++ [d]) as [|r rows] eqn:Hpage.
  - apply app_eq_nil in Hpage as [_ Hpage].
    apply app_eq_nil in Hpage as [_ Hpage]. discriminate.
  - rewrite Hrows. reflexivity.
Qed.

Lemma fly_sat_pending_ids_add_up_witness :
  get_transponders_for_fly_sat (H := sample_tables)
    ([row_11727]
       ++ [[Some "Stream 3"]; [Some "a"; Some "b"]; stream_row]
       ++ [row_12000]) []
  = Ok [replace_is_id tp_11727 (Some "3");
        replace_is_id tp_11727 (Some "1");
        replace_is_id tp_11727 (Some "2")].
Proof.
  etransitivity;
    [apply (@fly_sat_pending_ids_add_up sample_tables [row_11727]
              [[Some "Stream 3"]; [Some "a"; Some "b"]; stream_row]
              (mkFly [tp_11727] [] []) row_12000 tp_11727 [])|].
  7: vm_compute; reflexivity.
  - vm_compute. reflexivity.
  - reflexivity.
  - reflexivity.
  - constructor; [left; now eexists|].
    constructor; [right; now right|].
    constructor; [left; now eexists | constructor].
  - vm_compute. discriminate.
  - eexists. vm_compute. reflexivity.
Defined.

(** ** The second provider's transponders *)

Lemma class_test_plain (p : ascii -> bool) (a : ascii) :
  class_test false p a = p a.
Proof. unfold class_test. now rewrite orb_false_r. Qed.

Lemma same_char_lower (ic : bool) (a b : ascii) :
  same_char ic a b = true -> Py.lower a = Py.lower b.
Proof.
  unfold same_char. intros Hab. apply orb_true_iff in Hab as [Hab|Hab].
  - now apply Ascii.eqb_eq in Hab as ->.
  - apply andb_true_iff in Hab as [_ Hab]. now apply Ascii.eqb_eq in Hab.
Qed.

Lemma lit_match_lower (ic : bool) (l s s' : list ascii) :
  lit_match ic l s = Some s' ->
  exists pre : list ascii,
    s = pre ++ s' /\ map Py.lower pre = map Py.lower l.
Proof.
  revert s. induction l as [|a l IH]; intros s; simpl.
  - intros [= <-]. now exists [].
  - destruct s as [|b s]; [discriminate|].
    destruct (same_char ic a b) eqn:Hab; [|discriminate].
    intros Hrest. apply IH in Hrest as (pre & -> & Hpre).
    exists (b :: pre). simpl. split; [reflexivity|].
    now rewrite Hpre, (same_char_lower _ _ _ Hab).
Qed.

Lemma digits_4_5_text (ic : bool) (n : nat) (v : string)
  (rest : list ascii) (c1 c2 : caps) :
  matches ic n digits_4_5 (Py.chars v ++ rest) c1 rest c2 ->
  four_or_five_digits v.
Proof.
  unfold digits_4_5, Opt, digit. intros Hm.
  inversion Hm as [| | |? ? ? ? ? ? ? ? H1 Hm1| | | | | | |]; subst.
  inversion H1 as [| |? x1 ? ? Hx1| | | | | | | |]; subst.
  inversion Hm1 as [| | |? ? ? ? ? ? ? ? H2 Hm2| | | | | | |]; subst.
  inversion H2 as [| |? x2 ? ? Hx2| | | | | | | |]; subst.
  inversion Hm2 as [| | |? ? ? ? ? ? ? ? H3 Hm3| | | | | | |]; subst.
  inversion H3 as [| |? x3 ? ? Hx3| | | | | | | |]; subst.
  inversion Hm3 as [| | |? ? ? ? ? ? ? ? H4 Hm4| | | | | | |]; subst.
  inversion H4 as [| |? x4 ? ? Hx4| | | | | | | |]; subst.
  rewrite class_test_decimal in Hx1, Hx2, Hx3, Hx4.
  inversion Hm4 as [| | | |? ? ? ? ? ? H5|? ? ? ? ? ? H5| | | | |]; subst.
  - inversion H5 as [| |? x5 ? ? Hx5| | | | | | | |]; subst.
    rewrite class_test_decimal in Hx5.
    assert (Hv : Py.chars v = [x1; x2; x3; x4; x5]).
    { apply (app_inv_tail rest). simpl.
      repeat match goal with H : _ :: _ = _ |- _ => rewrite <- H end.
      reflexivity. }
    unfold four_or_five_digits. rewrite Hv. split; [|now right].
    repeat constructor; assumption.
  - inversion H5; subst.
    assert (Hv : Py.chars v = [x1; x2; x3; x4]).
    { apply (app_inv_tail rest). simpl.
      repeat match goal with H : _ :: _ = _ |- _ => rewrite <- H end.
      reflexivity. }
    unfold four_or_five_digits. rewrite Hv. split; [|now left].
    repeat constructor; assumption.
Qed.

Lemma plus_digit_text (ic : bool) (n : nat) (v : string)
  (rest : list ascii) (c1 c2 : caps) :
  matches ic n (Plus digit) (Py.chars v ++ rest) c1 rest c2 -> decimal v.
Proof.
  intros Hm. apply plus_digit in Hm as (_ & pre & Hpre & Hne & Hall).
  apply app_inv_tail in Hpre. rewrite <- (str_chars v), Hpre.
  now apply decimal_str.
Qed.

Lemma polarization_text (n : nat) (v : string) (rest : list ascii)
  (c1 c2 : caps) :
  matches false n (one_of "RLHV") (Py.chars v ++ rest) c1 rest c2 ->
  In v ["R"; "L"; "H"; "V"].
Proof.
  unfold one_of. intros Hm.
  inversion Hm as [| |? x ? ? Hx Hs| | | | | | | |]; subst.
  rewrite class_test_plain in Hx.
  assert (Hv : Py.chars v = [x]) by (apply (app_inv_tail rest); now simpl).
  rewrite <- (str_chars v), Hv.
  simpl in Hx. rewrite !orb_true_iff in Hx.
  destruct Hx as [Hx|[Hx|[Hx|[Hx|Hx]]]]; try discriminate;
    apply Ascii.eqb_eq in Hx; subst x; simpl; tauto.
Qed.

Lemma fec_text (n : nat) (v : string) (rest : list ascii) (c1 c2 : caps) :
  matches false n (Seq digit (Seq (Lit "/") digit))
    (Py.chars v ++ rest) c1 rest c2 ->
  digit_slash_digit v.
Proof.
  unfold digit. intros Hm.
  inversion Hm as [| | |? ? ? ? ? ? ? ? H1 Hm1| | | | | | |]; subst.
  inversion H1 as [| |? a ? ? Ha| | | | | | | |]; subst.
  inversion Hm1 as [| | |? ? ? ? ? ? ? ? H2 H3| | | | | | |]; subst.
  inversion H2 as [|? ? ? ? Hlit| | | | | | | | |]; subst.
  inversion H3 as [| |? b ? ? Hb| | | | | | | |]; subst.
  apply lit_match_exact in Hlit. subst.
  rewrite class_test_plain in Ha, Hb.
  assert (Hv : Py.chars v = [a; "/"%char; b]).
  { apply (app_inv_tail rest). simpl.
    repeat match goal with H : _ :: _ = _ |- _ => rewrite <- H end.
    reflexivity. }
  exists a, b. split; [exact Ha|]. split; [exact Hb|].
  rewrite <- (str_chars v), Hv. reflexivity.
Qed.

Lemma one_of_2 (a : ascii) :
  class_test true (fun c => existsb (Ascii.eqb c) (Py.chars "2")) a = true ->
  a = "2"%char.
Proof.
  destruct a as [[] [] [] [] [] [] [] []]; vm_compute; intros Ha;
    first [discriminate | reflexivity].
Qed.

Lemma system_text (n : nat) (v : string) (rest : list ascii) (c1 c2 : caps) :
  matches true n (Seq (Lit "DVB-S") (Opt (one_of "2")))
    (Py.chars v ++ rest) c1 rest c2 ->
  In (lower_str v) ["dvb-s"; "dvb-s2"].
Proof.
  unfold Opt, one_of. intros Hm.
  inversion Hm as [| | |? ? ? ? ? ? ? ? H1 H2| | | | | | |]; subst.
  inversion H1 as [|? ? ? ? Hlit| | | | | | | | |]; subst.
  apply lit_match_lower in Hlit as (pre & Hs & Hpre).
  inversion H2 as [| | | |? ? ? ? ? ? H3|? ? ? ? ? ? H3| | | | |]; subst.
  - inversion H3 as [| |? x ? ? Hx Hs1| | | | | | | |]; subst.
    apply one_of_2 in Hx. subst x.
    assert (Hv : Py.chars v = pre ++ ["2"%char]).
    { apply (app_inv_tail rest). rewrite <- app_assoc. exact Hs. }
    unfold lower_str. rewrite Hv, map_app, Hpre. simpl. tauto.
  - inversion H3; subst.
    assert (Hv : Py.chars v = pre) by (apply (app_inv_tail rest); exact Hs).
    unfold lower_str. rewrite Hv, Hpre. simpl. tauto.
Qed.

(** Finds which group of the pattern a captured pair belongs to. *)
Ltac pick_group Hin :=
  repeat match type of Hin with
         | In _ (_ ++ _) => apply in_app_or in Hin
         | In _ (_ :: _) => destruct Hin as [Hin|Hin]
         | In _ [] => contradiction
         | _ \/ _ => destruct Hin as [Hin|Hin]
         | False => contradiction
         | (_, _) = (_, _) =>
             first [discriminate Hin | injection Hin as <-]
         | In _ _ => progress (cbn in Hin)
         end.

(** What a match of the frequency pattern holds. *)
Lemma frq_pol_groups (s : string) (m : caps) :
  re_match false frq_pol_pattern s = Some m ->
  exists frq pol : string,
    group m 1 = Some frq /\ group m 2 = Some pol
    /\ four_or_five_digits frq /\ In pol ["R"; "L"; "H"; "V"].
Proof.
  intros Hm. apply re_match_groups in Hm as [Hsure Hcap].
  destruct (Hsure 1) as [frq Hfrq]; [simpl; tauto|].
  destruct (Hsure 2) as [pol Hpol]; [simpl; tauto|].
  exists frq, pol. split; [exact Hfrq|]. split; [exact Hpol|]. split.
  - destruct (Hcap _ _ Hfrq) as (a & rest & c1 & c2 & Hin & Ha).
    pick_group Hin.
    eapply digits_4_5_text; exact Ha.
  - destruct (Hcap _ _ Hpol) as (a & rest & c1 & c2 & Hin & Ha).
    pick_group Hin.
    eapply polarization_text; exact Ha.
Qed.

(** What a match of the symbol rate pattern holds. *)
Lemma sr_fec_groups (s : string) (m : caps) :
  re_match false sr_fec_pattern s = Some m ->
  exists sr fec : string,
    group m 1 = Some sr /\ group m 2 = Some fec
    /\ four_or_five_digits sr /\ digit_slash_digit fec.
Proof.
  intros Hm. apply re_match_groups in Hm as [Hsure Hcap].
  destruct (Hsure 1) as [sr Hsr]; [simpl; tauto|].
  destruct (Hsure 2) as [fec Hfec]; [simpl; tauto|].
  exists sr, fec. split; [exact Hsr|]. split; [exact Hfec|]. split.
  - destruct (Hcap _ _ Hsr) as (a & rest & c1 & c2 & Hin & Ha).
    pick_group Hin.
    eapply digits_4_5_text; exact Ha.
  - destruct (Hcap _ _ Hfec) as (a & rest & c1 & c2 & Hin & Ha).
    pick_group Hin.
    eapply fec_text; exact Ha.
Qed.

(** What a match of the system pattern holds. *)
Lemma sys_groups (s : string) (m : caps) :
  re_match true sys_pattern s = Some m ->
  (exists sys : string,
      group m 1 = Some sys /\ In (lower_str sys) ["dvb-s"; "dvb-s2"])
  /\ none_or_decimal (group m 4) /\ none_or_decimal (group m 6).
Proof.
  intros Hm. apply re_match_groups in Hm as [Hsure Hcap].
  destruct (Hsure 1) as [sys Hsys]; [simpl; tauto|].
  split; [|split].
  - exists sys. split; [exact Hsys|].
    destruct (Hcap _ _ Hsys) as (a & rest & c1 & c2 & Hin & Ha).
    pick_group Hin.
    eapply system_text; exact Ha.
  - destruct (group m 4) as [d|] eqn:Hd; [|now left]. right.
    exists d. split; [|reflexivity].
    destruct (Hcap _ _ Hd) as (a & rest & c1 & c2 & Hin & Ha).
    pick_group Hin.
    eapply plus_digit_text; exact Ha.
  - destruct (group m 6) as [d|] eqn:Hd; [|now left]. right.
    exists d. split; [|reflexivity].
    destruct (Hcap _ _ Hd) as (a & rest & c1 & c2 & Hin & Ha).
    pick_group Hin.
    eapply plus_digit_text; exact Ha.
Qed.

Lemma index_ok {A : Type} (l : list A) (i : nat) :
  i < List.length l -> exists a : A, Py.index l i = Ok a /\ In a l.
Proof.
  intros Hi. unfold Py.index.
  destruct (nth_error l i) as [a|] eqn:Hnth.
  - exists a. split; [reflexivity | eapply nth_error_In; eassumption].
  - apply nth_error_None in Hnth. lia.
Qed.

Lemma index_end_ok {A : Type} (l : list A) (i : nat) :
  1 <= i <= List.length l ->
  exists a : A, Py.index_end l i = Ok a /\ In a l.
Proof.
  intros Hi. unfold Py.index_end.
  replace (List.length l <? i) with false
    by (symmetry; apply Nat.ltb_ge; lia).
  apply index_ok. lia.
Qed.

Lemma text_cell (r : row) (c : cell) :
  text_row r -> In c r -> exists s : string, c = Some s.
Proof.
  unfold text_row. rewrite Forall_forall. intros Hr Hc.
  destruct c as [s|]; [now exists s|]. now destruct (Hr None Hc).
Qed.

Lemma first_match_text (p : regex) (cells : list cell) :
  Forall (fun c => c <> None) cells ->
  first_match p cells = Ok None
  \/ exists (s : string) (m : caps),
      first_match p cells = Ok (Some m) /\ re_match false p s = Some m.
Proof.
  induction 1 as [|c cells Hc _ IH]; simpl; [now left|].
  destruct c as [s|]; [|contradiction]. simpl.
  destruct (re_match false p s) as [m|] eqn:Hm; [|exact IH].
  right. now exists s, m.
Qed.

(** One row of more than eight cells of text adds at most one transponder,
    of the expected shape, and cannot raise. *)
Lemma lyng_sat_row_text `{ECommons} (l : list Transponder) (r : row) :
  text_row r -> 8 < List.length r ->
  exists new : list Transponder,
    lyng_sat_row l r = Ok (l ++ new)
    /\ List.length new <= 1
    /\ Forall lyng_sat_fields new.
Proof.
  intros Htext Hlen.
  assert (Hskip : exists new : list Transponder,
             Ok l = Ok (l ++ new) /\ List.length new <= 1
             /\ Forall lyng_sat_fields new).
  { exists []. rewrite app_nil_r. repeat split; [simpl; lia | constructor]. }
  unfold lyng_sat_row.
  destruct (@index_ok _ r 1) as (r1 & -> & Hr1); [lia|].
  destruct (@index_ok _ r 2) as (r2 & -> & Hr2); [lia|].
  destruct (@index_ok _ r 3) as (r3 & -> & Hr3); [lia|].
  cbn [bind].
  destruct (@first_match_text frq_pol_pattern [r1; r2; r3])
    as [->|(s & freq & -> & Hfreq)].
  { unfold text_row in Htext. rewrite Forall_forall in Htext.
    repeat constructor; now apply Htext. }
  { exact Hskip. }
  cbn [bind].
  destruct (@index_end_ok _ r 3) as (c3 & -> & Hc3); [lia|].
  destruct (@text_cell r c3 Htext Hc3) as [s3 ->]. cbn [bind as_str].
  destruct (re_match false sr_fec_pattern s3) as [sr_fec|] eqn:Hsr;
    [|exact Hskip].
  destruct (@index_end_ok _ r 4) as (c4 & -> & Hc4); [lia|].
  destruct (@text_cell r c4 Htext Hc4) as [s4 ->]. cbn [bind as_str].
  destruct (re_match true sys_pattern s4) as [res|] eqn:Hres;
    [|exact Hskip].
  apply frq_pol_groups in Hfreq as (frq & pol & -> & -> & Hfrq & Hpol).
  apply sr_fec_groups in Hsr as (sr & fec & -> & -> & Hsr & Hfec).
  apply sys_groups in Hres as ((sys & -> & Hsys) & Hcode & Hid).
  cbn [bind as_str].
  match goal with
  | |- context [if is_transponder_valid ?t then _ else _] =>
      destruct (is_transponder_valid t); [exists [t] | exact Hskip]
  end.
  repeat split; [simpl; lia|].
  constructor; [|constructor].
  unfold lyng_sat_fields. cbn [frequency symbol_rate polarization fec_inner
    system pls_code is_id].
  repeat split; eauto.
Qed.

(** The loop of lines 218-247 over rows of more than eight cells of
    text. *)
Lemma lyng_sat_rows_text `{ECommons} (wide : list row)
  (trs0 : list Transponder) :
  Forall (fun r => text_row r /\ 8 < List.length r) wide ->
  exists new : list Transponder,
    lyng_sat_rows trs0 wide = Ok (trs0 ++ new)
    /\ List.length new <= List.length wide
    /\ Forall lyng_sat_fields new.
Proof.
  intros Hwide. revert trs0.
  induction Hwide as [|r wide [Htext Hlen] _ IH]; intros trs0.
  - exists []. rewrite app_nil_r. repeat split; [simpl; lia | constructor].
  - destruct (@lyng_sat_row_text _ trs0 r Htext Hlen)
      as (new1 & Hrow & Hlen1 & Hshape1).
    destruct (IH (trs0 ++ new1)) as (new2 & Hrest & Hlen2 & Hshape2).
    exists (new1 ++ new2). cbn [lyng_sat_rows]. rewrite Hrow. cbn [bind].
    rewrite Hrest, app_assoc. repeat split.
    + rewrite length_app. simpl. lia.
    + now apply Forall_app.
Qed.

Lemma wide_text_rows (rows : list row) :
  Forall text_row rows ->
  Forall (fun r => text_row r /\ 8 < List.length r)
    (filter (fun x => 8 <? List.length x) rows).
Proof.
  intros Hrows. apply Forall_forall. intros r Hr.
  apply filter_In in Hr as [Hr Hw].
  rewrite Forall_forall in Hrows. split; [now apply Hrows|].
  now apply Nat.ltb_lt.
Qed.

(** X4.  On rows of text the second provider's extractor cannot raise.  It
    keeps the transponders it was given, in front, and adds at most one for
    each row of more than eight cells.  Each one it adds has a frequency
    and a symbol rate of four or five digits followed by 000, a
    polarization among R, L, H, V, a FEC of the form digit/digit, a system
    that reads DVB-S or DVB-S2 in some letter case, and a PLS code and a
    stream id that are [None] or decimal. *)
Theorem lyng_sat_transponders_shape :
  forall (tables : ECommons) (rows : list row) (trs0 : list Transponder),
    Forall text_row rows ->
    exists new : list Transponder,
      get_transponders_for_lyng_sat rows trs0 = Ok (trs0 ++ new)
      /\ List.length new
         <= List.length (filter (fun x => 8 <? List.length x) rows)
      /\ Forall lyng_sat_fields new.
Proof.
  intros tables rows trs0 Hrows. unfold get_transponders_for_lyng_sat.
  destruct (@lyng_sat_rows_text tables _ trs0 (@wide_text_rows rows Hrows))
    as (new & Hnew & Hlen & Hshape).
  exists new. now repeat split.
Qed.

Lemma lyng_sat_transponders_shape_witness :
  exists new : list Transponder,
    get_transponders_for_lyng_sat (H := sample_tables)
      (_rows (snd (feed sample_lyng_sat_page (init LYNGSAT false " "))))
      [tp_11727]
    = Ok ([tp_11727] ++ new)
    /\ List.length new
       <= List.length
            (filter (fun x => 8 <? List.length x)
               (_rows (snd (feed sample_lyng_sat_page
                              (init LYNGSAT false " ")))))
    /\ Forall lyng_sat_fields new.
Proof.
  apply (@lyng_sat_transponders_shape sample_tables).
  vm_compute. repeat constructor; discriminate.
Defined.

(** ** More on the tokenizer *)

Lemma handle_starttag_ok (tag : string) (attrs : list (string * cell))
  (p : SatellitesParser) :
  (tag = "a" -> attrs <> []) ->
  exists p' : SatellitesParser, handle_starttag tag attrs p = Ok p'.
Proof.
  intros Hattrs. unfold handle_starttag.
  destruct (tag == "a") eqn:Ha; [|eauto].
  apply String.eqb_eq in Ha.
  destruct attrs as [|a0 attrs]; [now destruct (Hattrs Ha)|].
  simpl. eauto.
Qed.

Lemma handle_starttag_raises (tag : string) (attrs : list (string * cell))
  (p : SatellitesParser) (e : exn) :
  handle_starttag tag attrs p = Raise e ->
  e = IndexError /\ tag = "a" /\ attrs = [].
Proof.
  unfold handle_starttag. destruct (tag == "a") eqn:Ha; [|discriminate].
  apply String.eqb_eq in Ha.
  destruct attrs as [|a0 attrs]; [|discriminate].
  simpl. intros [= <-]. now repeat split.
Qed.


Lemma handle_rows (ev : event) (p p' : SatellitesParser) :
  handle ev p = Ok p' ->
  _rows p' = _rows p ++ (if is_end_tr ev then [_current_row p] else [])
  /\ _separator p' = _separator p
  /\ _parse_html_entities p' = _parse_html_entities p.
Proof.
  destruct ev as [tag attrs|data|tag]; cbn [handle is_end_tr].
  - unfold handle_starttag.
    destruct (tag == "td"), (tag == "tr"), (tag == "a");
      try (destruct attrs as [|[name v] rest]; simpl; [discriminate|]);
      intros [= <-]; rewrite app_nil_r; now repeat split.
  - intros [= <-]. unfold handle_data.
    destruct (_is_td p || _is_th p); rewrite app_nil_r; now repeat split.
  - intros [= <-]. unfold handle_endtag.
    destruct (tag == "td") eqn:Htd.
    { apply String.eqb_eq in Htd. subst tag. cbn. rewrite app_nil_r.
      now repeat split. }
    destruct (tag == "th") eqn:Hth.
    { apply String.eqb_eq in Hth. subst tag. cbn. rewrite app_nil_r.
      now repeat split. }
    destruct (tag == "tr"); cbn; rewrite ?app_nil_r; now repeat split.
Qed.

(** X6.  [feed] never drops or changes a row it has accumulated: the rows
    after it are the rows before it followed by new ones, one for each
    [</tr>] when it returns and no more than that when it raises; the
    separator and the entities flag stay as they were. *)
Theorem feed_keeps_rows :
  forall (doc : list event) (p : SatellitesParser),
    exists added : list row,
      _rows (snd (feed doc p)) = _rows p ++ added
      /\ List.length added <= List.length (filter is_end_tr doc)
      /\ (fst (feed doc p) = Ok tt ->
          List.length added = List.length (filter is_end_tr doc))
      /\ _separator (snd (feed doc p)) = _separator p
      /\ _parse_html_entities (snd (feed doc p)) = _parse_html_entities p.
Proof.
  induction doc as [|ev doc IH]; intros p.
  - exists []. cbn. rewrite app_nil_r. repeat split; lia.
  - cbn [feed filter]. destruct (handle ev p) as [p1|e] eqn:Hev.
    + destruct (handle_rows ev p Hev) as (Hrows & Hsep & Hent).
      destruct (IH p1) as (added & Hadded & Hle & Heq & Hsep1 & Hent1).
      exists ((if is_end_tr ev then [_current_row p] else []) ++ added).
      rewrite Hadded, Hrows, Hsep1, Hent1, <- app_assoc.
      split; [reflexivity|].
      destruct (is_end_tr ev); cbn [app List.length];
        repeat split; try assumption; try lia.
      intros Hok. specialize (Heq Hok). lia.
    + exists []. cbn. rewrite app_nil_r.
      repeat split; try lia. discriminate.
Qed.

Lemma feed_keeps_rows_witness :
  List.length (_rows (snd (feed sample_list_page (init FLYSAT false " "))))
  = 4.
Proof.
  destruct (feed_keeps_rows sample_list_page (init FLYSAT false " "))
    as (added & Hrows & _ & Heq & _).
  rewrite Hrows. cbn [_rows init app]. rewrite Heq; reflexivity.
Defined.

Lemma feed_texts (texts : list string) (p : SatellitesParser) :
  _is_th p = true ->
  feed (map Data texts) p
  = (Ok tt, set_current_cell (_current_cell p ++ map Py.strip texts) p).
Proof.
  revert p. induction texts as [|t texts IH]; intros p Hth.
  - destruct p. cbn. now rewrite app_nil_r.
  - cbn [map feed handle]. unfold handle_data at 1.
    rewrite Hth, orb_true_r. rewrite IH by (now destruct p).
    destruct p. cbn. now rewrite <- app_assoc.
Qed.

(** One cell, read inside a row with no cell open: its text goes to the
    end of the current row. *)
Lemma feed_cell (header : bool) (texts : list string)
  (p : SatellitesParser) :
  _is_th p = true -> _current_cell p = [] ->
  exists p' : SatellitesParser,
    feed (cell_events header texts) p = (Ok tt, p')
    /\ _current_row p' = _current_row p ++ [cell_text (_separator p) texts]
    /\ _current_cell p' = [] /\ _is_th p' = true
    /\ _rows p' = _rows p /\ _separator p' = _separator p.
Proof.
  intros Hth Hcell. unfold cell_events.
  destruct p as [ent sep is_td is_th prov cur cc rows src].
  cbn in Hth, Hcell. subst is_th cc.
  destruct header.
  - change (StartTag "th" [] :: map Data texts ++ [EndTag "th"])
      with ([StartTag "th" []] ++ map Data texts ++ [EndTag "th"]).
    rewrite feed_app. cbn [feed handle]. cbn.
    rewrite feed_app, feed_texts by reflexivity. cbn.
    eexists. split; [reflexivity|]. now repeat split.
  - change (StartTag "td" [] :: map Data texts ++ [EndTag "td"])
      with ([StartTag "td" []] ++ map Data texts ++ [EndTag "td"]).
    rewrite feed_app. cbn [feed handle]. cbn.
    rewrite feed_app, feed_texts by reflexivity. cbn.
    eexists. split; [reflexivity|]. now repeat split.
Qed.

Lemma feed_cells (cells : list (bool * list string))
  (p : SatellitesParser) :
  _is_th p = true -> _current_cell p = [] ->
  exists p' : SatellitesParser,
    feed (List.concat (map (fun c => cell_events (fst c) (snd c)) cells)) p
    = (Ok tt, p')
    /\ _current_row p'
       = _current_row p
           ++ map (fun c => cell_text (_separator p) (snd c)) cells
    /\ _current_cell p' = [] /\ _is_th p' = true
    /\ _rows p' = _rows p /\ _separator p' = _separator p.
Proof.
  revert p. induction cells as [|[header texts] cells IH]; intros p Hth Hcell.
  - exists p. cbn. rewrite app_nil_r. now repeat split.
  - cbn [map List.concat fst snd]. rewrite feed_app.
    destruct (feed_cell header texts p Hth Hcell)
      as (p1 & -> & Hrow1 & Hcell1 & Hth1 & Hrows1 & Hsep1).
    destruct (IH p1 Hth1 Hcell1)
      as (p2 & -> & Hrow2 & Hcell2 & Hth2 & Hrows2 & Hsep2).
    exists p2. split; [reflexivity|].
    rewrite Hrow2, Hrow1, Hsep1, <- app_assoc, Hrows2, Hrows1, Hsep2.
    now repeat split.
Qed.



Lemma handle_passing (ev : event) (p : SatellitesParser) :
  passing ev = true -> _is_td p = false -> _is_th p = false ->
  handle ev p = Ok p.
Proof.
  intros Hev Htd Hth. destruct ev as [tag attrs|data|tag]; cbn in *.
  - unfold handle_starttag.
    destruct (tag == "td"), (tag == "tr"), (tag == "a");
      try discriminate. reflexivity.
  - unfold handle_data. now rewrite Htd, Hth.
  - unfold handle_endtag.
    destruct (tag == "td"), (tag == "th"), (tag == "tr");
      try discriminate. reflexivity.
Qed.

(** X8.  Outside a row and a cell, text is dropped and tags other than
    [td], [th], [tr] and [a] are ignored: a document made of these leaves
    the parser exactly as it was. *)
Theorem feed_outside_rows :
  forall (doc : list event) (p : SatellitesParser),
    _is_td p = false -> _is_th p = false ->
    forallb passing doc = true ->
    feed doc p = (Ok tt, p).
Proof.
  induction doc as [|ev doc IH]; intros p Htd Hth Hdoc; [reflexivity|].
  cbn [forallb] in Hdoc. apply andb_true_iff in Hdoc as [Hev Hdoc].
  cbn [feed]. rewrite (handle_passing ev p Hev Htd Hth). now apply IH.
Qed.

Lemma feed_outside_rows_witness :
  feed [StartTag "html" []; StartTag "body" [("class", Some "x")];
        Data "Satellites"; StartTag "th" []; StartTag "br" [];
        EndTag "body"; EndTag "a"; EndTag "html"]
    (init FLYSAT false " ")
  = (Ok tt, init FLYSAT false " ").
Proof.
  apply feed_outside_rows; reflexivity.
Defined.

(** ** More on the satellite list *)

Lemma fetch_sources_app (requests_get : string -> fetched)
  (a b : list string) (w : world) :
  fetch_sources requests_get (a ++ b) w
  = match fetch_sources requests_get a w with
    | (Ok None, w1) => fetch_sources requests_get b w1
    | other => other
    end.
Proof.
  revert w. induction a as [|src a IH]; intros w; [reflexivity|].
  cbn [app fetch_sources].
  destruct (requests_get src) as [e|reason text].
  - now destruct (is_connection_error e).
  - destruct (reason == "OK"); [|apply IH].
    destruct (feed text (self w)) as [[u|e] p]; [apply IH | reflexivity].
Qed.



Lemma fetch_sources_source (requests_get : string -> fetched)
  (srcs : list string) (w : world) :
  _source (self (snd (fetch_sources requests_get srcs w))) = _source (self w).
Proof.
  revert w. induction srcs as [|src srcs IH]; intros w; [reflexivity|].
  cbn [fetch_sources]. destruct (requests_get src) as [e|reason text].
  - now destruct (is_connection_error e).
  - destruct (reason == "OK"); [|now rewrite IH].
    destruct (feed text (self w)) as [[u|e] p] eqn:Hfeed.
    + rewrite IH. cbn. change p with (snd (Ok u, p)).
      rewrite <- Hfeed. apply feed_source.
    + cbn. change p with (snd (@Raise unit e, p)).
      rewrite <- Hfeed. apply feed_source.
Qed.

Lemma flysat_tuple_well_formed (r : row) :
  five_full_cells r = true -> well_formed_satellite (flysat_tuple r).
Proof.
  intros Hr. unfold five_full_cells in Hr.
  apply andb_true_iff in Hr as [Hcells Hlen]. apply Nat.eqb_eq in Hlen.
  destruct r as [|c0 [|c1 [|c2 [|c3 [|c4 [|c5 r]]]]]]; try discriminate.
  cbn [forallb] in Hcells. rewrite !andb_true_iff in Hcells.
  destruct Hcells as (H0 & H1 & H2 & H3 & _).
  unfold flysat_tuple, well_formed_satellite. cbn [nth].
  repeat split; try assumption.
  rewrite parse_position_filter. apply Forall_forall.
  intros c Hc. apply filter_In in Hc. tauto.
Qed.

(** X10.  Every satellite the first provider's list holds has a name, a
    category and a detail address that are non-empty text, the flag
    [False], and a position made only of digits, letters and points. *)
Theorem flysat_satellites_well_formed :
  forall (requests_get : string -> fetched)
         (adapter : list row -> result (list satellite))
         (w : world) (l : list satellite),
    fst (get_satellites_list requests_get adapter FLYSAT w) = Ok (Some l) ->
    Forall well_formed_satellite l.
Proof.
  intros requests_get adapter w l. unfold get_satellites_list.
  change (_source (enter_get_satellites_list FLYSAT (self w))) with FLYSAT.
  pose proof (fetch_sources_source requests_get (get_sources FLYSAT)
                (with_self (enter_get_satellites_list FLYSAT (self w)) w))
    as Hsrc.
  destruct (fetch_sources requests_get (get_sources FLYSAT)
              (with_self (enter_get_satellites_list FLYSAT (self w)) w))
    as [[[early|]|e] w'] eqn:Hloop; cbn [fst]; [| |discriminate].
  - intros [= <-]. revert Hloop. cbn [get_sources fetch_sources].
    destruct (requests_get _) as [e|reason text].
    + destruct (is_connection_error e); [|discriminate].
      intros [= <- _]. constructor.
    + destruct (reason == "OK").
      * destruct (feed text _) as [[u|e] p]; discriminate.
      * discriminate.
  - cbn [snd] in Hsrc. unfold satellites_of_rows.
    cbn [self with_self _source enter_get_satellites_list set_source]
      in Hsrc.
    rewrite Hsrc. destruct (_rows (self w')) as [|r rows]; [discriminate|].
    generalize (r :: rows) as rs. intros rs.
    rewrite mapM_get_sat_kept. cbn [bind]. intros [= <-].
    apply Forall_forall. intros t Ht.
    apply in_map_iff in Ht as (r0 & <- & Hr0).
    apply filter_In in Hr0 as [_ Hr0]. now apply flysat_tuple_well_formed.
Qed.

Lemma flysat_satellites_well_formed_witness :
  Forall well_formed_satellite
    [(Some "Hot Bird", "13.0E", Some "Ku", Some "hotbird.php", false);
     (Some "Thor", "1.0W", Some "Ku", Some "thor.php", false)].
Proof.
  apply (@flysat_satellites_well_formed
           (always (Response "OK" sample_list_page)) (fun _ => Ok [])
           (fresh FLYSAT)).
  vm_compute. reflexivity.
Defined.

Lemma get_satellites_list_source (requests_get : string -> fetched)
  (adapter : list row -> result (list satellite))
  (source : SatelliteSource) (w : world) :
  _source (self (snd (get_satellites_list requests_get adapter source w)))
  = source.
Proof.
  unfold get_satellites_list.
  pose proof (fetch_sources_source requests_get
                (get_sources
                   (_source (enter_get_satellites_list source (self w))))
                (with_self (enter_get_satellites_list source (self w)) w))
    as Hsrc.
  destruct (fetch_sources requests_get _ _) as [[[early|]|e] w'];
    exact Hsrc.
Qed.

(** X11.  [get_satellites_list] leaves the parser set to the provider it
    was called for, whether it returns or raises; the next
    [get_transponders] then asks the network for one address only, the
    detail address behind the first provider's site for the first provider
    and the address as it is for the second, and nothing else of the
    network matters to it. *)
Theorem get_transponders_address :
  forall (tables : ECommons) (requests_get : string -> fetched)
         (adapter : list row -> result (list satellite))
         (source : SatelliteSource) (w : world)
         (get1 get2 : string -> fetched) (sat_url : string),
    get1 (detail_address source sat_url)
    = get2 (detail_address source sat_url) ->
    get_transponders get1 sat_url
      (snd (get_satellites_list requests_get adapter source w))
    = get_transponders get2 sat_url
        (snd (get_satellites_list requests_get adapter source w)).
Proof.
  intros tables requests_get adapter source w get1 get2 sat_url Hsame.
  pose proof (get_satellites_list_source requests_get adapter source w)
    as Hsrc.
  destruct (snd (get_satellites_list requests_get adapter source w))
    as [p logged]. cbn [self] in Hsrc.
  unfold get_transponders, detail_address in *.
  cbn [self enter_get_transponders set_rows _source].
  rewrite Hsrc. now rewrite Hsame.
Qed.

Lemma get_transponders_address_witness :
  get_transponders (H := sample_tables)
    (only_page "https://www.flysat.com/hotbird.php" sample_fly_sat_page)
    "hotbird.php"
    (snd (get_satellites_list (always (Response "OK" sample_list_page))
            (fun _ => Ok []) FLYSAT (fresh LYNGSAT)))
  = get_transponders (H := sample_tables)
      (always (Response "OK" sample_fly_sat_page)) "hotbird.php"
      (snd (get_satellites_list (always (Response "OK" sample_list_page))
              (fun _ => Ok []) FLYSAT (fresh LYNGSAT))).
Proof.
  apply get_transponders_address. reflexivity.
Defined.

(** ** The second provider's satellite list *)

Unset Implicit Arguments.

Section LyngSatListFacts.
Variable set_order : list string -> list string.

Lemma lyng_sat_list_rows_app (a b : list row)
  (st : list satellite * string) :
  lyng_sat_list_rows set_order st (a ++ b)
  = (st' <- lyng_sat_list_rows set_order st a ;;
     lyng_sat_list_rows set_order st' b).
Proof.
  revert st. induction a as [|r a IH]; intros st; simpl; [reflexivity|].
  destruct (lyng_sat_list_row set_order st r) as [st1|e]; simpl;
    [apply IH | reflexivity].
Qed.

(** A row of seven cells of text: two tuples, with the position and the
    category of the row. *)
Lemma lyng_sat_list_row_7 (st : list satellite * string) (r : row) :
  List.length r = 7 -> text_row r ->
  exists (s1 s2 s3 : string) (t1 t2 : satellite),
    nth_error r 1 = Some (Some s1) /\ nth_error r 2 = Some (Some s2)
    /\ nth_error r 3 = Some (Some s3)
    /\ lyng_sat_list_row set_order st r
       = Ok (fst st ++ [t1; t2], parse_position s2)
    /\ t1 = (Some (name_of_url s1), parse_position s2, nth 5 r None,
             Some (base_url ++ s1)%string, false)
    /\ t2 = (nth 4 r None, parse_position s2, nth 5 r None,
             Some (base_url ++ s3)%string, false).
Proof.
  intros Hlen Htext.
  destruct r as [|c0 [|c1 [|c2 [|c3 [|c4 [|c5 [|c6 [|c7 r]]]]]]]];
    try discriminate.
  unfold text_row in Htext. rewrite Forall_forall in Htext.
  destruct c1 as [s1|]; [|now destruct (Htext None); simpl; tauto].
  destruct c2 as [s2|]; [|now destruct (Htext None); simpl; tauto].
  destruct c3 as [s3|]; [|now destruct (Htext None); simpl; tauto].
  exists s1, s2, s3. eexists. eexists. repeat split.
Qed.

(** A row of five cells of text: one tuple, with the position carried
    over. *)
Lemma lyng_sat_list_row_5 (st : list satellite * string) (r : row) :
  List.length r = 5 -> text_row r ->
  exists s1 : string,
    nth_error r 1 = Some (Some s1)
    /\ lyng_sat_list_row set_order st r
       = Ok (fst st
               ++ [(nth 2 r None, snd st, nth 3 r None,
                    Some (base_url ++ s1)%string, false)],
             snd st).
Proof.
  intros Hlen Htext.
  destruct r as [|c0 [|c1 [|c2 [|c3 [|c4 [|c5 r]]]]]]; try discriminate.
  unfold text_row in Htext. rewrite Forall_forall in Htext.
  destruct c1 as [s1|]; [|now destruct (Htext None); simpl; tauto].
  exists s1. split; reflexivity.
Qed.

Lemma lyng_sat_list_rows_fives (fives : list row)
  (st : list satellite * string) :
  Forall (fun r => text_row r /\ List.length r = 5) fives ->
  lyng_sat_list_rows set_order st fives
  = Ok (fst st ++ map (plain_tuple (snd st)) fives, snd st).
Proof.
  intros Hfives. revert st.
  induction Hfives as [|r fives [Htext Hlen] _ IH]; intros st.
  - cbn. rewrite app_nil_r. now destruct st.
  - destruct (lyng_sat_list_row_5 st r Hlen Htext) as (s1 & Hs1 & Hrow).
    cbn [lyng_sat_list_rows]. rewrite Hrow. cbn [bind]. rewrite IH.
    cbn [fst snd map]. rewrite <- app_assoc. cbn [app].
    unfold plain_tuple at 2.
    now rewrite (nth_error_nth r 1 None Hs1).
Qed.

Lemma plain_tuples_position (pos : string) (fives : list row) :
  Forall (fun t => tuple_position t = pos) (map (plain_tuple pos) fives).
Proof.
  apply Forall_forall. intros t Ht.
  apply in_map_iff in Ht as (r & <- & _). reflexivity.
Qed.

Lemma filter_widths_same (rows : list row) :
  Forall (fun r => width_5_7_8 r = true) rows ->
  filter width_5_7_8 rows = rows.
Proof.
  induction 1 as [|r rows Hr _ IH]; simpl; [reflexivity|].
  now rewrite Hr, IH.
Qed.

(** X12.  After any rows, a row of seven cells of text followed by rows of
    five cells of text adds two satellites for the first and one for each
    of the others, and all of them carry the position read from the third
    cell of the row of seven. *)
Theorem lyng_sat_group_position :
  forall (pre fives : list row) (r7 : row) (l0 : list satellite)
         (pos_text : string),
    lyng_sat_list set_order pre = Ok l0 ->
    List.length r7 = 7 -> text_row r7 ->
    nth_error r7 2 = Some (Some pos_text) ->
    Forall (fun r => text_row r /\ List.length r = 5) fives ->
    exists l1 : list satellite,
      lyng_sat_list set_order (pre ++ r7 :: fives) = Ok (l0 ++ l1)
      /\ List.length l1 = 2 + List.length fives
      /\ Forall (fun t => tuple_position t = parse_position pos_text) l1.
Proof.
  intros pre fives r7 l0 pos_text Hpre Hlen Htext Hpos Hfives.
  unfold lyng_sat_list in *.
  destruct (lyng_sat_list_rows set_order ([], "0") (filter width_5_7_8 pre))
    as [st0|e] eqn:Hst0; [|discriminate].
  cbn [bind] in Hpre. injection Hpre as <-.
  assert (Hkeep : filter width_5_7_8 (r7 :: fives) = r7 :: fives).
  { apply filter_widths_same. constructor.
    - unfold width_5_7_8. now rewrite Hlen.
    - eapply Forall_impl; [|exact Hfives].
      intros r [_ Hr]. unfold width_5_7_8. now rewrite Hr. }
  rewrite filter_app, Hkeep, lyng_sat_list_rows_app, Hst0.
  cbn [bind lyng_sat_list_rows].
  destruct (lyng_sat_list_row_7 st0 r7 Hlen Htext)
    as (s1 & s2 & s3 & t1 & t2 & _ & H2 & _ & -> & -> & ->).
  rewrite Hpos in H2. injection H2 as <-. cbn [bind].
  rewrite (lyng_sat_list_rows_fives fives _ Hfives).
  cbn [bind fst snd]. eexists (_ :: _ :: map _ fives).
  rewrite <- app_assoc. split; [reflexivity|].
  split; [simpl; now rewrite length_map|].
  constructor; [reflexivity|]. constructor; [reflexivity|].
  apply plain_tuples_position.
Qed.

(** X13.  Rows of five cells of text that come before any row of seven or
    eight cells give one satellite each, in order, at the position ["0"]:
    name and category from the third and fourth cells, address from the
    second behind the address of the site, flag [False]. *)
Theorem lyng_sat_first_rows :
  forall fives : list row,
    Forall (fun r => text_row r /\ List.length r = 5) fives ->
    lyng_sat_list set_order fives = Ok (map (plain_tuple "0") fives).
Proof.
  intros fives Hfives. unfold lyng_sat_list.
  rewrite filter_widths_same.
  - now rewrite (lyng_sat_list_rows_fives fives _ Hfives).
  - eapply Forall_impl; [|exact Hfives].
    intros r [_ Hr]. unfold width_5_7_8. now rewrite Hr.
Qed.

End LyngSatListFacts.

Lemma lyng_sat_group_position_witness :
  exists l1 : list satellite,
    lyng_sat_list first_seen
      ([plain_row "a.html" "A" "C"]
         ++ group_row :: [plain_row "b.html" "B" "Ku"])
    = Ok ([(Some "A", "0", Some "C",
            Some "https://www.lyngsat.com/a.html", false)] ++ l1)
    /\ List.length l1 = 2 + 1
    /\ Forall (fun t => tuple_position t = parse_position "78.5 E") l1.
Proof.
  apply (@lyng_sat_group_position first_seen
           [plain_row "a.html" "A" "C"] [plain_row "b.html" "B" "Ku"]
           group_row).
  - vm_compute. reflexivity.
  - reflexivity.
  - repeat constructor; discriminate.
  - reflexivity.
  - repeat constructor; discriminate.
Defined.

Lemma lyng_sat_first_rows_witness :
  lyng_sat_list first_seen
    [plain_row "a.html" "A" "C"; plain_row "b.html" "B" "Ku"]
  = Ok [(Some "A", "0", Some "C",
         Some "https://www.lyngsat.com/a.html", false);
        (Some "B", "0", Some "Ku",
         Some "https://www.lyngsat.com/b.html", false)].
Proof.
  apply (lyng_sat_first_rows first_seen
           [plain_row "a.html" "A" "C"; plain_row "b.html" "B" "Ku"]).
  repeat constructor; discriminate.
Defined.

Section LyngSatListMore.
Variable set_order : list string -> list string.

Lemma lyng_sat_list_row_on_site (st st' : list satellite * string)
  (r : row) :
  Forall on_site (fst st) ->
  lyng_sat_list_row set_order st r = Ok st' ->
  Forall on_site (fst st').
Proof.
  intros Hst Hrow. unfold lyng_sat_list_row, bind in Hrow.
  match type of Hrow with
  | match ?seven with _ => _ end = _ =>
      destruct seven as [st7|e] eqn:Hseven; [|discriminate]
  end.
  assert (Hst7 : Forall on_site (fst st7)).
  { break_result Hseven; injection Hseven as <-; cbn [fst];
      try assumption.
    apply Forall_app. split; [assumption|].
    repeat constructor; cbn; eauto. }
  clear Hseven.
  break_result Hrow; injection Hrow as <-; cbn [fst]; try assumption;
    apply Forall_app; split; try assumption.
  - apply Forall_forall. intros t Ht.
    apply in_map_iff in Ht as (u & <- & _). split; cbn; eauto.
  - repeat constructor; cbn; eauto.
Qed.

(** X14.  Whatever the rows and the order of the sets, every satellite of
    the second provider's list has the flag [False] and a detail address
    that starts with the address of the site. *)
Theorem lyng_sat_list_on_site :
  forall (rows : list row) (l : list satellite),
    lyng_sat_list set_order rows = Ok l -> Forall on_site l.
Proof.
  intros rows l. unfold lyng_sat_list.
  assert (Hloop : forall (rs : list row) (st st' : list satellite * string),
             Forall on_site (fst st) ->
             lyng_sat_list_rows set_order st rs = Ok st' ->
             Forall on_site (fst st')).
  { induction rs as [|r rs IH]; intros st st' Hst; cbn [lyng_sat_list_rows].
    - now intros [= <-].
    - destruct (lyng_sat_list_row set_order st r) as [st1|e] eqn:Hrow;
        cbn [bind]; [|discriminate].
      apply IH. eapply lyng_sat_list_row_on_site; eassumption. }
  destruct (lyng_sat_list_rows set_order ([], "0")
              (filter width_5_7_8 rows)) as [st|e] eqn:Hrows;
    cbn [bind]; [|discriminate].
  intros [= <-]. eapply Hloop; [|exact Hrows]. constructor.
Qed.

End LyngSatListMore.

Lemma lyng_sat_list_on_site_witness :
  Forall on_site
    [(Some "Thaicom 4", "78.5E", Some "CKu",
      Some "https://www.lyngsat.com/Thaicom-4.html", false);
     (Some "Thaicom 6", "78.5E", Some "CKu",
      Some "https://www.lyngsat.com/Thaicom-6.html", false)].
Proof.
  apply (lyng_sat_list_on_site first_seen [group_row]).
  vm_compute. reflexivity.
Defined.

Lemma str_app (a b : list ascii) :
  Py.str (a ++ b) = (Py.str a ++ Py.str b)%string.
Proof.
  induction a as [|x a IH]; [reflexivity|].
  unfold Py.str in *. simpl. now rewrite IH.
Qed.

(** What the address pattern matches: the address of the site, something,
    and .html. *)
Lemma extra_pattern_text (d : string) (m : caps) :
  re_match false extra_pattern d = Some m ->
  exists word : string,
    group m 0 = Some (base_url ++ word ++ ".html")%string.
Proof.
  intros Hm. apply re_match_groups in Hm as [Hsure Hcap].
  destruct (Hsure 0) as [u Hu]; [simpl; tauto|].
  destruct (Hcap _ _ Hu) as (a & rest & c1 & c2 & Hin & Ha).
  pick_group Hin. cbn [snd] in Ha. unfold Plus in Ha.
  inversion Ha as [| | |? ? ? ? ? ? ? ? Hbol H1| | | | | | |]; subst.
  inversion Hbol; subst.
  inversion H1 as [| | |? ? ? ? ? ? ? ? Hsite H2| | | | | | |]; subst.
  inversion Hsite as [|? ? ? ? Hlit| | | | | | | | |]; subst.
  inversion H2 as [| | |? ? ? ? ? ? ? ? Hword Hhtml| | | | | | |]; subst.
  inversion Hhtml as [|? ? ? ? Hlit2| | | | | | | | |]; subst.
  apply lit_match_exact in Hlit, Hlit2.
  destruct (matches_suffix Hword) as [pre Hpre].
  exists (Py.str pre). rewrite Hu. f_equal.
  assert (Hchars : Py.chars u
                   = Py.chars base_url ++ pre ++ Py.chars ".html").
  { apply (app_inv_tail rest). rewrite Hlit, Hpre, Hlit2.
    now rewrite <- !app_assoc. }
  rewrite <- (str_chars u), Hchars, !str_app, !str_chars. reflexivity.
Qed.

Lemma scan_cells_shape (data : list string) (acc : list string * string) :
  Forall (fun u => exists word : string,
              u = (base_url ++ word ++ ".html")%string) (fst acc) ->
  In (snd acc) [""; "C"; "Ku"; "CKu"] ->
  Forall (fun u => exists word : string,
              u = (base_url ++ word ++ ".html")%string)
         (fst (fold_left scan_cell data acc))
  /\ In (snd (fold_left scan_cell data acc)) [""; "C"; "Ku"; "CKu"].
Proof.
  revert acc. induction data as [|d data IH]; intros acc Hurls Hband;
    [now split|].
  cbn [fold_left]. apply IH.
  - unfold scan_cell. cbn [fst].
    destruct (re_match false extra_pattern d) as [m|] eqn:Hm; [|exact Hurls].
    destruct (extra_pattern_text d m Hm) as [word ->].
    apply Forall_app. split; [exact Hurls|].
    constructor; [now exists word | constructor].
  - unfold scan_cell. cbn [snd].
    destruct (d == "C") eqn:HC;
      [apply String.eqb_eq in HC; subst; simpl; tauto|].
    destruct (d == "Ku") eqn:HKu;
      [apply String.eqb_eq in HKu; subst; simpl; tauto|].
    destruct (d == "CKu") eqn:HCKu;
      [apply String.eqb_eq in HCKu; subst; simpl; tauto|].
    exact Hband.
Qed.

Section LyngSatExtraRows.
Variable set_order : list string -> list string.
Hypothesis set_members : members_only set_order.

Lemma lyng_sat_list_row_8 (st st' : list satellite * string) (r : row) :
  List.length r = 8 ->
  Forall from_extra_row (fst st) ->
  lyng_sat_list_row set_order st r = Ok st' ->
  Forall from_extra_row (fst st').
Proof.
  intros Hlen Hst Hrow. unfold lyng_sat_list_row, bind in Hrow.
  rewrite Hlen in Hrow. cbn [Nat.eqb] in Hrow.
  destruct (Py.index (truthy_cells r) 1) as [d1|e]; [|discriminate].
  injection Hrow as <-. cbn [fst].
  apply Forall_app. split; [exact Hst|].
  destruct (scan_cells_shape (truthy_cells r) ([], ""))
    as [Hurls Hband]; [constructor | simpl; tauto|].
  apply Forall_forall. intros t Ht.
  apply in_map_iff in Ht as (u & <- & Hu). apply set_members in Hu.
  rewrite Forall_forall in Hurls. destruct (Hurls u Hu) as [word ->].
  unfold from_extra_row. cbn. split; [now exists word|].
  split; [|reflexivity].
  cbn in Hband. destruct Hband as [<-|[<-|[<-|[<-|[]]]]]; tauto.
Qed.


End LyngSatExtraRows.

Lemma first_seen_members : members_only first_seen.
Proof.
  intros added x Hx. unfold first_seen in Hx.
  now apply nodup_In in Hx.
Qed.


(** ** Names read off addresses *)

Lemma split_chars_not_nil (sep : ascii) (l cur : list ascii) :
  Py.split_chars sep l cur <> [].
Proof.
  revert cur. induction l as [|c l IH]; intros cur; simpl; [discriminate|].
  destruct (Ascii.eqb c sep); [discriminate | apply IH].
Qed.

Lemma split_chars_last (sep : ascii) (l1 l2 cur : list ascii) (d : string) :
  last (Py.split_chars sep (l1 ++ sep :: l2) cur) d
  = last (Py.split_chars sep l2 []) d.
Proof.
  revert cur. induction l1 as [|c l1 IH]; intros cur; cbn [app].
  - cbn [Py.split_chars]. rewrite Ascii.eqb_refl.
    destruct (Py.split_chars sep l2 []) as [|x xs] eqn:Hsplit;
      [now destruct (split_chars_not_nil sep l2 [])|].
    reflexivity.
  - cbn [Py.split_chars]. destruct (Ascii.eqb c sep); [|apply IH].
    destruct (Py.split_chars sep (l1 ++ sep :: l2) []) as [|x xs] eqn:Hsplit;
      [now destruct (split_chars_not_nil sep (l1 ++ sep :: l2) [])|].
    rewrite <- Hsplit. cbn [last]. rewrite Hsplit at 1. apply IH.
Qed.

Lemma split_chars_whole (sep : ascii) (l cur : list ascii) :
  Forall (fun c => c <> sep) l ->
  Py.split_chars sep l cur = [Py.str (rev cur ++ l)].
Proof.
  intros Hl. revert cur.
  induction Hl as [|c l Hc _ IH]; intros cur; cbn [Py.split_chars].
  - now rewrite app_nil_r.
  - apply Ascii.eqb_neq in Hc. rewrite Hc, IH. cbn [rev].
    now rewrite <- app_assoc.
Qed.

Lemma lstrip_of_app (space : ascii -> bool) (a b : list ascii) :
  Forall (fun c => space c = true) a ->
  Py.lstrip_of space (a ++ b) = Py.lstrip_of space b.
Proof.
  induction 1 as [|c a Hc _ IH]; [reflexivity|].
  cbn [app Py.lstrip_of]. now rewrite Hc.
Qed.

Lemma rstrip_of_app (space : ascii -> bool) (a b : list ascii) :
  Forall (fun c => space c = true) b ->
  Py.rstrip_of space (a ++ b) = Py.rstrip_of space a.
Proof.
  intros Hb. unfold Py.rstrip_of. rewrite rev_app_distr, lstrip_of_app.
  - reflexivity.
  - now apply Forall_rev.
Qed.

(** X16.  The name read off an address is what follows its last slash,
    without the ending .html and without any character among . h t m l
    that comes just before that ending, the dashes turned into spaces. *)
Theorem name_of_url_strips_letters :
  forall dir stem : string,
    Forall (fun c => c <> "/"%char) (Py.chars stem) ->
    name_of_url (dir ++ "/" ++ stem ++ ".html")
    = PyStr.replace "-" " " (PyStr.rstrip ".html" stem).
Proof.
  intros dir stem Hstem. unfold name_of_url. f_equal.
  assert (Hlast : PyStr.last_piece "/" (dir ++ "/" ++ stem ++ ".html")
                  = (stem ++ ".html")%string).
  { unfold PyStr.last_piece, Py.split.
    rewrite chars_append.
    change (Py.chars ("/" ++ stem ++ ".html"))
      with ("/"%char :: Py.chars (stem ++ ".html")).
    rewrite split_chars_last, split_chars_whole.
    - cbn [rev app last]. apply str_chars.
    - rewrite chars_append. apply Forall_app. split; [exact Hstem|].
      repeat constructor; discriminate. }
  rewrite Hlast. unfold PyStr.rstrip. f_equal.
  rewrite chars_append. apply rstrip_of_app.
  repeat constructor.
Qed.

Lemma name_of_url_strips_letters_witness :
  name_of_url ("https://www.lyngsat.com" ++ "/" ++ "Eutelsat-7A" ++ ".html")
  = "Eutelsat 7A"
  /\ name_of_url ("https://www.lyngsat.com" ++ "/" ++ "eutelsat" ++ ".html")
     = "eutelsa".
Proof.
  split.
  - rewrite name_of_url_strips_letters; [reflexivity|].
    repeat constructor; discriminate.
  - rewrite name_of_url_strips_letters; [reflexivity|].
    repeat constructor; discriminate.
Defined.

(** ** One satellite *)

Lemma replace_point_app (s : string) (c : ascii) :
  c <> "."%char ->
  PyStr.replace "." "" (s ++ String c "")
  = (PyStr.replace "." "" s ++ String c "")%string.
Proof.
  intros Hc. induction s as [|a s IH]; cbn [append PyStr.replace].
  - destruct (Ascii.eqb c ".") eqn:Heq; [|reflexivity].
    apply Ascii.eqb_eq in Heq. contradiction.
  - destruct (Ascii.eqb a "."); rewrite IH; reflexivity.
Qed.

Lemma replace_points (s : string) :
  Forall (fun c => c = "."%char) (Py.chars s) -> PyStr.replace "." "" s = "".
Proof.
  induction s as [|a s IH]; [reflexivity|].
  intros Hall. inversion Hall as [|? ? Ha Hs]; subst.
  cbn [PyStr.replace]. rewrite Ascii.eqb_refl. now apply IH.
Qed.

(** X17.  For a satellite whose position holds nothing but decimal points,
    or nothing at all, [get_satellite] raises [IndexError] before it asks
    the network for anything: the parser keeps its rows and nothing is
    logged. *)
Theorem get_satellite_no_position :
  forall (tables : ECommons) (requests_get : string -> fetched)
         (sat : satellite) (w : world),
    Forall (fun c => c = "."%char) (Py.chars (tuple_position sat)) ->
    get_satellite requests_get sat w = (Raise IndexError, w).
Proof.
  intros tables requests_get [[[[name pos] cat] url] flag] w Hpos.
  cbn [tuple_position fst snd] in Hpos. unfold get_satellite.
  now rewrite (replace_points pos Hpos).
Qed.

Lemma get_satellite_no_position_witness :
  get_satellite (H := sample_tables)
    (always (Response "OK" sample_fly_sat_page))
    (Some "Hot Bird", "..", Some "Ku", Some "hotbird.php", false)
    (with_self (snd (feed sample_list_page (init FLYSAT false " ")))
       (fresh FLYSAT))
  = (Raise IndexError,
     with_self (snd (feed sample_list_page (init FLYSAT false " ")))
       (fresh FLYSAT)).
Proof.
  apply get_satellite_no_position.
  cbn. repeat constructor.
Defined.

(** X18.  For a satellite with an address whose position ends in a
    character other than the decimal point, [get_satellite] fetches the
    transponders of that address and raises what [get_transponders]
    raises; when that returns, the satellite is named by the position, a
    space and the name, its flags are 0, and its position is the text in
    front of the last character without its decimal points, with a minus
    sign in front exactly when the last character is W. *)
Theorem get_satellite_position :
  forall (tables : ECommons) (requests_get : string -> fetched)
         (name : cell) (deg : string) (c : ascii) (category : cell)
         (url : string) (flag : bool) (w : world),
    c <> "."%char ->
    get_satellite requests_get
      (name, (deg ++ String c "")%string, category, Some url, flag) w
    = (trs <- fst (get_transponders requests_get url w) ;;
       Ok (mkSatellite
             ((deg ++ String c "") ++ " " ++ PyStr.format name)%string
             "0"
             ((if Ascii.eqb c "W" then "-" else "")
                ++ PyStr.replace "." "" deg)%string
             trs),
       snd (get_transponders requests_get url w)).
Proof.
  intros tables requests_get name deg c category url flag w Hc.
  unfold get_satellite.
  rewrite (replace_point_app deg c Hc), get_position_snoc.
  now destruct (get_transponders requests_get url w) as [[trs|e] w'].
Qed.

Lemma get_satellite_position_witness :
  get_satellite (H := sample_tables)
    (always (Response "OK" sample_fly_sat_page))
    (Some "Thor", "0.8W", Some "Ku", Some "thor.php", false) (fresh FLYSAT)
  = (Ok (mkSatellite "0.8W Thor" "0" "-08" [tp_11727]),
     with_self (snd (feed sample_fly_sat_page (init FLYSAT false " ")))
       (fresh FLYSAT)).
Proof.
  etransitivity.
  - apply (@get_satellite_position sample_tables
             (always (Response "OK" sample_fly_sat_page))
             (Some "Thor") "0.8" "W" (Some "Ku") "thor.php" false
             (fresh FLYSAT)).
    discriminate.
  - vm_compute. reflexivity.
Defined.

(** ** The order of equal frequencies *)

Section Stable.
Context {A : Type}.
Variable key : A -> result Z.

Lemma insert_keyed_filter (k0 k : Z) (x : A) (l : list (Z * A)) :
  filter (fun p => (fst p =? k)%Z) (insert_keyed k0 x l)
  = filter (fun p => (fst p =? k)%Z) ((k0, x) :: l).
Proof.
  induction l as [|[k' y] l IH]; [reflexivity|].
  cbn [insert_keyed]. destruct (k0 <=? k')%Z eqn:Hle; [reflexivity|].
  apply Z.leb_gt in Hle. cbn [filter fst] in *. rewrite IH.
  destruct (k' =? k)%Z eqn:E1, (k0 =? k)%Z eqn:E2; try reflexivity.
  apply Z.eqb_eq in E1, E2. lia.
Qed.

Lemma sort_keyed_filter (k : Z) (l : list (Z * A)) :
  filter (fun p => (fst p =? k)%Z) (sort_keyed l)
  = filter (fun p => (fst p =? k)%Z) l.
Proof.
  induction l as [|[k0 x] l IH]; [reflexivity|].
  cbn [sort_keyed]. rewrite insert_keyed_filter.
  cbn [filter fst]. now rewrite IH.
Qed.

Lemma keyed_filter (k : Z) (l : list (Z * A)) :
  Forall (keyed key) l ->
  map snd (filter (fun p => (fst p =? k)%Z) l)
  = filter (has_key key k) (map snd l).
Proof.
  induction 1 as [|[k0 x] l Hk _ IH]; [reflexivity|].
  unfold keyed in Hk. cbn [fst snd] in Hk.
  cbn [filter map fst snd].
  assert (Hx : has_key key k x = (k0 =? k)%Z)
    by (unfold has_key; now rewrite Hk).
  rewrite Hx. destruct (k0 =? k)%Z; cbn [map snd]; now rewrite IH.
Qed.

Lemma sorted_keeps_order (l l' : list A) (k : Z) :
  sorted key l = Ok l' ->
  filter (has_key key k) l' = filter (has_key key k) l.
Proof.
  unfold sorted. destruct (mapM key l) as [keys|e] eqn:Hkeys; simpl;
    [|discriminate].
  intros [= <-]. destruct (combine_keyed key l Hkeys) as [Hall Hsnd].
  rewrite <- keyed_filter.
  - rewrite sort_keyed_filter, keyed_filter by exact Hall. now rewrite Hsnd.
  - eapply Permutation_Forall; [|exact Hall].
    symmetry. apply sort_keyed_perm.
Qed.
End Stable.

(** X19.  The sort by frequency at the end of [get_transponders] loses and
    duplicates nothing, and it is stable: the transponders of one and the
    same frequency come out in the order they went in. *)
Theorem sorted_by_frequency_stable :
  forall l l' : list Transponder,
    sorted int_frequency l = Ok l' ->
    Permutation l' l
    /\ forall k : Z,
        filter (has_key int_frequency k) l'
        = filter (has_key int_frequency k) l.
Proof.
  intros l l' Hsorted. split.
  - now apply (sorted_spec int_frequency l).
  - intros k. now apply sorted_keeps_order.
Qed.

Lemma sorted_by_frequency_stable_witness :
  Permutation
    [replace_is_id tp_11727 (Some "2"); replace_is_id tp_11727 (Some "1");
     tp_12000]
    [tp_12000; replace_is_id tp_11727 (Some "2");
     replace_is_id tp_11727 (Some "1")]
  /\ forall k : Z,
      filter (has_key int_frequency k)
        [replace_is_id tp_11727 (Some "2");
         replace_is_id tp_11727 (Some "1"); tp_12000]
      = filter (has_key int_frequency k)
          [tp_12000; replace_is_id tp_11727 (Some "2");
           replace_is_id tp_11727 (Some "1")].
Proof.
  apply sorted_by_frequency_stable. vm_compute. reflexivity.
Defined.

(** ** The second provider's transponders, from the page to the list *)

Lemma decimal_not_space (c : ascii) :
  Py.isdecimal c = true -> Py.isspace_int c = false.
Proof.
  destruct c as [[] [] [] [] [] [] [] []]; try discriminate; reflexivity.
Qed.

Lemma lstrip_of_head (space : ascii -> bool) (c : ascii) (l : list ascii) :
  space c = false -> Py.lstrip_of space (c :: l) = c :: l.
Proof. intros Hc. cbn [Py.lstrip_of]. now rewrite Hc. Qed.

Lemma int_digits_decimal (l : list ascii) (acc : Z) :
  Forall (fun c => Py.isdecimal c = true) l ->
  exists z : Z, Py.int_digits l acc true = Some z.
Proof.
  intros Hl. revert acc. induction Hl as [|c l Hc _ IH]; intros acc.
  - now exists acc.
  - cbn [Py.int_digits]. rewrite Hc. apply IH.
Qed.

(** [int] reads every non-empty string of decimal digits. *)
Lemma int_decimal (s : string) :
  decimal s -> exists z : Z, Py.int s = Ok z.
Proof.
  intros [Hne Hall]. unfold Py.int.
  destruct (Py.chars s) as [|c l] eqn:Hs.
  { destruct Hne. rewrite <- (str_chars s), Hs. reflexivity. }
  assert (Hc : Py.isdecimal c = true) by now inversion Hall.
  assert (Hl : Forall (fun c => Py.isdecimal c = true) l)
    by now inversion Hall.
  rewrite (lstrip_of_head _ c l (decimal_not_space c Hc)).
  assert (Hstrip : Py.rstrip_of Py.isspace_int (c :: l) = c :: l).
  { unfold Py.rstrip_of.
    assert (Hrev : Forall (fun c => Py.isdecimal c = true) (rev (c :: l)))
      by now apply Forall_rev.
    destruct (rev (c :: l)) as [|x xs] eqn:Hr.
    - apply (f_equal (@rev ascii)) in Hr. rewrite rev_involutive in Hr.
      discriminate Hr.
    - rewrite lstrip_of_head.
      + rewrite <- Hr. apply rev_involutive.
      + apply decimal_not_space. now inversion Hrev. }
  rewrite Hstrip.
  destruct (int_digits_decimal l (10 * 0 + Py.digit_value c) Hl) as [z Hz].
  exists z.
  assert (Hbody : Py.int_digits (c :: l) 0 false = Some z).
  { cbn [Py.int_digits]. rewrite Hc. exact Hz. }
  clear Hstrip Hall Hs.
  destruct c as [[] [] [] [] [] [] [] []]; try discriminate Hc;
    cbv beta iota zeta; now rewrite Hbody.
Qed.

Lemma lyng_sat_frequency (t : Transponder) :
  lyng_sat_fields t -> exists k : Z, int_frequency t = Ok k.
Proof.
  intros [(v & [Hv _] & Hfreq) _]. unfold int_frequency. rewrite Hfreq.
  apply int_decimal. split.
  - destruct v; discriminate.
  - rewrite chars_append. apply Forall_app. split; [exact Hv|].
    repeat constructor.
Qed.

Lemma handle_text (ev : event) (p : SatellitesParser) :
  valued_anchor ev = true ->
  text_row (_current_row p) -> Forall text_row (_rows p) ->
  exists p' : SatellitesParser,
    handle ev p = Ok p'
    /\ text_row (_current_row p') /\ Forall text_row (_rows p').
Proof.
  intros Hev Hrow Hrows. destruct ev as [tag attrs|data|tag]; cbn [handle].
  - unfold handle_starttag. cbn [valued_anchor] in Hev.
    destruct (tag == "a").
    + destruct attrs as [|[name [v|]] rest]; try discriminate Hev.
      cbn [Py.index nth_error bind snd].
      destruct (tag == "td"), (tag == "tr"); eexists;
        (split; [reflexivity|]); cbn; (split; [|exact Hrows]);
        (apply Forall_app; split; [exact Hrow|]);
        repeat constructor; discriminate.
    + destruct (tag == "td"), (tag == "tr"); eexists;
        (split; [reflexivity|]); cbn; now split.
  - eexists. split; [reflexivity|]. unfold handle_data.
    destruct (_is_td p || _is_th p); cbn; now split.
  - eexists. split; [reflexivity|]. unfold handle_endtag.
    destruct (tag == "td") eqn:Htd.
    { cbn. split; [|exact Hrows]. apply Forall_app. split; [exact Hrow|].
      repeat constructor; discriminate. }
    destruct (tag == "th") eqn:Hth.
    { destruct (tag == "tr"); cbn; (split; [|exact Hrows]);
        (apply Forall_app; split; [exact Hrow|]);
        repeat constructor; discriminate. }
    destruct (tag == "tr"); cbn.
    + split; [constructor|]. apply Forall_app. split; [exact Hrows|].
      now repeat constructor.
    + now split.
Qed.

Lemma feed_text (doc : list event) (p : SatellitesParser) :
  forallb valued_anchor doc = true ->
  text_row (_current_row p) -> Forall text_row (_rows p) ->
  exists p' : SatellitesParser,
    feed doc p = (Ok tt, p') /\ Forall text_row (_rows p').
Proof.
  revert p. induction doc as [|ev doc IH]; intros p Hdoc Hrow Hrows.
  - now exists p.
  - cbn [forallb] in Hdoc. apply andb_true_iff in Hdoc as [Hev Hdoc].
    destruct (handle_text ev p Hev Hrow Hrows) as (p1 & Hp1 & Hrow1 & Hrows1).
    cbn [feed]. rewrite Hp1. now apply IH.
Qed.



(** ** Pages that are not answered with OK *)

Lemma fetch_sources_answered (requests_get : string -> fetched)
  (srcs : list string) (w : world) :
  answered requests_get srcs ->
  fst (feed (List.concat (map (page_of requests_get) srcs)) (self w))
  = Ok tt ->
  fetch_sources requests_get srcs w
  = (Ok None,
     mkWorld
       (snd (feed (List.concat (map (page_of requests_get) srcs)) (self w)))
       (logged w ++ reasons_of requests_get srcs)).
Proof.
  intros Hall. revert w.
  induction Hall as [|src srcs (reason & text & Hsrc) _ IH]; intros w.
  - cbn. rewrite app_nil_r. now destruct w.
  - cbn [map List.concat fetch_sources reasons_of flat_map].
    fold (reasons_of requests_get srcs).
    unfold page_of at 1 3. rewrite Hsrc. destruct (reason == "OK").
    + rewrite feed_app.
      destruct (feed text (self w)) as [[u|e] p1]; [|discriminate].
      intros Hrest. now rewrite (IH (with_self p1 w) Hrest).
    + cbn [app]. intros Hrest. rewrite (IH (log reason w) Hrest).
      cbn [log self logged]. now rewrite <- app_assoc.
Qed.

(** X21.  When every source page is answered and the tokenizer does not
    raise, [get_satellites_list] makes its list of the rows of the pages
    answered with OK alone, read one after the other; a page answered with
    another reason adds that reason to the log, in the order of the pages,
    and nothing to the rows, and the pages after it are still read. *)
Theorem get_satellites_list_skips_pages :
  forall (requests_get : string -> fetched)
         (adapter : list row -> result (list satellite))
         (source : SatelliteSource) (w : world),
    answered requests_get (get_sources source) ->
    fst (feed (List.concat (map (page_of requests_get) (get_sources source)))
           (enter_get_satellites_list source (self w)))
    = Ok tt ->
    get_satellites_list requests_get adapter source w
    = (satellites_of_rows adapter
         (snd (feed (List.concat
                       (map (page_of requests_get) (get_sources source)))
                 (enter_get_satellites_list source (self w)))),
       mkWorld
         (snd (feed (List.concat
                       (map (page_of requests_get) (get_sources source)))
                 (enter_get_satellites_list source (self w))))
         (logged w ++ reasons_of requests_get (get_sources source))).
Proof.
  intros requests_get adapter source w Hall Hfeed.
  unfold get_satellites_list.
  change (_source (enter_get_satellites_list source (self w))) with source.
  now rewrite (fetch_sources_answered requests_get (get_sources source)
                 (with_self (enter_get_satellites_list source (self w)) w)
                 Hall Hfeed).
Qed.

Lemma get_satellites_list_skips_pages_witness :
  get_satellites_list
    (answering "https://www.lyngsat.com/europe.html" "Not Found"
       sample_list_page [])
    (fun _ => Ok []) LYNGSAT (fresh LYNGSAT)
  = (Ok None, mkWorld (init LYNGSAT false " ") ["Not Found"]).
Proof.
  etransitivity.
  - apply (get_satellites_list_skips_pages
             (answering "https://www.lyngsat.com/europe.html" "Not Found"
                sample_list_page [])
             (fun _ => Ok []) LYNGSAT (fresh LYNGSAT)).
    + repeat constructor; vm_compute; eauto.
    + vm_compute. reflexivity.
  - vm_compute. reflexivity.
Defined.

(** ** What the first provider's extractor can raise *)

Lemma pop_raises {A : Type} (l : list A) (e : exn) :
  pop l = Raise e -> e = IndexError /\ l = [].
Proof.
  unfold pop. destruct (rev l) as [|x before] eqn:Hrev; [|discriminate].
  intros [= <-]. split; [reflexivity|].
  apply (f_equal (@rev A)) in Hrev. now rewrite rev_involutive in Hrev.
Qed.

Lemma row_ids_wide (r : row) : List.length r <> 1 -> row_ids r = [].
Proof.
  destruct r as [|[text|] [|c r]]; try reflexivity. intros Hlen.
  now destruct Hlen.
Qed.

(** One row of text: the loop goes on, with the pending ids grown by those
    of the row or emptied, or it raises [IndexError] on taking a
    transponder off the empty list. *)
Lemma fly_sat_row_text `{ECommons} (st : fly_sat_state) (r : row) :
  text_row r ->
  (exists st' : fly_sat_state,
      fly_sat_row st r = Ok st'
      /\ (is_ids st' = is_ids st ++ row_ids r \/ is_ids st' = []))
  \/ (fly_sat_row st r = Raise IndexError
      /\ is_ids st <> [] /\ trs st = []).
Proof.
  intros Htext.
  assert (Hskip : List.length r <> 1 ->
                  exists st' : fly_sat_state,
                    Ok st = Ok st'
                    /\ (is_ids st' = is_ids st ++ row_ids r
                        \/ is_ids st' = [])).
  { intros Hlen. exists st. split; [reflexivity|]. left.
    now rewrite (row_ids_wide r Hlen), app_nil_r. }
  unfold fly_sat_row.
  destruct (List.length r =? 1) eqn:H1.
  { destruct r as [|c [|c' r]]; try discriminate H1.
    inversion Htext as [|? ? Hc _]; subst.
    destruct c as [text|]; [|contradiction].
    left. eexists. split; [reflexivity|]. now left. }
  apply Nat.eqb_neq in H1.
  destruct (List.length r <? 3) eqn:H3; [left; now apply Hskip|].
  destruct r as [|c0 [|c1 [|c2 r]]]; try discriminate H3.
  inversion Htext as [|? ? _ Htext1]; subst.
  inversion Htext1 as [|? ? Hc1 Htext2]; subst.
  inversion Htext2 as [|? ? Hc2 _]; subst.
  destruct c1 as [s1|]; [|contradiction].
  destruct c2 as [s2|]; [|contradiction].
  cbn [Py.index nth_error as_str bind].
  repeat break_goal;
    first [ left; now apply Hskip
          | left; eexists; split; [reflexivity|]; now right
          | idtac ].
  destruct (pop (trs st)) as [popped|e] eqn:Hpop; cbn [bind].
  - left. eexists. split; [reflexivity|]. now right.
  - apply pop_raises in Hpop as [-> Hnil]. right.
    repeat split; [discriminate | exact Hnil].
Qed.

Lemma fly_sat_rows_text `{ECommons} (rows : list row) (st : fly_sat_state) :
  Forall text_row rows ->
  (exists st' : fly_sat_state, fly_sat_rows st rows = Ok st')
  \/ (fly_sat_rows st rows = Raise IndexError
      /\ (is_ids st <> []
          \/ Exists (fun r => row_ids r <> []) rows)).
Proof.
  intros Hrows. revert st.
  induction Hrows as [|r rows Hr _ IH]; intros st; [left; now exists st|].
  cbn [fly_sat_rows].
  destruct (fly_sat_row_text st r Hr)
    as [(st1 & -> & Hids)|(-> & Hids & _)].
  - cbn [bind]. destruct (IH st1) as [Hok|(-> & Hwhy)]; [now left|].
    right. split; [reflexivity|].
    destruct Hwhy as [Hst1|Hex]; [|right; now right].
    destruct Hids as [Hids|Hids]; [|now rewrite Hids in Hst1].
    rewrite Hids in Hst1.
    destruct (is_ids st) as [|i ids]; [|left; discriminate].
    right. left. exact Hst1.
  - right. split; [reflexivity|]. now left.
Qed.

(** X22.  On rows of text the first provider's extractor raises nothing
    but [IndexError], and it raises only when a one-cell row names a
    stream. *)
Theorem fly_sat_raises_index_error_only :
  forall (tables : ECommons) (rows : list row) (trs0 : list Transponder),
    Forall text_row rows ->
    (exists l : list Transponder,
        get_transponders_for_fly_sat rows trs0 = Ok l)
    \/ (get_transponders_for_fly_sat rows trs0 = Raise IndexError
        /\ Exists (fun r => row_ids r <> []) rows).
Proof.
  intros tables rows trs0 Hrows. unfold get_transponders_for_fly_sat.
  destruct rows as [|r rows]; [left; now exists trs0|].
  destruct (fly_sat_rows_text (r :: rows) (mkFly trs0 [] []) Hrows)
    as [[st ->]|(-> & [Hids|Hex])].
  - left. now eexists.
  - now destruct Hids.
  - right. now split.
Qed.

Lemma fly_sat_raises_index_error_only_witness :
  (exists l : list Transponder,
      get_transponders_for_fly_sat (H := sample_tables)
        [stream_row; row_11727] [] = Ok l)
  \/ (get_transponders_for_fly_sat (H := sample_tables)
        [stream_row; row_11727] [] = Raise IndexError
      /\ Exists (fun r => row_ids r <> []) [stream_row; row_11727]).
Proof.
  apply (fly_sat_raises_index_error_only sample_tables).
  repeat constructor; discriminate.
Defined.

(** ** What the second provider's list can raise *)

Section LyngSatListRaises.
Variable set_order : list string -> list string.

Lemma lyng_sat_list_row_text (st : list satellite * string) (r : row) :
  text_row r ->
  if short_extra_row r
  then lyng_sat_list_row set_order st r = Raise IndexError
  else exists st' : list satellite * string,
      lyng_sat_list_row set_order st r = Ok st'.
Proof.
  intros Htext. unfold short_extra_row.
  destruct (List.length r =? 7) eqn:H7.
  { apply Nat.eqb_eq in H7.
    destruct (lyng_sat_list_row_7 set_order st r H7 Htext)
      as (s1 & s2 & s3 & t1 & t2 & _ & _ & _ & -> & _).
    rewrite H7. cbn [Nat.eqb andb]. eauto. }
  destruct (List.length r =? 5) eqn:H5.
  { apply Nat.eqb_eq in H5.
    destruct (lyng_sat_list_row_5 set_order st r H5 Htext) as (s1 & _ & ->).
    rewrite H5. cbn [Nat.eqb andb]. eauto. }
  unfold lyng_sat_list_row. rewrite H7, H5. cbn [bind].
  destruct (List.length r =? 8); cbn [andb]; [|eauto].
  unfold Py.index.
  destruct (List.length (truthy_cells r) <? 2) eqn:H2.
  - apply Nat.ltb_lt in H2.
    assert (Hnone : nth_error (truthy_cells r) 1 = None)
      by (apply nth_error_None; lia).
    now rewrite Hnone.
  - apply Nat.ltb_ge in H2.
    destruct (nth_error (truthy_cells r) 1) as [d1|] eqn:Hd1;
      [cbn [bind]; eauto|].
    apply nth_error_None in Hd1. lia.
Qed.

Lemma lyng_sat_list_rows_text (rs : list row)
  (st : list satellite * string) :
  Forall text_row rs ->
  (existsb short_extra_row rs = true
   /\ lyng_sat_list_rows set_order st rs = Raise IndexError)
  \/ (existsb short_extra_row rs = false
      /\ exists st' : list satellite * string,
          lyng_sat_list_rows set_order st rs = Ok st').
Proof.
  intros Hrs. revert st.
  induction Hrs as [|r rs Hr _ IH]; intros st; [right; cbn; eauto|].
  cbn [existsb lyng_sat_list_rows].
  pose proof (lyng_sat_list_row_text st r Hr) as Hrow.
  destruct (short_extra_row r).
  - left. rewrite Hrow. now split.
  - destruct Hrow as [st1 ->]. cbn [bind orb]. apply IH.
Qed.

Lemma existsb_short_filter (rows : list row) :
  existsb short_extra_row (filter width_5_7_8 rows)
  = existsb short_extra_row rows.
Proof.
  induction rows as [|r rows IH]; [reflexivity|].
  cbn [filter existsb].
  destruct (width_5_7_8 r) eqn:Hw; cbn [existsb]; rewrite IH;
    [reflexivity|].
  unfold short_extra_row, width_5_7_8 in *.
  destruct (List.length r =? 8); [|reflexivity].
  rewrite orb_true_r in Hw. discriminate Hw.
Qed.

(** X23.  On rows of text the second provider's list raises exactly when
    one of the rows has eight cells of which fewer than two are non-empty,
    and then with [IndexError]; on all other rows of text it returns,
    whatever the order of the sets. *)
Theorem lyng_sat_list_raises_on_short_rows_only :
  forall rows : list row,
    Forall text_row rows ->
    (existsb short_extra_row rows = true
     /\ lyng_sat_list set_order rows = Raise IndexError)
    \/ (existsb short_extra_row rows = false
        /\ exists l : list satellite, lyng_sat_list set_order rows = Ok l).
Proof.
  intros rows Hrows. unfold lyng_sat_list.
  assert (Hwide : Forall text_row (filter width_5_7_8 rows)).
  { apply Forall_forall. intros r Hr. apply filter_In in Hr as [Hr _].
    rewrite Forall_forall in Hrows. now apply Hrows. }
  rewrite <- (existsb_short_filter rows).
  destruct (lyng_sat_list_rows_text (filter width_5_7_8 rows) ([], "0")
              Hwide) as [[Hshort ->]|[Hshort [st ->]]].
  - left. now split.
  - right. split; [exact Hshort|]. cbn [bind]. eauto.
Qed.

End LyngSatListRaises.

Lemma lyng_sat_list_raises_on_short_rows_only_witness :
  (existsb short_extra_row
     [extra_row; [Some ""; Some ""; Some ""; Some ""; Some ""; Some "";
                  Some ""; Some "x"]] = true
   /\ lyng_sat_list first_seen
        [extra_row; [Some ""; Some ""; Some ""; Some ""; Some ""; Some "";
                     Some ""; Some "x"]] = Raise IndexError)
  \/ (existsb short_extra_row
        [extra_row; [Some ""; Some ""; Some ""; Some ""; Some ""; Some "";
                     Some ""; Some "x"]] = false
      /\ exists l : list satellite,
          lyng_sat_list first_seen
            [extra_row; [Some ""; Some ""; Some ""; Some ""; Some "";
                         Some ""; Some ""; Some "x"]] = Ok l).
Proof.
  apply (lyng_sat_list_raises_on_short_rows_only first_seen).
  repeat constructor; discriminate.
Defined.

(** ** The PLS fields of the first provider *)

Lemma attempt_groups (ic : bool) (n : nat) (r : regex) (s s' : list ascii)
  (c : caps) :
  attempt ic n r s = Some (s', c) ->
  (forall i : nat, In i (sure_groups r) ->
     exists v : string, group c i = Some v)
  /\ (forall (i : nat) (v : string), group c i = Some v ->
        captured ic n r (i, v)).
Proof.
  intros Hm. apply attempt_sound in Hm. split.
  - exact (matches_sure Hm).
  - intros i v Hv. apply group_In in Hv.
    destruct (matches_captures Hm) as (e & -> & Hall).
    rewrite app_nil_r in Hv. rewrite Forall_forall in Hall.
    now apply Hall.
Qed.

Lemma lit_text (n : nat) (l v : string) (rest : list ascii) (c1 c2 : caps) :
  matches false n (Lit l) (Py.chars v ++ rest) c1 rest c2 -> v = l.
Proof.
  intros Hm. inversion Hm as [|l0 s0 s1 c0 Hl| | | | | | | | |]; subst.
  apply lit_match_exact in Hl. apply app_inv_tail in Hl.
  now rewrite <- (str_chars v), Hl, str_chars.
Qed.

Lemma pls_name_text (n : nat) (v : string) (rest : list ascii)
  (c1 c2 : caps) :
  matches false n pls_name (Py.chars v ++ rest) c1 rest c2 ->
  In v ["Root"; "Gold"; "Combo"].
Proof.
  unfold pls_name. intros Hm.
  inversion Hm as [| | | |a b s c s' c' Ha|a b s c s' c' Hb| | | | |]; subst.
  - apply lit_text in Ha. subst. simpl. tauto.
  - inversion Hb as [| | | |a b s c s' c' Ha'|a b s c s' c' Hb'| | | | |];
      subst.
    + apply lit_text in Ha'. subst. simpl. tauto.
    + apply lit_text in Hb'. subst. simpl. tauto.
Qed.

(** Every match of the PLS pattern holds the prefix, one of the three
    names, and a code that is decimal or missing. *)
Lemma pls_pattern_groups (n : nat) (s s' : list ascii) (c : caps) :
  attempt false n pls_pattern s = Some (s', c) ->
  pls_tuple (groups_tuple 3 c).
Proof.
  intros Hm. apply attempt_groups in Hm as [Hsure Hcap].
  destruct (Hsure 1) as [prefix Hprefix]; [simpl; tauto|].
  destruct (Hsure 2) as [name Hname]; [simpl; tauto|].
  unfold groups_tuple. cbn [seq map]. rewrite Hprefix, Hname.
  exists name, (match group c 3 with Some v => v | None => "" end).
  split; [|split].
  - f_equal. destruct (Hcap _ _ Hprefix) as (a & rest & c1 & c2 & Hin & Ha).
    pick_group Hin; eapply lit_text; exact Ha.
  - destruct (Hcap _ _ Hname) as (a & rest & c1 & c2 & Hin & Ha).
    pick_group Hin; eapply pls_name_text; exact Ha.
  - destruct (group c 3) as [code|] eqn:Hcode; [|now left]. right.
    destruct (Hcap _ _ Hcode) as (a & rest & c1 & c2 & Hin & Ha).
    pick_group Hin; eapply plus_digit_text; exact Ha.
Qed.

Lemma findall_pls_pattern (text : string) :
  Forall pls_tuple (findall 3 pls_pattern text).
Proof.
  unfold findall.
  generalize (S (List.length (Py.chars text))) as fuel.
  generalize (List.length (Py.chars text)) as n.
  generalize (Py.chars text) as s.
  intros s n fuel. revert s.
  induction fuel as [|fuel IH]; intros s; simpl; [constructor|].
  destruct (attempt false n pls_pattern s) as [[s' c]|] eqn:Hatt.
  - constructor.
    + eapply pls_pattern_groups; exact Hatt.
    + destruct (List.length s' <? List.length s); [apply IH|].
      destruct s; [constructor | apply IH].
  - destruct s; [constructor | apply IH].
Qed.

Lemma stream_copies_pls `{ECommons} (t : Transponder)
  (ids : list (list string)) :
  fly_sat_pls t -> Forall fly_sat_pls (stream_copies t ids).
Proof.
  intros Ht. unfold stream_copies. apply Forall_forall.
  intros x Hx. apply filter_In in Hx as [Hx _].
  apply in_map_iff in Hx as (m & <- & _). exact Ht.
Qed.

Lemma fly_sat_row_pls `{ECommons} (st st' : fly_sat_state) (r : row) :
  Forall fly_sat_pls (trs st) -> Forall fly_sat_pls (n_trs st) ->
  fly_sat_row st r = Ok st' ->
  Forall fly_sat_pls (trs st') /\ Forall fly_sat_pls (n_trs st').
Proof.
  intros Htrs Hn Hrow. unfold fly_sat_row, bind in Hrow.
  break_result Hrow; injection Hrow as <-; cbn [trs n_trs is_ids];
    split; try assumption;
    try (apply Forall_app; split; [assumption|]).
  all: try match goal with
           | Hpls : findall 3 pls_pattern ?text = _ |- _ =>
               pose proof (findall_pls_pattern text) as Htuple;
               rewrite Hpls in Htuple
           end.
  all: try (constructor; [|constructor]).
  all: try (left; now split).
  all: try match goal with
           | Htuple : Forall pls_tuple (_ :: _) |- fly_sat_pls _ =>
               inversion Htuple as [|? ? (name & code & -> & Hname & Hcode) _];
               subst; right; exists name, code; now repeat split
           end.
  all: match goal with
       | Hpop : pop (trs _) = Ok ?popped |- _ =>
           destruct popped as [x before]; apply pop_spec in Hpop;
           cbn [fst snd]; rewrite Hpop in Htrs; apply Forall_app in Htrs;
           destruct Htrs as [Hbefore Hx]
       end.
  all: first [ exact Hbefore
             | inversion Hx; subst; now apply stream_copies_pls ].
Qed.

Lemma fly_sat_rows_pls `{ECommons} (rows : list row)
  (st st' : fly_sat_state) :
  Forall fly_sat_pls (trs st) -> Forall fly_sat_pls (n_trs st) ->
  fly_sat_rows st rows = Ok st' ->
  Forall fly_sat_pls (trs st') /\ Forall fly_sat_pls (n_trs st').
Proof.
  revert st. induction rows as [|r rows IH]; intros st Htrs Hn; simpl.
  - intros [= <-]. now split.
  - destruct (fly_sat_row st r) as [st1|e] eqn:Hrow; simpl; [|discriminate].
    destruct (fly_sat_row_pls st st1 r Htrs Hn Hrow) as (H1 & H2).
    now apply IH.
Qed.

(** X24.  Every transponder the first provider's extractor returns has
    either no PLS mode and no PLS code, or the mode that the table gives
    for one of the names Root, Gold and Combo together with a code that is
    a string of decimal digits or the empty string. *)
Theorem fly_sat_pls_fields :
  forall (tables : ECommons) (rows : list row) (l : list Transponder),
    get_transponders_for_fly_sat rows [] = Ok l ->
    Forall fly_sat_pls l.
Proof.
  intros tables rows l. unfold get_transponders_for_fly_sat.
  destruct rows as [|r rows].
  - intros [= <-]. constructor.
  - destruct (fly_sat_rows (mkFly [] [] []) (r :: rows)) as [st|e] eqn:Hrows;
      simpl; [|discriminate].
    intros [= <-].
    destruct (fly_sat_rows_pls (r :: rows) (mkFly [] [] []) st)
      as [Hplain Hcopies]; try constructor; try exact Hrows.
    now apply Forall_app.
Qed.

Lemma fly_sat_pls_fields_witness :
  Forall (fly_sat_pls (H := sample_tables))
    [mkTransponder "11727000" "27500000" "V" "3/4" "DVB-S2" "8PSK"
       (dict_get (pls_modes (H := sample_tables)) "Gold") (Some "8") None].
Proof.
  apply (fly_sat_pls_fields sample_tables [row_pls]).
  vm_compute. reflexivity.
Defined.
